(** * kubeclipper: the condition-wait helpers of test/framework/cluster/wait.go

    A shallow embedding of the polling helpers of the e2e framework and the
    properties of their wait loop, of the fetch-error handler, of the retry
    classifier and of the domain predicates built on them.

    Conventions of the embedding:
    - a Go [error] interface value is an [option error_value]; [None] is nil;
    - a nil-able pointer ([*corev1.Cluster]) is an [option]; [DeepCopy] is the
      identity, the snapshots being immutable values here;
    - the closures handed to [wait.PollImmediate] mutate variables of the
      enclosing function; those captured variables and the effects on the
      outside world (API calls, log lines, sleeps) are threaded explicitly
      through a small state monad;
    - [fmt.Sprintf] with only [%s] verbs over strings is string concatenation. *)

From Stdlib Require Import String List ZArith Bool Lia Sorted Permutation.
From Stdlib Require OrderedTypeEx.
Import ListNotations.
Open Scope string_scope.

(** ** Snapshot objects (package corev1) *)

(** Modelled from the spec: [corev1.ClusterPhase]; pkg/scheme/core/v1 is not
    among the sources.  The spec (section 3) enumerates Pending, Installing,
    Running, RestoreFailed and leaves the list open; every other phase,
    the empty one of a zero value included, is [ClusterPhaseOther]. *)
Inductive ClusterPhase : Type :=
| ClusterPending
| ClusterInstalling
| ClusterRunning
| ClusterRestoreFailed
| ClusterPhaseOther (phase : string).

(** Modelled from the spec: the health status of a component condition
    ([corev1.ComponentHealthy] and the others). *)
Inductive ComponentStatus : Type :=
| ComponentHealthy
| ComponentStatusOther (status : string).

(** Modelled from the spec: [corev1.BackupStatusType] (section 3: Pending,
    Available, Error); the zero value is [ClusterBackupOther ""]. *)
Inductive BackupStatusType : Type :=
| ClusterBackupPending
| ClusterBackupAvailable
| ClusterBackupError
| ClusterBackupOther (status : string).

(** An entry of [clu.Status.ComponentConditions]: Go fields [Name], [Status]. *)
Record ComponentCondition : Type := mkComponentCondition
  { condName : string;
    condStatus : ComponentStatus }.

(** [clu.Status]. *)
Record ClusterStatus : Type := mkClusterStatus
  { Phase : ClusterPhase;
    ComponentConditions : list ComponentCondition }.

(** [corev1.Cluster]: Go fields [Name], [Addons], [Status]; an add-on is
    identified by its name. *)
Record Cluster : Type := mkCluster
  { clusterName_ : string;
    Addons : list string;
    Status : ClusterStatus }.

(** [backup.Status]. *)
Record BackupStatus : Type := mkBackupStatus
  { ClusterBackupStatus : BackupStatusType }.

(** [corev1.Backup]: Go fields [Name], [Status]. *)
Record Backup : Type := mkBackup
  { backupName_ : string;
    backupStatus : BackupStatus }.

(** The zero value [corev1.Backup{}]. *)
Definition emptyBackup : Backup :=
  mkBackup "" (mkBackupStatus (ClusterBackupOther "")).

(** ** Errors *)

(** What the wait helpers store in [observedObjects []interface{}]. *)
Inductive observed : Type :=
| ObservedCluster (clu : Cluster)
| ObservedBackup (backup : Backup).

(** Modelled from the spec: the reason carried by an API error of
    pkg/errors, which is not among the sources.  Section 6 requires errors to
    be distinguishable as not found, internal/server error, too many
    requests, or other; the other reasons named here are client-side. *)
Inductive StatusReason : Type :=
| StatusReasonNotFound
| StatusReasonInternalError
| StatusReasonTooManyRequests
| StatusReasonForbidden
| StatusReasonInvalid
| StatusReasonUnknown.

(** The dynamic types of error values met by this file. *)
Inductive error_value : Type :=
| ErrWaitTimeout                                    (* the sentinel wait.ErrWaitTimeout *)
| timeoutError (msg : string) (observedObjects : list observed)  (* *timeoutError *)
| StatusError (reason : StatusReason) (message : string)         (* an API status error *)
| errorString (msg : string)                        (* fmt.Errorf without %w *)
| wrapError (msg : string) (err : error_value).     (* fmt.Errorf with %w *)

(** The [Error()] method. *)
Definition Error (e : error_value) : string :=
  match e with
  | ErrWaitTimeout => "timed out waiting for the condition"
  | timeoutError msg _ => msg
  | StatusError _ message => message
  | errorString msg => msg
  | wrapError msg _ => msg
  end.

Definition TimeoutError (msg : string) (observedObjects : list observed)
  : option error_value :=
  Some (timeoutError msg observedObjects).

Definition IsTimeout (err : option error_value) : bool :=
  match err with
  | Some ErrWaitTimeout => true
  | Some (timeoutError _ _) => true
  | _ => false
  end.

(** [fmt.Errorf("error while %s: %w", task, err)]. *)
Definition Errorf_wrap (task : string) (err : error_value) : error_value :=
  wrapError ("error while " ++ task ++ ": " ++ Error err) err.

(** [task] is [fmt.Sprintf(taskFormat, taskArgs...)], formatted by the caller. *)
Definition maybeTimeoutError (err : option error_value) (task : string)
  : option error_value :=
  if IsTimeout err then TimeoutError ("timed out while " ++ task) []
  else match err with
       | Some e => Some (Errorf_wrap task e)
       | None => None
       end.

(** ** Package apierror *)

Definition StatusReason_eqb (a b : StatusReason) : bool :=
  match a, b with
  | StatusReasonNotFound, StatusReasonNotFound
  | StatusReasonInternalError, StatusReasonInternalError
  | StatusReasonTooManyRequests, StatusReasonTooManyRequests
  | StatusReasonForbidden, StatusReasonForbidden
  | StatusReasonInvalid, StatusReasonInvalid
  | StatusReasonUnknown, StatusReasonUnknown => true
  | _, _ => false
  end.

(** Modelled from the spec: the reason an error denotes; nil and the errors
    that are not API errors denote none. *)
Definition ReasonForError (err : option error_value) : StatusReason :=
  match err with
  | Some (StatusError reason _) => reason
  | _ => StatusReasonUnknown
  end.

(** Modelled from the spec: [apierror.IsNotFound], the error denotes
    "object not found". *)
Definition IsNotFound (err : option error_value) : bool :=
  StatusReason_eqb (ReasonForError err) StatusReasonNotFound.

(** Modelled from the spec: [apierror.IsInternalError]. *)
Definition IsInternalError (err : option error_value) : bool :=
  StatusReason_eqb (ReasonForError err) StatusReasonInternalError.

(** Modelled from the spec: [apierror.IsTooManyRequests]. *)
Definition IsTooManyRequests (err : option error_value) : bool :=
  StatusReason_eqb (ReasonForError err) StatusReasonTooManyRequests.

(** ** Effects: API calls, log lines and sleeps *)

(** The result of an API read: a list of matching objects or an error. *)
Inductive APIResult (A : Type) : Type :=
| Items (items : list A)
| Failed (err : error_value).
Arguments Items {A} items.
Arguments Failed {A} err.

(** [kc.Client], seen from the wait helpers: what the [n]-th read made
    through the client answers (reads are counted from 0). *)
Record Client : Type := mkClient
  { describeCluster : string -> nat -> APIResult Cluster;
    listBackupsWithCluster : string -> nat -> APIResult Backup }.

(** One constructor per [framework.Logf] call site, with its arguments; the
    elapsed wall-clock times that some lines print are left out. *)
Inductive LogLine : Type :=
| LogWaitingCluster (timeout : nat) (clusterName conditionDesc : string)
| LogClusterPhase (clusterName : string) (phase : ClusterPhase)
| LogClusterSatisfied (clusterName conditionDesc : string)
| LogClusterConditionError (conditionDesc : string) (err : error_value)
| LogWaitingBackup (timeout : nat) (backupName conditionDesc : string)
| LogBackupPhase (backupName : string) (status : BackupStatusType)
| LogBackupSatisfied (backupName conditionDesc : string)
| LogBackupConditionError (conditionDesc : string) (err : error_value)
| LogUnexpectedEmpty
| LogIgnoringNotFound (taskDescription : string)
| LogRetryable (taskDescription : string) (delay : Z) (err : option error_value)
| LogNonRetryable (taskDescription : string) (err : option error_value).

(** The world outside a wait call: reads made so far, the log (oldest line
    first) and the total time spent in [time.Sleep], which only the error
    handler calls; the suspension of the poll between two checks is not
    part of it. *)
Record Env : Type := mkEnv
  { apiCalls : nat;
    logs : list LogLine;
    slept : Z }.

Definition initEnv : Env := mkEnv 0 [] 0.

(** A computation over a state [St] returning an [A]. *)
Definition M (St A : Type) : Type := St -> A * St.

Definition ret {St A : Type} (a : A) : M St A := fun s => (a, s).

Definition bind {St A B : Type} (m : M St A) (k : A -> M St B) : M St B :=
  fun s => let (a, s') := m s in k a s'.

Declare Scope wait_scope.
Delimit Scope wait_scope with wait.
Notation "x <- m ;; k" := (bind m (fun x => k))
  (at level 61, m at next level, right associativity) : wait_scope.
Notation "m ;; k" := (bind m (fun _ => k))
  (at level 61, right associativity) : wait_scope.
Open Scope wait_scope.

Definition Logf (line : LogLine) : M Env unit :=
  fun e => (tt, mkEnv (apiCalls e) (logs e ++ [line]) (slept e)).

Definition Sleep (d : Z) : M Env unit :=
  fun e => (tt, mkEnv (apiCalls e) (logs e) (slept e + d)).

Definition DescribeCluster (c : Client) (clusterName : string)
  : M Env (APIResult Cluster) :=
  fun e => (describeCluster c clusterName (apiCalls e),
            mkEnv (S (apiCalls e)) (logs e) (slept e)).

Definition ListBackupsWithCluster (c : Client) (clusterName : string)
  : M Env (APIResult Backup) :=
  fun e => (listBackupsWithCluster c clusterName (apiCalls e),
            mkEnv (S (apiCalls e)) (logs e) (slept e)).

(** The variables a closure captures live next to the world. *)
Definition onEnv {V A : Type} (m : M Env A) : M (V * Env) A :=
  fun s => let (a, e') := m (snd s) in (a, (fst s, e')).

Definition getVars {V : Type} : M (V * Env) V := fun s => (fst s, s).

Definition setVars {V : Type} (v : V) : M (V * Env) unit :=
  fun s => (tt, (v, snd s)).

(** The error of an API read, nil when it succeeded. *)
Definition errOf {A : Type} (r : APIResult A) : option error_value :=
  match r with
  | Items _ => None
  | Failed e => Some e
  end.

(** ** Retry classifier and fetch-error handler *)

(** Decide whether to retry an API request, and after which delay. *)
Definition shouldRetry (err : option error_value) : bool * Z :=
  if IsInternalError err || IsTooManyRequests err then (true, 0%Z)
  else (false, 0%Z).

(** [taskDescription] is [fmt.Sprintf(taskFormat, taskArgs...)]. *)
Definition handleWaitingAPIError (err : option error_value)
    (retryNotFound : bool) (taskDescription : string)
  : M Env (bool * option error_value) :=
  if retryNotFound && IsNotFound err then
    Logf (LogIgnoringNotFound taskDescription) ;;
    ret (false, None)
  else
    let (retry, delay) := shouldRetry err in
    if retry then
      Logf (LogRetryable taskDescription delay err) ;;
      (if (0 <? delay)%Z then Sleep delay else ret tt) ;;
      ret (false, None)
    else
      Logf (LogNonRetryable taskDescription err) ;;
      ret (false, err).

(** ** wait.PollImmediate *)

Section Poll.
Context {St : Type}.

(** [wait.ConditionFunc], with the state its closure touches. *)
Definition ConditionFunc : Type := M St (bool * option error_value).

(** The loop of the library after the immediate check: [ticks] is how
    many more times the deadline lets the condition run.  An error from
    the condition aborts the loop, whatever [done] is; then [done] ends it
    with nil; when the deadline has passed the result is the sentinel. *)
Fixpoint poll (ticks : nat) (condition : ConditionFunc) : M St (option error_value) :=
  match ticks with
  | O => ret (Some ErrWaitTimeout)
  | S n =>
      r <- condition ;;
      match snd r with
      | Some e => ret (Some e)
      | None => if fst r then ret None else poll n condition
      end
  end.

(** [PollImmediate(poll, timeout, condition)] of
    k8s.io/apimachinery/pkg/util/wait, a dependency of the repository: the
    condition is checked once before any waiting, then at every tick until
    the deadline.  Wall-clock time is not modelled: [timeout] counts the
    checks made after the first one, the check the library makes when the
    deadline closes its channel included, so a call with a deadline has a
    count of at least 1.  A Go timeout of 0, which stands for no deadline,
    has no count, and the suspension of 15 s between two checks is not
    recorded. *)
Definition PollImmediate (timeout : nat) (condition : ConditionFunc)
  : M St (option error_value) :=
  r <- condition ;;
  match snd r with
  | Some e => ret (Some e)
  | None => if fst r then ret None else poll timeout condition
  end.
End Poll.
Arguments ConditionFunc St : clear implicits.

(** Run a computation that owns local variables, starting from [init], and
    hand their final values back together with its result. *)
Definition withVars {V A : Type} (init : V) (m : M (V * Env) A) : M Env (A * V) :=
  fun e => let (a, s') := m (init, e) in ((a, fst s'), snd s').

(** ** The wait helpers *)

Definition clusterCondition : Type := Cluster -> bool * option error_value.

Definition backupCondition : Type := Backup -> bool * option error_value.

(** The variables captured by the closure of [WaitForClusterCondition]. *)
Record ClusterVars : Type := mkClusterVars
  { lastClusterError : option error_value;
    lastCluster : option Cluster }.

(** The closure polled by [WaitForClusterCondition]. *)
Definition clusterConditionFunc (c : Client) (clusterName conditionDesc : string)
    (condition : clusterCondition) : ConditionFunc (ClusterVars * Env) :=
  clu <- onEnv (DescribeCluster c clusterName) ;;
  v <- getVars ;;
  setVars (mkClusterVars (errOf clu) (lastCluster v)) ;;
  match clu with
  | Items (item :: _) =>
      setVars (mkClusterVars (errOf clu) (Some item)) ;;
      onEnv (Logf (LogClusterPhase clusterName (Phase (Status item)))) ;;
      let (done, err) := condition item in
      if done then
        match err with
        | None =>
            onEnv (Logf (LogClusterSatisfied clusterName conditionDesc)) ;;
            ret (true, err)
        | Some _ => ret (true, err)
        end
      else
        match err with
        | Some e =>
            onEnv (Logf (LogClusterConditionError conditionDesc e)) ;;
            ret (false, None)
        | None => ret (false, None)
        end
  | _ =>
      onEnv (handleWaitingAPIError (errOf clu) true ("getting cluster " ++ clusterName))
  end.

(** WaitForClusterCondition waits a cluster to be matched to the given
    condition. *)
Definition WaitForClusterCondition (c : Client) (clusterName conditionDesc : string)
    (timeout : nat) (condition : clusterCondition) : M Env (option error_value) :=
  Logf (LogWaitingCluster timeout clusterName conditionDesc) ;;
  r <- withVars (mkClusterVars None None)
         (PollImmediate timeout
            (clusterConditionFunc c clusterName conditionDesc condition)) ;;
  let (err, v) := r in
  match err with
  | None => ret None
  | Some _ =>
      match IsTimeout err, lastCluster v with
      | true, Some clu =>
          ret (TimeoutError
                 ("timed out while waiting for cluster " ++ clusterName
                    ++ " to be " ++ conditionDesc)
                 [ObservedCluster clu])
      | _, _ =>
          let err := match lastClusterError v with
                     | Some e => Some e   (* the last API call was an error *)
                     | None => err
                     end in
          ret (maybeTimeoutError err
                 ("waiting for cluster " ++ clusterName ++ " to be " ++ conditionDesc))
      end
  end.

(** The closure polled by [WaitForBackupCondition]; its captured variable
    is the pointer [bp]. *)
Definition backupConditionFunc (c : Client) (clusterName backupName conditionDesc : string)
    (condition : backupCondition) : ConditionFunc (option Backup * Env) :=
  backups <- onEnv (ListBackupsWithCluster c clusterName) ;;
  match backups with
  | Items (item :: _) =>
      setVars (Some item) ;;
      onEnv (Logf (LogBackupPhase backupName (ClusterBackupStatus (backupStatus item)))) ;;
      let (done, conErr) := condition item in
      if done then
        match conErr with
        | None =>
            onEnv (Logf (LogBackupSatisfied backupName conditionDesc)) ;;
            ret (true, conErr)
        | Some _ => ret (true, conErr)
        end
      else
        match conErr with
        | Some e =>
            onEnv (Logf (LogBackupConditionError conditionDesc e)) ;;
            ret (false, None)
        | None => ret (false, None)
        end
  | _ =>
      onEnv (handleWaitingAPIError (errOf backups) true ("getting backup " ++ backupName))
  end.

Definition WaitForBackupCondition (c : Client) (clusterName backupName conditionDesc : string)
    (timeout : nat) (condition : backupCondition) : M Env (option error_value) :=
  Logf (LogWaitingBackup timeout backupName conditionDesc) ;;
  r <- withVars (Some emptyBackup)      (* bp := &corev1.Backup{} *)
         (PollImmediate timeout
            (backupConditionFunc c clusterName backupName conditionDesc condition)) ;;
  let (err, bp) := r in
  match err with
  | None => ret None
  | Some _ =>
      match IsTimeout err, bp with
      | true, Some backup =>
          ret (TimeoutError
                 ("timed out while waiting for backup " ++ backupName
                    ++ " to be " ++ conditionDesc)
                 [ObservedBackup backup])
      | _, _ =>
          ret (maybeTimeoutError err
                 ("waiting for backup " ++ backupName ++ " to be " ++ conditionDesc))
      end
  end.

(** The condition of [WaitForClusterRunning]. *)
Definition clusterRunning : clusterCondition :=
  fun clu =>
    (match Phase (Status clu) with ClusterRunning => true | _ => false end, None).

Definition WaitForClusterRunning (c : Client) (clusterName : string) (timeout : nat)
  : M Env (option error_value) :=
  WaitForClusterCondition c clusterName ("cluster " ++ clusterName ++ " running")
    timeout clusterRunning.

(** The [for ... range clu.Status.ComponentConditions] loop of the healthy
    condition: the first entry named "kubernetes" decides. *)
Fixpoint healthyLoop (conds : list ComponentCondition) : bool * option error_value :=
  match conds with
  | [] => (false, None)
  | item :: rest =>
      if String.eqb (condName item) "kubernetes" then
        (match condStatus item with ComponentHealthy => true | _ => false end, None)
      else healthyLoop rest
  end.

(** The condition of [WaitForClusterHealthy]. *)
Definition clusterHealthy : clusterCondition :=
  fun clu => healthyLoop (ComponentConditions (Status clu)).

Definition WaitForClusterHealthy (c : Client) (clusterName : string) (timeout : nat)
  : M Env (option error_value) :=
  WaitForClusterCondition c clusterName ("cluster " ++ clusterName ++ " healthy")
    timeout clusterHealthy.

(** The closure polled by [WaitForClusterNotFound]; its captured variable is
    [lastCluster]. *)
Definition clusterNotFoundFunc (c : Client) (clusterName : string)
  : ConditionFunc (option Cluster * Env) :=
  clu <- onEnv (DescribeCluster c clusterName) ;;
  if IsNotFound (errOf clu) then
    ret (true, None)   (* done *)
  else
    match clu with
    | Failed e =>
        onEnv (handleWaitingAPIError (Some e) true ("getting cluster " ++ clusterName))
    | Items [] =>
        onEnv (Logf LogUnexpectedEmpty) ;;
        ret (false, None)
    | Items (item :: _) =>
        setVars (Some item) ;;
        ret (false, None)
    end.

(** If the read returns IsNotFound then the wait stops and nil is returned. *)
Definition WaitForClusterNotFound (c : Client) (clusterName : string) (timeout : nat)
  : M Env (option error_value) :=
  r <- withVars None (PollImmediate timeout (clusterNotFoundFunc c clusterName)) ;;
  let (err, lastCluster) := r in
  match err with
  | None => ret None
  | Some _ =>
      match IsTimeout err, lastCluster with
      | true, Some clu =>
          ret (TimeoutError
                 ("timeout while waiting for cluster " ++ clusterName ++ " to be Not Found")
                 [ObservedCluster clu])
      | _, _ =>
          ret (maybeTimeoutError err ("waiting for cluster " ++ clusterName ++ " not found"))
      end
  end.

(** The closure polled by [WaitForComponentNotFound]. *)
Definition componentNotFoundFunc (c : Client) (clusterName : string)
  : ConditionFunc (option Cluster * Env) :=
  clu <- onEnv (DescribeCluster c clusterName) ;;
  match clu with
  | Failed e =>
      onEnv (handleWaitingAPIError (Some e) true ("getting cluster " ++ clusterName))
  | Items [] =>
      onEnv (Logf LogUnexpectedEmpty) ;;
      ret (false, None)
  | Items (item :: _) =>
      setVars (Some item) ;;
      match Addons item with
      | [] => ret (true, None)
      | _ :: _ => ret (false, None)
      end
  end.

Definition WaitForComponentNotFound (c : Client) (clusterName : string) (timeout : nat)
  : M Env (option error_value) :=
  r <- withVars None (PollImmediate timeout (componentNotFoundFunc c clusterName)) ;;
  let (err, lastCluster) := r in
  match err with
  | None => ret None
  | Some _ =>
      match IsTimeout err, lastCluster with
      | true, Some clu =>
          ret (TimeoutError
                 ("timeout while waiting for cluster " ++ clusterName
                    ++ " component to be Not Found")
                 [ObservedCluster clu])
      | _, _ =>
          ret (maybeTimeoutError err
                 ("waiting for cluster " ++ clusterName ++ " uninstall component not found"))
      end
  end.

(** The condition of [WaitForBackupAvailable]. *)
Definition backupAvailable : backupCondition :=
  fun backup =>
    match ClusterBackupStatus (backupStatus backup) with
    | ClusterBackupAvailable => (true, None)
    | ClusterBackupError =>
        (false, Some (errorString ("backup " ++ backupName_ backup ++ " create failed")))
    | _ => (false, None)
    end.

Definition WaitForBackupAvailable (c : Client) (clusterName backupName : string)
    (timeout : nat) : M Env (option error_value) :=
  WaitForBackupCondition c clusterName backupName ("backup " ++ backupName ++ " available")
    timeout backupAvailable.

(** The closure polled by [WaitForBackupNotFound]. *)
Definition backupNotFoundFunc (c : Client) (clusterName backupName : string)
  : ConditionFunc (option Backup * Env) :=
  backups <- onEnv (ListBackupsWithCluster c clusterName) ;;
  match backups with
  | Failed e =>
      onEnv (handleWaitingAPIError (Some e) true ("getting backup " ++ backupName))
  | Items [] => ret (true, None)
  | Items (item :: _) =>
      setVars (Some item) ;;
      ret (false, None)
  end.

Definition WaitForBackupNotFound (c : Client) (clusterName backupName : string)
    (timeout : nat) : M Env (option error_value) :=
  r <- withVars (Some emptyBackup) (PollImmediate timeout (backupNotFoundFunc c clusterName backupName)) ;;
  let (err, bp) := r in
  match err with
  | None => ret None
  | Some _ =>
      match IsTimeout err, bp with
      | true, Some backup =>
          ret (TimeoutError
                 ("timeout while waiting for backup " ++ backupName ++ " to be Not Found")
                 [ObservedBackup backup])
      | _, _ =>
          ret (maybeTimeoutError err ("waiting for backup " ++ backupName ++ " not found"))
      end
  end.

(** The condition of [WaitForRecovery]. *)
Definition recoverySuccessful (clusterName : string) : clusterCondition :=
  fun clu =>
    match Phase (Status clu) with
    | ClusterRunning => (true, None)
    | ClusterRestoreFailed =>
        (false, Some (errorString ("recovery cluster " ++ clusterName ++ " failed")))
    | _ => (false, None)
    end.

Definition WaitForRecovery (c : Client) (clusterName : string) (timeout : nat)
  : M Env (option error_value) :=
  WaitForClusterCondition c clusterName "recovery successful" timeout
    (recoverySuccessful clusterName).

(** * The registry command of the CLI (pkg/cli/registry/registry.go) *)

(** Modelled from its uses: [sshutils.SSH]; pkg/utils/sshutils is not among
    the sources, these are the fields registry.go reads or sets. *)
Record SSH : Type := mkSSH
  { User : string;
    PkFile : string;
    Password : string }.

(** [RegistryOptions], without its output streams and print flags; the Go
    field [Type] is [Type_] here. *)
Record RegistryOptions : Type := mkRegistryOptions
  { Deploy : string;
    Clean : string;
    Node : string;
    Pkg : string;
    DataRoot : string;
    RegistryVolume : string;
    RegistryPort : Z;
    Arch : string;
    RemoveDocker : bool;
    Force : bool;
    Type_ : string;
    Name : string;
    Tag : string;
    Number : Z;
    SSHConfig : SSH }.

Definition NewRegistryOptions : RegistryOptions :=
  {| Deploy := ""; Clean := ""; Node := ""; Pkg := "";
     DataRoot := "/var/lib/docker";
     RegistryVolume := "/opt/registry";
     RegistryPort := 5000;
     Arch := "amd64";
     RemoveDocker := false; Force := false;
     Type_ := ""; Name := ""; Tag := ""; Number := 0;
     SSHConfig := mkSSH "root" "" "" |}.

(** [o.Arch = "amd64"], the one assignment of [Complete]. *)
Definition setArch (o : RegistryOptions) (arch : string) : RegistryOptions :=
  {| Deploy := Deploy o; Clean := Clean o; Node := Node o; Pkg := Pkg o;
     DataRoot := DataRoot o; RegistryVolume := RegistryVolume o;
     RegistryPort := RegistryPort o; Arch := arch;
     RemoveDocker := RemoveDocker o; Force := Force o;
     Type_ := Type_ o; Name := Name o; Tag := Tag o; Number := Number o;
     SSHConfig := SSHConfig o |}.

(** [Complete] mutates its receiver: the options come back with the error. *)
Definition Complete (o : RegistryOptions) : RegistryOptions * option error_value :=
  (if (Arch o =? "")%string then setArch o "amd64" else o, None).

Definition ValidateArgs (o : RegistryOptions) : option error_value :=
  if (PkFile (SSHConfig o) =? "")%string && (Password (SSHConfig o) =? "")%string then
    Some (errorString "one of --pk-file or --passwd must be specified")
  else if (Node o =? "")%string then
    Some (errorString "--node must be specified")
  else None.

Definition ValidateArgsPush (o : RegistryOptions) : option error_value :=
  if (PkFile (SSHConfig o) =? "")%string && (Password (SSHConfig o) =? "")%string then
    Some (errorString "one of --pk-file or --passwd must be specified")
  else if (Node o =? "")%string then
    Some (errorString "--node must be specified")
  else if (Pkg o =? "")%string then
    Some (errorString "--image-pkg must be specified")
  else None.

Definition ValidateArgsDeploy (o : RegistryOptions) : option error_value :=
  if (PkFile (SSHConfig o) =? "")%string && (Password (SSHConfig o) =? "")%string then
    Some (errorString "one of --pk-file or --passwd must be specified")
  else if (Pkg o =? "")%string then
    Some (errorString "--pkg must be specified")
  else if (Node o =? "")%string then
    Some (errorString "--node must be specified")
  else None.

Definition ValidateArgsList (o : RegistryOptions) : option error_value :=
  if (Node o =? "")%string then
    Some (errorString "--node must be specified")
  else if negb (Type_ o =? "image")%string && negb (Type_ o =? "repository")%string then
    Some (errorString "--type must be one of image,repository")
  else if (Type_ o =? "image")%string && (Name o =? "")%string then
    Some (errorString "when type=image,--name is required")
  else None.

(** [UsageErrorf] stands for [utils.UsageErrorf(cmd, ...)], which is not
    among the sources: the error it builds from the message. *)
Definition ValidateArgsDelete (UsageErrorf : string -> error_value)
    (o : RegistryOptions) : option error_value :=
  if (PkFile (SSHConfig o) =? "")%string && (Password (SSHConfig o) =? "")%string then
    Some (errorString "one of --pk-file or --passwd must be specified")
  else if (Node o =? "")%string then
    Some (errorString "--node must be specified")
  else if (Name o =? "")%string then
    Some (UsageErrorf "image name must be specified")
  else if (Tag o =? "")%string then
    Some (UsageErrorf "image tag must be specified")
  else None.







(** [sets.String] of k8s.io/apimachinery/pkg/util/sets, a dependency: a set
    of strings whose [List] is sorted.  The set is kept as its sorted list,
    [sets.NewString()] is the empty list, [Insert] adds a member. *)
Fixpoint Insert (x : string) (set : list string) : list string :=
  match set with
  | [] => [x]
  | y :: rest =>
      match String.compare x y with
      | Lt => x :: set
      | Eq => set
      | Gt => y :: Insert x rest
      end
  end.

(** The loop of [listTags] and the inner loop of [listRepos]:
    [strings.HasPrefix(v, toComplete)] is [prefix toComplete v]. *)
Definition insertMatching (toComplete : string) (set values : list string)
  : list string :=
  fold_left (fun set v => if prefix toComplete v then Insert v set else set) values set.

(** [tags] is what [o.tags()] returned, slice and error; the error is only
    logged.  A nil slice and an empty one are both the empty list. *)
Definition listTags (o : RegistryOptions) (toComplete : string)
    (tags : list string * option error_value) : list string :=
  let o := fst (Complete o) in
  if (Name o =? "")%string then []
  else insertMatching toComplete [] (fst tags).

(** [repos] is what [o.repos()] returned: the JSON object as the list of its
    keys with their values, in the order the map happens to be ranged over,
    and the error. *)
Definition listRepos (o : RegistryOptions) (toComplete : string)
    (repos : list (string * list string) * option error_value) : list string :=
  match snd repos with
  | Some _ => []
  | None =>
      fold_left (fun set entry => insertMatching toComplete set (snd entry))
        (fst repos) []
  end.

(** * Notions used by the statements *)

(** The order of [sort.Strings]: byte-wise lexicographic. *)
Definition slt (a b : string) : Prop := String.compare a b = Lt.


(** The reads made when the state is [s]. *)
Definition reads {V : Type} (s : V * Env) : nat := apiCalls (snd s).

(** What the handler answers when asked to retry on not-found: go on
    after a not-found or a retryable error (and after no error at all),
    stop with the error otherwise. *)
Definition handlerAnswer (err : option error_value) : bool * option error_value :=
  (false, if IsNotFound err || fst (shouldRetry err) then None else err).

(** A read error after which the wait cannot go on. *)
Definition terminal (e : error_value) : Prop :=
  IsNotFound (Some e) = false /\ fst (shouldRetry (Some e)) = false.

(** The log lines a check adds after the phase line, by what the
    condition answered. *)
Definition clusterConditionLines (clusterName conditionDesc : string)
    (answer : bool * option error_value) : list LogLine :=
  match answer with
  | (true, None) => [LogClusterSatisfied clusterName conditionDesc]
  | (false, Some e) => [LogClusterConditionError conditionDesc e]
  | _ => []
  end.

(** The same for a check of a backup wait. *)
Definition backupConditionLines (backupName conditionDesc : string)
    (answer : bool * option error_value) : list LogLine :=
  match answer with
  | (true, None) => [LogBackupSatisfied backupName conditionDesc]
  | (false, Some e) => [LogBackupConditionError conditionDesc e]
  | _ => []
  end.

(** The state in which [WaitForClusterCondition] starts polling. *)
Definition clusterWaitStart (clusterName conditionDesc : string) (timeout : nat)
    (env : Env) : ClusterVars * Env :=
  (mkClusterVars None None,
   mkEnv (apiCalls env)
     (logs env ++ [LogWaitingCluster timeout clusterName conditionDesc])
     (slept env)).

Section Runs.
Context {St : Type}.
Variable condition : ConditionFunc St.

(** [runs condition s j s']: from [s], [j] checks in a row answered
    (false, nil) and left the state [s']. *)
Inductive runs (s : St) : nat -> St -> Prop :=
| runs_O : runs s 0 s
| runs_S j s1 s2 :
    runs s j s1 -> condition s1 = ((false, None), s2) -> runs s (S j) s2.
End Runs.

(** [clu] is the first item of the latest read, among the reads numbered
    from [start] up to [stop] excluded, that returned a non-empty list. *)
Definition latestFetched (c : Client) (clusterName : string) (start stop : nat)
    (clu : Cluster) : Prop :=
  exists k rest,
    start <= k < stop /\
    describeCluster c clusterName k = Items (clu :: rest) /\
    forall k', k < k' < stop ->
      forall item rest', describeCluster c clusterName k' <> Items (item :: rest').

(** The retained snapshot [last (fst s)] is the first item of the latest
    read, since [start], that returned items; there is none before such a
    read. *)
Definition snapshot_ok {V : Type} (c : Client) (clusterName : string)
    (last : V -> option Cluster) (start : nat) (s : V * Env) : Prop :=
  start <= reads s /\
  (forall clu, last (fst s) = Some clu ->
     latestFetched c clusterName start (reads s) clu) /\
  (last (fst s) = None ->
     forall k, start <= k < reads s ->
       forall item rest, describeCluster c clusterName k <> Items (item :: rest)) /\
  (forall item rest,
      start < reads s ->
      describeCluster c clusterName (pred (reads s)) = Items (item :: rest) ->
      last (fst s) = Some item).

(** [backup] is the first item of the latest read of backups, among the
    reads numbered from [start] up to [stop] excluded, that returned a
    non-empty list. *)
Definition latestFetchedBackup (c : Client) (clusterName : string) (start stop : nat)
    (backup : Backup) : Prop :=
  exists k rest,
    start <= k < stop /\
    listBackupsWithCluster c clusterName k = Items (backup :: rest) /\
    forall k', k < k' < stop ->
      forall item rest', listBackupsWithCluster c clusterName k' <> Items (item :: rest').

(** What the pointer [bp] of a backup wait holds: the zero backup as long as
    no read since [start] returned items, the first item of the latest such
    read afterwards; it is never nil. *)
Definition backup_ok (c : Client) (clusterName : string) (start : nat)
    (s : option Backup * Env) : Prop :=
  start <= reads s /\
  exists backup,
    fst s = Some backup /\
    ((backup = emptyBackup /\
      forall k, start <= k < reads s ->
        forall item rest, listBackupsWithCluster c clusterName k <> Items (item :: rest)) \/
     latestFetchedBackup c clusterName start (reads s) backup).

(** ** Concrete errors, snapshots and clients *)

(** A read error that no retry cures. *)
Definition forbidden : error_value :=
  StatusError StatusReasonForbidden "forbidden".

(** The error of a read that finds no object. *)
Definition notFound : error_value := StatusError StatusReasonNotFound "not found".

(** A transient server-side error. *)
Definition internalError : error_value :=
  StatusError StatusReasonInternalError "internal error".

(** A cluster being installed, with one add-on. *)
Definition installing : Cluster :=
  mkCluster "c1" ["metrics"] (mkClusterStatus ClusterInstalling []).

(** A running cluster without add-ons. *)
Definition running : Cluster :=
  mkCluster "c1" [] (mkClusterStatus ClusterRunning []).

(** A cluster whose restore failed. *)
Definition restoreFailed : Cluster :=
  mkCluster "c1" [] (mkClusterStatus ClusterRestoreFailed []).

(** A snapshot with two entries named "kubernetes", the unhealthy one first. *)
Definition twoKubernetesEntries : Cluster :=
  mkCluster "c1" []
    (mkClusterStatus ClusterRunning
       [mkComponentCondition "kubernetes" (ComponentStatusOther "Unhealthy");
        mkComponentCondition "kubernetes" ComponentHealthy]).

(** A client whose every read returns the one cluster [clu]. *)
Definition alwaysCluster (clu : Cluster) : Client :=
  mkClient (fun _ _ => Items [clu]) (fun _ _ => Items []).

(** A client that never finds anything and never fails. *)
Definition noCluster : Client :=
  mkClient (fun _ _ => Items []) (fun _ _ => Items []).

(** A client whose every read fails with not-found. *)
Definition neverFound : Client :=
  mkClient (fun _ _ => Failed notFound) (fun _ _ => Failed notFound).

(** A client whose every read fails with an internal error. *)
Definition alwaysInternalError : Client :=
  mkClient (fun _ _ => Failed internalError) (fun _ _ => Failed internalError).

(** The first read fails with an internal error, the later ones with
    not-found. *)
Definition internalThenGone : Client :=
  mkClient
    (fun _ k => match k with
                | O => Failed internalError
                | S _ => Failed notFound
                end)
    (fun _ _ => Items []).

(** The first two reads return a cluster with an add-on, the later ones
    the cluster without it. *)
Definition uninstalling : Client :=
  mkClient
    (fun _ k => match k with
                | 0 | 1 => Items [installing]
                | _ => Items [running]
                end)
    (fun _ _ => Items []).

(** A predicate that is done and reports an error of its last observation. *)
Definition doneWithError : clusterCondition :=
  fun _ => (true, Some (errorString "observation failed")).

(** * Properties *)

(** ** Error taxonomy *)

Lemma IsTimeout_iff (e : error_value) :
  IsTimeout (Some e) = true <->
  e = ErrWaitTimeout \/ exists msg objs, e = timeoutError msg objs.
Proof.
  split.
  - destruct e; simpl; intros H; try discriminate H.
    + now left.
    + right. now exists msg, observedObjects.
  - intros [-> | (msg & objs & ->)]; reflexivity.
Qed.

(** C9. For every message and every list of observed objects, the error
    built by [TimeoutError] is recognised by [IsTimeout] and its [Error()]
    is exactly the message; the library sentinel [wait.ErrWaitTimeout] is
    recognised too.  The recognition goes by the dynamic type of the error
    and not by its text: whatever the message, a value of another type is
    not a timeout. *)
Theorem TimeoutError_is_timeout :
  forall (msg : string) (observedObjects : list observed),
    IsTimeout (TimeoutError msg observedObjects) = true /\
    (exists e, TimeoutError msg observedObjects = Some e /\ Error e = msg) /\
    IsTimeout (Some ErrWaitTimeout) = true /\
    IsTimeout (Some (errorString msg)) = false /\
    (forall reason, IsTimeout (Some (StatusError reason msg)) = false) /\
    (forall inner, IsTimeout (Some (wrapError msg inner)) = false) /\
    IsTimeout None = false.
Proof.
  intros msg objs. repeat split; try reflexivity.
  exists (timeoutError msg objs). split; reflexivity.
Qed.

(** ** Retry classifier *)

Lemma shouldRetry_eq (err : option error_value) :
  shouldRetry err = (IsInternalError err || IsTooManyRequests err, 0%Z).
Proof. unfold shouldRetry. now destruct (IsInternalError err || IsTooManyRequests err). Qed.

(** A retryable error is not a not-found error. *)
Lemma retryable_not_notfound (err : option error_value) :
  fst (shouldRetry err) = true -> IsNotFound err = false.
Proof.
  rewrite shouldRetry_eq. unfold IsNotFound, IsInternalError, IsTooManyRequests.
  now destruct (ReasonForError err).
Qed.

(** C5. [shouldRetry err] is (true, 0) exactly when [err] denotes an
    internal error or too many requests, and (false, 0) for every other
    error: a not-found error, a forbidden or invalid request, an error that
    is no API error, and nil.  It is a function of the error alone: it
    neither reads nor changes the state of the wait. *)
Theorem shouldRetry_classifies :
  forall err : option error_value,
    (shouldRetry err = (true, 0%Z) <->
       IsInternalError err = true \/ IsTooManyRequests err = true) /\
    (shouldRetry err = (false, 0%Z) <->
       IsInternalError err = false /\ IsTooManyRequests err = false) /\
    (IsNotFound err = true -> shouldRetry err = (false, 0%Z)) /\
    (ReasonForError err = StatusReasonForbidden -> shouldRetry err = (false, 0%Z)) /\
    (ReasonForError err = StatusReasonInvalid -> shouldRetry err = (false, 0%Z)) /\
    (ReasonForError err = StatusReasonUnknown -> shouldRetry err = (false, 0%Z)).
Proof.
  intros err. rewrite shouldRetry_eq.
  unfold IsInternalError, IsTooManyRequests, IsNotFound.
  destruct (ReasonForError err); simpl;
    repeat split; intros; try discriminate; try reflexivity; auto;
    try match goal with
      | H : _ \/ _ |- _ => destruct H; discriminate
      | H : _ /\ _ |- _ => destruct H; discriminate
      end.
Qed.

(** ** Domain predicates *)

(** C8. The backup-available predicate answers (true, nil) on status
    Available, (false, a non-nil error) on status Error, and (false, nil)
    on every other status. *)
Theorem backupAvailable_spec :
  forall backup : Backup,
    (ClusterBackupStatus (backupStatus backup) = ClusterBackupAvailable ->
       backupAvailable backup = (true, None)) /\
    (ClusterBackupStatus (backupStatus backup) = ClusterBackupError ->
       exists e, backupAvailable backup = (false, Some e) /\
                 Error e = "backup " ++ backupName_ backup ++ " create failed") /\
    (ClusterBackupStatus (backupStatus backup) <> ClusterBackupAvailable ->
     ClusterBackupStatus (backupStatus backup) <> ClusterBackupError ->
       backupAvailable backup = (false, None)).
Proof.
  intros backup. unfold backupAvailable.
  destruct (ClusterBackupStatus (backupStatus backup)); repeat split;
    intros; try discriminate; try congruence.
  eexists. split; reflexivity.
Qed.

Lemma healthyLoop_no_error (conds : list ComponentCondition) :
  snd (healthyLoop conds) = None.
Proof.
  induction conds as [|item rest IH]; simpl; [reflexivity|].
  now destruct (String.eqb (condName item) "kubernetes").
Qed.

Lemma healthyLoop_absent (conds : list ComponentCondition) :
  (forall item, In item conds -> condName item <> "kubernetes") ->
  healthyLoop conds = (false, None).
Proof.
  induction conds as [|item rest IH]; simpl; intros H; [reflexivity|].
  destruct (String.eqb_spec (condName item) "kubernetes") as [E|_].
  - exfalso. apply (H item); auto.
  - apply IH. intros x Hx. apply H. now right.
Qed.

Lemma healthyLoop_first (pre post : list ComponentCondition) (item : ComponentCondition) :
  (forall x, In x pre -> condName x <> "kubernetes") ->
  condName item = "kubernetes" ->
  healthyLoop (pre ++ item :: post)%list =
    (match condStatus item with ComponentHealthy => true | _ => false end, None).
Proof.
  intros Hpre Hname.
  induction pre as [|x pre IH]; simpl.
  - rewrite Hname. reflexivity.
  - destruct (String.eqb_spec (condName x) "kubernetes") as [E|_].
    + exfalso. apply (Hpre x); simpl; auto.
    + apply IH. intros y Hy. apply Hpre. now right.
Qed.

Lemma healthyLoop_true_inv (conds : list ComponentCondition) :
  fst (healthyLoop conds) = true ->
  exists pre item post,
    conds = (pre ++ item :: post)%list /\
    (forall x, In x pre -> condName x <> "kubernetes") /\
    condName item = "kubernetes" /\ condStatus item = ComponentHealthy.
Proof.
  induction conds as [|x rest IH]; simpl; intros H; [discriminate H|].
  destruct (String.eqb_spec (condName x) "kubernetes") as [E|NE].
  - exists [], x, rest. split; [reflexivity|]. split; [intros y []|].
    split; [exact E|]. simpl in H. now destruct (condStatus x).
  - destruct (IH H) as (pre & item & post & -> & Hpre & Hn & Hs).
    exists (x :: pre), item, post. split; [reflexivity|].
    split; [|split; assumption].
    intros y [<- | Hy]; auto.
Qed.

(** ** Fetch-error handler *)

(** C4, as stated, fails: on a terminal error the handler returns
    (false, err), not (true, err). *)
Lemma handleWaitingAPIError_terminal_is_not_done :
  fst (handleWaitingAPIError (Some forbidden) true "getting cluster c1" initEnv)
    = (false, Some forbidden) /\
  fst (handleWaitingAPIError (Some forbidden) true "getting cluster c1" initEnv)
    <> (true, Some forbidden).
Proof. split; [reflexivity | discriminate]. Qed.

(** Any error from the condition aborts the poll at that check. *)
Lemma PollImmediate_error {St : Type} (timeout : nat) (condition : ConditionFunc St)
    (s s' : St) (done : bool) (e : error_value) :
  condition s = ((done, Some e), s') ->
  PollImmediate timeout condition s = (Some e, s').
Proof. intros H. unfold PollImmediate, bind. rewrite H. reflexivity. Qed.

(** C4, amended. With [retryNotFound] set, a not-found error gives
    (false, nil); a retryable error is logged, the delay the classifier
    indicates is slept, and the result is (false, nil); for every other
    error the result is (false, err): [done] is false, and it is the
    non-nil error that makes the enclosing poll stop at once with that
    error. *)
Theorem handleWaitingAPIError_spec :
  forall (err : option error_value) (retryNotFound : bool)
         (taskDescription : string) (env : Env),
    (retryNotFound = true -> IsNotFound err = true ->
       handleWaitingAPIError err retryNotFound taskDescription env =
         ((false, None),
          mkEnv (apiCalls env) (logs env ++ [LogIgnoringNotFound taskDescription])
            (slept env))) /\
    (fst (shouldRetry err) = true ->
       handleWaitingAPIError err retryNotFound taskDescription env =
         ((false, None),
          mkEnv (apiCalls env)
            (logs env ++ [LogRetryable taskDescription (snd (shouldRetry err)) err])
            (slept env + snd (shouldRetry err)))) /\
    (retryNotFound && IsNotFound err = false -> fst (shouldRetry err) = false ->
       handleWaitingAPIError err retryNotFound taskDescription env =
         ((false, err),
          mkEnv (apiCalls env) (logs env ++ [LogNonRetryable taskDescription err])
            (slept env)) /\
       forall (V : Type) (v : V) (timeout : nat) (e : error_value),
         err = Some e ->
         PollImmediate timeout
           (onEnv (handleWaitingAPIError err retryNotFound taskDescription)) (v, env) =
           (Some e,
            (v, mkEnv (apiCalls env)
                  (logs env ++ [LogNonRetryable taskDescription err]) (slept env)))).
Proof.
  intros err rnf task env. split; [|split].
  - intros -> Hnf. unfold handleWaitingAPIError. rewrite Hnf. reflexivity.
  - intros Hretry. unfold handleWaitingAPIError.
    rewrite (retryable_not_notfound err Hretry), andb_false_r.
    rewrite shouldRetry_eq in *. simpl in *. rewrite Hretry.
    unfold bind, Logf, ret. simpl. now rewrite Z.add_0_r.
  - intros Hnf Hretry.
    assert (H : handleWaitingAPIError err rnf task env =
                ((false, err),
                 mkEnv (apiCalls env) (logs env ++ [LogNonRetryable task err])%list
                   (slept env))).
    { unfold handleWaitingAPIError. rewrite Hnf.
      rewrite shouldRetry_eq in *. simpl in *. rewrite Hretry. reflexivity. }
    split; [exact H|].
    intros V v timeout e ->.
    apply PollImmediate_error with (done := false).
    unfold onEnv. simpl. rewrite H. reflexivity.
Qed.

(** The three branches of the handler at concrete errors. *)
Lemma handleWaitingAPIError_spec_at_forbidden :
  handleWaitingAPIError (Some forbidden) true "getting cluster c1" initEnv =
    ((false, Some forbidden),
     mkEnv 0 [LogNonRetryable "getting cluster c1" (Some forbidden)] 0) /\
  PollImmediate 3
    (onEnv (handleWaitingAPIError (Some forbidden) true "getting cluster c1"))
    (tt, initEnv) =
    (Some forbidden,
     (tt, mkEnv 0 [LogNonRetryable "getting cluster c1" (Some forbidden)] 0)).
Proof.
  destruct (handleWaitingAPIError_spec (Some forbidden) true "getting cluster c1" initEnv)
    as (_ & _ & H).
  destruct (H eq_refl eq_refl) as [H1 H2].
  split; [exact H1|]. exact (H2 unit tt 3 forbidden eq_refl).
Defined.

(** ** The poll loop *)

Section PollRuns.
Context {St : Type}.
Variable condition : ConditionFunc St.

Lemma runs_front (s s1 s2 : St) (j : nat) :
  condition s = ((false, None), s1) -> runs condition s1 j s2 -> runs condition s (S j) s2.
Proof.
  intros H R. induction R as [|j a b R IH Hc].
  - apply runs_S with (s1 := s); [constructor | exact H].
  - apply runs_S with (s1 := a); assumption.
Qed.

Lemma PollImmediate_poll (timeout : nat) (s : St) :
  PollImmediate timeout condition s = poll (S timeout) condition s.
Proof. reflexivity. Qed.

Lemma poll_step (n : nat) (s : St) :
  poll (S n) condition s =
    let (r, s1) := condition s in
    match snd r with
    | Some e => (Some e, s1)
    | None => if fst r then (None, s1) else poll n condition s1
    end.
Proof.
  simpl. unfold bind. destruct (condition s) as [[d [e|]] s1]; simpl;
    [reflexivity|]. now destruct d.
Qed.

Lemma runs_front_inv (s s2 : St) (j : nat) :
  runs condition s (S j) s2 ->
  exists s1, condition s = ((false, None), s1) /\ runs condition s1 j s2.
Proof.
  revert s2. induction j as [|j IH]; intros s2 R.
  - inversion R as [|j' a b R' Hc]; subst.
    inversion R'; subst. exists s2. split; [exact Hc | constructor].
  - inversion R as [|j' a b R' Hc]; subst.
    destruct (IH a R') as (s1 & H1 & R1).
    exists s1. split; [exact H1|]. now apply runs_S with (s1 := a).
Qed.

(** How a poll ends: the deadline passes after [n] checks that all said
    to go on, or an earlier check said to stop, by done=true or by an
    error, and its error (nil or not) is the result. *)
Lemma poll_cases (n : nat) (s : St) :
  (exists s1, runs condition s n s1 /\ poll n condition s = (Some ErrWaitTimeout, s1)) \/
  (exists j s1 done err s2,
      j < n /\ runs condition s j s1 /\ condition s1 = ((done, err), s2) /\
      (done = true \/ err <> None) /\
      poll n condition s = (err, s2)).
Proof.
  revert s. induction n as [|n IH]; intros s.
  - left. exists s. split; [constructor | reflexivity].
  - rewrite poll_step.
    destruct (condition s) as [[d err] s1] eqn:Hc. simpl.
    destruct err as [e|].
    + right. exists 0, s, d, (Some e), s1.
      split; [lia|]. split; [constructor|]. split; [exact Hc|].
      split; [right; discriminate | reflexivity].
    + destruct d.
      * right. exists 0, s, true, None, s1.
        split; [lia|]. split; [constructor|]. split; [exact Hc|].
        split; [now left | reflexivity].
      * destruct (IH s1) as [(s2 & R & E) | (j & a & d & err & b & Hj & R & Hc' & Hstop & E)].
        -- left. exists s2. split; [|exact E]. now apply runs_front with (s1 := s1).
        -- right. exists (S j), a, d, err, b.
           split; [lia|]. split; [now apply runs_front with (s1 := s1)|].
           split; [exact Hc'|]. split; [exact Hstop | exact E].
Qed.

(** A property kept by every check that says to go on holds all along. *)
Lemma runs_invariant (P : St -> Prop) :
  (forall s s', P s -> condition s = ((false, None), s') -> P s') ->
  forall s j s', P s -> runs condition s j s' -> P s'.
Proof.
  intros Hstep s j s' Hs R. induction R as [|j a b R IH Hc]; [exact Hs|].
  exact (Hstep a b IH Hc).
Qed.

(** The loop stops at the first check that says so. *)
Lemma poll_stops (n j : nat) (s s1 s2 : St) (done : bool) (err : option error_value) :
  j < n -> runs condition s j s1 -> condition s1 = ((done, err), s2) ->
  done = true \/ err <> None ->
  poll n condition s = (err, s2).
Proof.
  intros Hj R Hc Hstop. revert n s Hj R.
  induction j as [|j IH]; intros n s Hj R.
  - inversion R; subst.
    destruct n as [|n]; [lia|]. rewrite poll_step, Hc. simpl.
    destruct err as [e|]; [reflexivity|].
    destruct Hstop as [-> | H]; [reflexivity | congruence].
  - destruct n as [|n]; [lia|].
    destruct (runs_front_inv _ _ _ R) as (a & Ha & Ra).
    rewrite poll_step, Ha. simpl. apply IH; [lia | exact Ra].
Qed.

(** When every check says to go on, the deadline ends the loop. *)
Lemma poll_times_out (n : nat) (s s1 : St) :
  runs condition s n s1 -> poll n condition s = (Some ErrWaitTimeout, s1).
Proof.
  revert s. induction n as [|n IH]; intros s R.
  - inversion R; subst. reflexivity.
  - destruct (runs_front_inv _ _ _ R) as (a & Ha & Ra).
    rewrite poll_step, Ha. simpl. now apply IH.
Qed.

(** A property kept by every check holds when the poll returns. *)
Lemma poll_invariant (P : St -> Prop) :
  (forall s, P s -> P (snd (condition s))) ->
  forall n s, P s -> P (snd (poll n condition s)).
Proof.
  intros Hstep n. induction n as [|n IH]; intros s Hs; [exact Hs|].
  rewrite poll_step. specialize (Hstep s Hs).
  destruct (condition s) as [[d [e|]] s1]; simpl in *; [exact Hstep|].
  destruct d; [exact Hstep | now apply IH].
Qed.
End PollRuns.

Section PollReads.
Context {V : Type}.
Variable condition : ConditionFunc (V * Env).
Hypothesis one_read : forall s, reads (snd (condition s)) = S (reads s).

Lemma runs_reads (s s1 : V * Env) (j : nat) :
  runs condition s j s1 -> reads s1 = reads s + j.
Proof.
  intros R. induction R as [|j a b R IH Hc]; [lia|].
  pose proof (one_read a) as H. rewrite Hc in H. simpl in H. lia.
Qed.

(** Every read made during a run belongs to a check that said to go on. *)
Lemma runs_checks (s s1 : V * Env) (j : nat) :
  runs condition s j s1 ->
  forall k, reads s <= k < reads s1 ->
    exists a b, reads a = k /\ condition a = ((false, None), b).
Proof.
  intros R. induction R as [|j a b R IH Hc]; intros k Hk; [lia|].
  pose proof (runs_reads _ _ _ R) as Ha.
  pose proof (one_read a) as Hb. rewrite Hc in Hb. simpl in Hb.
  destruct (Nat.eq_dec k (reads a)) as [->|Hne].
  - now exists a, b.
  - apply IH. lia.
Qed.

(** When each of the next [n] checks says to go on, they all run. *)
Lemma runs_total (n : nat) (s : V * Env) :
  (forall a, reads s <= reads a < reads s + n -> fst (condition a) = (false, None)) ->
  exists s1, runs condition s n s1.
Proof.
  induction n as [|n IH]; intros H.
  - exists s. constructor.
  - destruct IH as (s1 & R); [intros a Ha; apply H; lia|].
    pose proof (runs_reads _ _ _ R) as Hr.
    specialize (H s1 ltac:(lia)).
    destruct (condition s1) as [r s2] eqn:Hc. simpl in H. subst r.
    exists s2. now apply runs_S with (s1 := s1).
Qed.
End PollReads.

(** ** One check of each closure *)

Lemma handleWaitingAPIError_answer (err : option error_value) (task : string) (env : Env) :
  fst (handleWaitingAPIError err true task env) = handlerAnswer err.
Proof.
  unfold handleWaitingAPIError, handlerAnswer. simpl.
  destruct (IsNotFound err); [reflexivity|].
  rewrite shouldRetry_eq. simpl.
  destruct (IsInternalError err || IsTooManyRequests err); reflexivity.
Qed.

Lemma handleWaitingAPIError_reads (err : option error_value) (rnf : bool)
    (task : string) (env : Env) :
  apiCalls (snd (handleWaitingAPIError err rnf task env)) = apiCalls env.
Proof.
  unfold handleWaitingAPIError.
  destruct (rnf && IsNotFound err); [reflexivity|].
  rewrite shouldRetry_eq.
  destruct (IsInternalError err || IsTooManyRequests err); reflexivity.
Qed.

(** Name what the handler returns in the goal, with what is known of it:
    its answer and the reads it leaves untouched. *)
Ltac name_handler_result :=
  match goal with
  | |- context [handleWaitingAPIError ?err true ?task ?env1] =>
      pose proof (handleWaitingAPIError_answer err task env1) as Ha;
      pose proof (handleWaitingAPIError_reads err true task env1) as Hr;
      destruct (handleWaitingAPIError err true task env1) as [a e']
  end.

Lemma handlerAnswer_stops (err : option error_value) (done : bool)
    (res : option error_value) :
  handlerAnswer err = (done, res) -> done = true \/ res <> None ->
  exists e, err = Some e /\ terminal e /\ done = false /\ res = Some e.
Proof.
  unfold handlerAnswer, terminal. intros H Hstop.
  destruct (IsNotFound err) eqn:Hnf; simpl in H.
  - injection H as <- <-. destruct Hstop; congruence.
  - destruct (fst (shouldRetry err)) eqn:Hr; injection H as <- <-.
    + destruct Hstop; congruence.
    + destruct err as [e|]; [|destruct Hstop; congruence].
      exists e. auto.
Qed.

Lemma handlerAnswer_terminal (e : error_value) :
  terminal e -> handlerAnswer (Some e) = (false, Some e).
Proof. intros [H1 H2]. unfold handlerAnswer. now rewrite H1, H2. Qed.

Lemma handlerAnswer_nil : handlerAnswer None = (false, None).
Proof. reflexivity. Qed.

Section Checks.
Variable c : Client.
Variables clusterName backupName conditionDesc : string.

Lemma clusterConditionFunc_fetched (condition : clusterCondition)
    (v : ClusterVars) (env : Env) (item : Cluster) (rest : list Cluster) :
  describeCluster c clusterName (apiCalls env) = Items (item :: rest) ->
  clusterConditionFunc c clusterName conditionDesc condition (v, env) =
    ((if fst (condition item) then (true, snd (condition item)) else (false, None)),
     (mkClusterVars None (Some item),
      mkEnv (S (apiCalls env))
        (logs env ++ [LogClusterPhase clusterName (Phase (Status item))]
           ++ clusterConditionLines clusterName conditionDesc (condition item))%list
        (slept env))).
Proof.
  intros H. unfold clusterConditionFunc, bind, onEnv, DescribeCluster. simpl.
  rewrite H. simpl.
  destruct (condition item) as [[|] [e|]]; simpl; rewrite <- ?app_assoc; reflexivity.
Qed.

Lemma clusterConditionFunc_not_fetched (condition : clusterCondition)
    (v : ClusterVars) (env : Env) :
  (forall item rest,
      describeCluster c clusterName (apiCalls env) <> Items (item :: rest)) ->
  let r := describeCluster c clusterName (apiCalls env) in
  let out := clusterConditionFunc c clusterName conditionDesc condition (v, env) in
  fst out = handlerAnswer (errOf r) /\
  fst (snd out) = mkClusterVars (errOf r) (lastCluster v) /\
  reads (snd out) = S (apiCalls env).
Proof.
  intros H r out. subst r out.
  unfold clusterConditionFunc, bind, onEnv, DescribeCluster, getVars, setVars, reads.
  cbn [fst snd].
  destruct (describeCluster c clusterName (apiCalls env)) as [[|item rest]|e] eqn:Hd;
    [ | exfalso; exact (H item rest eq_refl) | ];
    cbn [errOf fst snd lastCluster];
    name_handler_result; cbn [fst snd apiCalls] in *; auto.
Qed.

Lemma clusterConditionFunc_one_read (condition : clusterCondition)
    (s : ClusterVars * Env) :
  reads (snd (clusterConditionFunc c clusterName conditionDesc condition s)) = S (reads s).
Proof.
  destruct s as [v env].
  destruct (describeCluster c clusterName (apiCalls env)) as [[|item rest]|e] eqn:Hd.
  - apply clusterConditionFunc_not_fetched. rewrite Hd. discriminate.
  - rewrite (clusterConditionFunc_fetched condition v env item rest Hd). reflexivity.
  - apply clusterConditionFunc_not_fetched. rewrite Hd. discriminate.
Qed.


Lemma backupConditionFunc_fetched (condition : backupCondition)
    (bp : option Backup) (env : Env) (item : Backup) (rest : list Backup) :
  listBackupsWithCluster c clusterName (apiCalls env) = Items (item :: rest) ->
  backupConditionFunc c clusterName backupName conditionDesc condition (bp, env) =
    ((if fst (condition item) then (true, snd (condition item)) else (false, None)),
     (Some item,
      mkEnv (S (apiCalls env))
        (logs env
           ++ [LogBackupPhase backupName (ClusterBackupStatus (backupStatus item))]
           ++ backupConditionLines backupName conditionDesc (condition item))%list
        (slept env))).
Proof.
  intros H. unfold backupConditionFunc, bind, onEnv, ListBackupsWithCluster. simpl.
  rewrite H. simpl.
  destruct (condition item) as [[|] [e|]]; simpl; rewrite <- ?app_assoc; reflexivity.
Qed.

Lemma backupConditionFunc_not_fetched (condition : backupCondition)
    (bp : option Backup) (env : Env) :
  (forall item rest,
      listBackupsWithCluster c clusterName (apiCalls env) <> Items (item :: rest)) ->
  let r := listBackupsWithCluster c clusterName (apiCalls env) in
  let out := backupConditionFunc c clusterName backupName conditionDesc condition (bp, env) in
  fst out = handlerAnswer (errOf r) /\
  fst (snd out) = bp /\
  reads (snd out) = S (apiCalls env).
Proof.
  intros H r out. subst r out.
  unfold backupConditionFunc, bind, onEnv, ListBackupsWithCluster, reads.
  cbn [fst snd].
  destruct (listBackupsWithCluster c clusterName (apiCalls env)) as [[|item rest]|e] eqn:Hd;
    [ | exfalso; exact (H item rest eq_refl) | ];
    cbn [errOf fst snd];
    name_handler_result; cbn [fst snd apiCalls] in *; auto.
Qed.

Lemma backupConditionFunc_one_read (condition : backupCondition)
    (s : option Backup * Env) :
  reads (snd (backupConditionFunc c clusterName backupName conditionDesc condition s))
    = S (reads s).
Proof.
  destruct s as [bp env].
  destruct (listBackupsWithCluster c clusterName (apiCalls env)) as [[|item rest]|e] eqn:Hd.
  - apply backupConditionFunc_not_fetched. rewrite Hd. discriminate.
  - rewrite (backupConditionFunc_fetched condition bp env item rest Hd). reflexivity.
  - apply backupConditionFunc_not_fetched. rewrite Hd. discriminate.
Qed.

Lemma clusterNotFoundFunc_not_found (v : option Cluster) (env : Env) :
  IsNotFound (errOf (describeCluster c clusterName (apiCalls env))) = true ->
  clusterNotFoundFunc c clusterName (v, env) =
    ((true, None), (v, mkEnv (S (apiCalls env)) (logs env) (slept env))).
Proof.
  intros H. unfold clusterNotFoundFunc, bind, onEnv, DescribeCluster.
  cbn [fst snd]. rewrite H. reflexivity.
Qed.

Lemma clusterNotFoundFunc_failed (v : option Cluster) (env : Env) (e : error_value) :
  describeCluster c clusterName (apiCalls env) = Failed e ->
  IsNotFound (Some e) = false ->
  let out := clusterNotFoundFunc c clusterName (v, env) in
  fst out = handlerAnswer (Some e) /\
  fst (snd out) = v /\
  reads (snd out) = S (apiCalls env).
Proof.
  intros Hd Hnf out. subst out.
  unfold clusterNotFoundFunc, bind, onEnv, DescribeCluster, reads.
  cbn [fst snd]. rewrite Hd. cbn [errOf]. rewrite Hnf.
  name_handler_result; cbn [fst snd apiCalls] in *; auto.
Qed.

Lemma clusterNotFoundFunc_empty (v : option Cluster) (env : Env) :
  describeCluster c clusterName (apiCalls env) = Items [] ->
  clusterNotFoundFunc c clusterName (v, env) =
    ((false, None),
     (v, mkEnv (S (apiCalls env)) (logs env ++ [LogUnexpectedEmpty]) (slept env))).
Proof.
  intros Hd. unfold clusterNotFoundFunc, bind, onEnv, DescribeCluster.
  cbn [fst snd]. rewrite Hd. reflexivity.
Qed.

Lemma clusterNotFoundFunc_fetched (v : option Cluster) (env : Env)
    (item : Cluster) (rest : list Cluster) :
  describeCluster c clusterName (apiCalls env) = Items (item :: rest) ->
  clusterNotFoundFunc c clusterName (v, env) =
    ((false, None),
     (Some item, mkEnv (S (apiCalls env)) (logs env) (slept env))).
Proof.
  intros Hd. unfold clusterNotFoundFunc, bind, onEnv, DescribeCluster.
  cbn [fst snd]. rewrite Hd. reflexivity.
Qed.

Lemma clusterNotFoundFunc_one_read (s : option Cluster * Env) :
  reads (snd (clusterNotFoundFunc c clusterName s)) = S (reads s).
Proof.
  destruct s as [v env].
  destruct (describeCluster c clusterName (apiCalls env)) as [[|item rest]|e] eqn:Hd.
  - now rewrite clusterNotFoundFunc_empty.
  - now rewrite (clusterNotFoundFunc_fetched v env item rest).
  - destruct (IsNotFound (Some e)) eqn:Hnf.
    + rewrite clusterNotFoundFunc_not_found; [reflexivity | now rewrite Hd].
    + now apply clusterNotFoundFunc_failed with (e := e).
Qed.

Lemma componentNotFoundFunc_failed (v : option Cluster) (env : Env) (e : error_value) :
  describeCluster c clusterName (apiCalls env) = Failed e ->
  let out := componentNotFoundFunc c clusterName (v, env) in
  fst out = handlerAnswer (Some e) /\
  fst (snd out) = v /\
  reads (snd out) = S (apiCalls env).
Proof.
  intros Hd out. subst out.
  unfold componentNotFoundFunc, bind, onEnv, DescribeCluster, reads.
  cbn [fst snd]. rewrite Hd.
  name_handler_result; cbn [fst snd apiCalls] in *; auto.
Qed.

Lemma componentNotFoundFunc_empty (v : option Cluster) (env : Env) :
  describeCluster c clusterName (apiCalls env) = Items [] ->
  componentNotFoundFunc c clusterName (v, env) =
    ((false, None),
     (v, mkEnv (S (apiCalls env)) (logs env ++ [LogUnexpectedEmpty]) (slept env))).
Proof.
  intros Hd. unfold componentNotFoundFunc, bind, onEnv, DescribeCluster.
  cbn [fst snd]. rewrite Hd. reflexivity.
Qed.

Lemma componentNotFoundFunc_fetched (v : option Cluster) (env : Env)
    (item : Cluster) (rest : list Cluster) :
  describeCluster c clusterName (apiCalls env) = Items (item :: rest) ->
  componentNotFoundFunc c clusterName (v, env) =
    ((match Addons item with [] => true | _ :: _ => false end, None),
     (Some item, mkEnv (S (apiCalls env)) (logs env) (slept env))).
Proof.
  intros Hd. unfold componentNotFoundFunc, bind, onEnv, DescribeCluster.
  cbn [fst snd]. rewrite Hd. simpl. now destruct (Addons item).
Qed.

Lemma componentNotFoundFunc_one_read (s : option Cluster * Env) :
  reads (snd (componentNotFoundFunc c clusterName s)) = S (reads s).
Proof.
  destruct s as [v env].
  destruct (describeCluster c clusterName (apiCalls env)) as [[|item rest]|e] eqn:Hd.
  - now rewrite componentNotFoundFunc_empty.
  - now rewrite (componentNotFoundFunc_fetched v env item rest).
  - now apply componentNotFoundFunc_failed with (e := e).
Qed.
End Checks.

(** ** What ends a condition wait *)

Section ConditionWaits.
Variable c : Client.
Variables clusterName backupName conditionDesc : string.
Variable ccond : clusterCondition.
Variable bcond : backupCondition.

Let cf := clusterConditionFunc c clusterName conditionDesc ccond.
Let bf := backupConditionFunc c clusterName backupName conditionDesc bcond.

(** A check of the cluster closure says to stop only for a predicate that
    is done or for a terminal read error. *)
Lemma clusterConditionFunc_stop (s s2 : ClusterVars * Env) (done : bool)
    (err : option error_value) :
  cf s = ((done, err), s2) -> done = true \/ err <> None ->
  (exists item rest,
      describeCluster c clusterName (reads s) = Items (item :: rest) /\
      fst (ccond item) = true /\ done = true /\ err = snd (ccond item)) \/
  (exists e,
      describeCluster c clusterName (reads s) = Failed e /\
      terminal e /\ done = false /\ err = Some e).
Proof.
  destruct s as [v env]. unfold reads. cbn [snd]. intros Hc Hstop.
  destruct (describeCluster c clusterName (apiCalls env)) as [[|item rest]|e] eqn:Hd.
  - destruct (clusterConditionFunc_not_fetched c clusterName conditionDesc ccond v env)
      as (Ha & _); [rewrite Hd; discriminate|].
    fold cf in Ha. rewrite Hc, Hd in Ha. simpl in Ha.
    destruct (handlerAnswer_stops None done err (eq_sym Ha) Hstop) as (e & He & _).
    discriminate He.
  - left. exists item, rest. split; [reflexivity|].
    pose proof (clusterConditionFunc_fetched c clusterName conditionDesc ccond
                  v env item rest Hd) as Hf.
    fold cf in Hf. rewrite Hc in Hf.
    destruct (fst (ccond item)); injection Hf as -> -> _; auto.
    destruct Hstop; congruence.
  - right. exists e. split; [reflexivity|].
    destruct (clusterConditionFunc_not_fetched c clusterName conditionDesc ccond v env)
      as (Ha & _); [rewrite Hd; discriminate|].
    fold cf in Ha. rewrite Hc, Hd in Ha. simpl in Ha.
    destruct (handlerAnswer_stops (Some e) done err (eq_sym Ha) Hstop)
      as (e' & He & Ht & Hd' & Hr).
    injection He as <-. auto.
Qed.

Lemma backupConditionFunc_stop (s s2 : option Backup * Env) (done : bool)
    (err : option error_value) :
  bf s = ((done, err), s2) -> done = true \/ err <> None ->
  (exists item rest,
      listBackupsWithCluster c clusterName (reads s) = Items (item :: rest) /\
      fst (bcond item) = true /\ done = true /\ err = snd (bcond item)) \/
  (exists e,
      listBackupsWithCluster c clusterName (reads s) = Failed e /\
      terminal e /\ done = false /\ err = Some e).
Proof.
  destruct s as [v env]. unfold reads. cbn [snd]. intros Hc Hstop.
  destruct (listBackupsWithCluster c clusterName (apiCalls env)) as [[|item rest]|e] eqn:Hd.
  - destruct (backupConditionFunc_not_fetched c clusterName backupName conditionDesc
                bcond v env) as (Ha & _); [rewrite Hd; discriminate|].
    fold bf in Ha. rewrite Hc, Hd in Ha. simpl in Ha.
    destruct (handlerAnswer_stops None done err (eq_sym Ha) Hstop) as (e & He & _).
    discriminate He.
  - left. exists item, rest. split; [reflexivity|].
    pose proof (backupConditionFunc_fetched c clusterName backupName conditionDesc
                  bcond v env item rest Hd) as Hf.
    fold bf in Hf. rewrite Hc in Hf.
    destruct (fst (bcond item)); injection Hf as -> -> _; auto.
    destruct Hstop; congruence.
  - right. exists e. split; [reflexivity|].
    destruct (backupConditionFunc_not_fetched c clusterName backupName conditionDesc
                bcond v env) as (Ha & _); [rewrite Hd; discriminate|].
    fold bf in Ha. rewrite Hc, Hd in Ha. simpl in Ha.
    destruct (handlerAnswer_stops (Some e) done err (eq_sym Ha) Hstop)
      as (e' & He & Ht & Hd' & Hr).
    injection He as <-. auto.
Qed.

(** A stopping check is the last one: its read is the last read. *)
Lemma last_read {V : Type} (f : ConditionFunc (V * Env)) (s1 s2 : V * Env)
    (r : bool * option error_value) :
  (forall s, reads (snd (f s)) = S (reads s)) ->
  f s1 = (r, s2) -> reads s1 = pred (reads s2).
Proof. intros H Hc. specialize (H s1). rewrite Hc in H. simpl in H. lia. Qed.
End ConditionWaits.

(** ** The cluster-condition wait as a whole *)

Lemma WaitForClusterCondition_unfold (c : Client) (clusterName conditionDesc : string)
    (timeout : nat) (condition : clusterCondition) (env env' : Env)
    (err : option error_value) (v : ClusterVars) :
  PollImmediate timeout (clusterConditionFunc c clusterName conditionDesc condition)
    (clusterWaitStart clusterName conditionDesc timeout env) = (err, (v, env')) ->
  WaitForClusterCondition c clusterName conditionDesc timeout condition env =
    (match err with
     | None => None
     | Some _ =>
         match IsTimeout err, lastCluster v with
         | true, Some clu =>
             Some (timeoutError
               ("timed out while waiting for cluster " ++ clusterName
                  ++ " to be " ++ conditionDesc)
               [ObservedCluster clu])
         | _, _ =>
             maybeTimeoutError
               (match lastClusterError v with Some e => Some e | None => err end)
               ("waiting for cluster " ++ clusterName ++ " to be " ++ conditionDesc)
         end
     end, env').
Proof.
  intros H. unfold WaitForClusterCondition, bind, withVars, Logf.
  unfold clusterWaitStart in H. cbn [apiCalls logs slept]. rewrite H.
  cbn [fst snd]. destruct err as [e|]; [|reflexivity].
  destruct (IsTimeout (Some e)), (lastCluster v); reflexivity.
Qed.

(** C2, as stated, fails: the loop exits at the first check because the
    predicate is done, and the wait does not return nil: the error of the
    predicate comes back wrapped. *)
Lemma WaitForClusterCondition_done_with_error :
  fst (clusterConditionFunc (alwaysCluster installing) "c1" "ready" doneWithError
         (clusterWaitStart "c1" "ready" 2 initEnv))
    = (true, Some (errorString "observation failed")) /\
  fst (WaitForClusterCondition (alwaysCluster installing) "c1" "ready" 2 doneWithError
         initEnv)
    = Some (wrapError "error while waiting for cluster c1 to be ready: observation failed"
              (errorString "observation failed")) /\
  fst (WaitForClusterCondition (alwaysCluster installing) "c1" "ready" 2 doneWithError
         initEnv) <> None /\
  apiCalls (snd (WaitForClusterCondition (alwaysCluster installing) "c1" "ready" 2
                   doneWithError initEnv)) = 1.
Proof. repeat split; try reflexivity. discriminate. Qed.

(** ** The retained snapshot *)

Lemma latestFetched_unique (c : Client) (clusterName : string) (start stop : nat)
    (clu clu' : Cluster) :
  latestFetched c clusterName start stop clu ->
  latestFetched c clusterName start stop clu' -> clu = clu'.
Proof.
  intros (k & rest & Hk & Hd & Hlater) (k' & rest' & Hk' & Hd' & Hlater').
  destruct (Nat.lt_trichotomy k k') as [Hlt | [-> | Hgt]].
  - exfalso. apply (Hlater k' ltac:(lia) clu' rest'). exact Hd'.
  - rewrite Hd in Hd'. now injection Hd' as -> _.
  - exfalso. apply (Hlater' k ltac:(lia) clu rest). exact Hd.
Qed.

Section Snapshot.
Context {V : Type}.
Variable c : Client.
Variable clusterName : string.
Variable f : ConditionFunc (V * Env).
Variable last : V -> option Cluster.
Variable start : nat.

Hypothesis one_read : forall s, reads (snd (f s)) = S (reads s).
Hypothesis keeps_fetched :
  forall v env item rest,
    describeCluster c clusterName (apiCalls env) = Items (item :: rest) ->
    last (fst (snd (f (v, env)))) = Some item.
Hypothesis keeps_previous :
  forall v env,
    (forall item rest,
        describeCluster c clusterName (apiCalls env) <> Items (item :: rest)) ->
    last (fst (snd (f (v, env)))) = last v.

Lemma snapshot_ok_step (s : V * Env) : snapshot_ok c clusterName last start s -> snapshot_ok c clusterName last start (snd (f s)).
Proof.
  destruct s as [v env]. intros (H0 & H1 & H2 & H3).
  pose proof (one_read (v, env)) as Hr.
  unfold snapshot_ok. rewrite Hr. unfold reads in *. cbn [fst snd] in *.
  destruct (describeCluster c clusterName (apiCalls env)) as [[|item rest]|e] eqn:Hd.
  - assert (Hk : last (fst (snd (f (v, env)))) = last v)
      by (apply keeps_previous; rewrite Hd; discriminate).
    rewrite Hk. split; [lia|]. split; [|split].
    + intros clu Hc. destruct (H1 clu Hc) as (k & rest & Hk1 & Hk2 & Hk3).
      exists k, rest. split; [lia|]. split; [exact Hk2|].
      intros k' Hk' item' rest'.
      destruct (Nat.eq_dec k' (apiCalls env)) as [->|Hne];
        [rewrite Hd; discriminate | apply Hk3; lia].
    + intros Hn k Hk1 item rest.
      destruct (Nat.eq_dec k (apiCalls env)) as [->|Hne];
        [rewrite Hd; discriminate | apply H2; [exact Hn | lia]].
    + intros item rest _ Hp. simpl in Hp. rewrite Hd in Hp. discriminate.
  - assert (Hk : last (fst (snd (f (v, env)))) = Some item)
      by (now apply keeps_fetched with (rest := rest)).
    rewrite Hk. split; [lia|]. split; [|split].
    + intros clu [= <-]. exists (apiCalls env), rest.
      split; [lia|]. split; [exact Hd|]. intros k' Hk'. lia.
    + discriminate.
    + intros item' rest' _ Hp. simpl in Hp. rewrite Hd in Hp. now injection Hp as -> _.
  - assert (Hk : last (fst (snd (f (v, env)))) = last v)
      by (apply keeps_previous; rewrite Hd; discriminate).
    rewrite Hk. split; [lia|]. split; [|split].
    + intros clu Hc. destruct (H1 clu Hc) as (k & rest & Hk1 & Hk2 & Hk3).
      exists k, rest. split; [lia|]. split; [exact Hk2|].
      intros k' Hk' item' rest'.
      destruct (Nat.eq_dec k' (apiCalls env)) as [->|Hne];
        [rewrite Hd; discriminate | apply Hk3; lia].
    + intros Hn k Hk1 item rest.
      destruct (Nat.eq_dec k (apiCalls env)) as [->|Hne];
        [rewrite Hd; discriminate | apply H2; [exact Hn | lia]].
    + intros item rest _ Hp. simpl in Hp. rewrite Hd in Hp. discriminate.
Qed.

Lemma snapshot_ok_start (s : V * Env) :
  reads s = start -> last (fst s) = None -> snapshot_ok c clusterName last start s.
Proof.
  intros Hr Hl. unfold snapshot_ok. rewrite Hr, Hl.
  split; [lia|]. split; [discriminate|]. split; intros; lia.
Qed.

Lemma snapshot_ok_poll (n : nat) (s : V * Env) :
  reads s = start -> last (fst s) = None -> snapshot_ok c clusterName last start (snd (poll n f s)).
Proof.
  intros Hr Hl. apply poll_invariant; [exact snapshot_ok_step|].
  now apply snapshot_ok_start.
Qed.
End Snapshot.

Section PollLast.
Context {St : Type}.
Variable condition : ConditionFunc St.

(** A poll that could check at least once returns in the state its last
    check left; that check said to go on exactly when the deadline ended
    the poll. *)
Lemma poll_last (n : nat) (s : St) :
  exists a done err,
    condition a = ((done, err), snd (poll (S n) condition s)) /\
    ((done = false /\ err = None /\
      fst (poll (S n) condition s) = Some ErrWaitTimeout) \/
     ((done = true \/ err <> None) /\ fst (poll (S n) condition s) = err)).
Proof.
  destruct (poll_cases condition (S n) s)
    as [(s1 & R & E) | (j & s1 & d & err & s2 & Hj & R & Hc & Hstop & E)];
    rewrite E; cbn [fst snd].
  - inversion R as [|j a b R' Hc]; subst.
    exists a, false, None. split; [exact Hc|]. left. auto.
  - exists s1, d, err. split; [exact Hc|]. right. auto.
Qed.
End PollLast.

Section ClusterConditionWait.
Variable c : Client.
Variables clusterName conditionDesc : string.
Variable condition : clusterCondition.

Let cf := clusterConditionFunc c clusterName conditionDesc condition.

Lemma cf_keeps_fetched (v : ClusterVars) (env : Env) (item : Cluster)
    (rest : list Cluster) :
  describeCluster c clusterName (apiCalls env) = Items (item :: rest) ->
  lastCluster (fst (snd (cf (v, env)))) = Some item.
Proof.
  intros Hd. unfold cf.
  now rewrite (clusterConditionFunc_fetched _ _ _ _ _ _ item rest Hd).
Qed.

Lemma cf_keeps_previous (v : ClusterVars) (env : Env) :
  (forall item rest,
      describeCluster c clusterName (apiCalls env) <> Items (item :: rest)) ->
  lastCluster (fst (snd (cf (v, env)))) = lastCluster v.
Proof.
  intros H.
  destruct (clusterConditionFunc_not_fetched c clusterName conditionDesc condition
              v env H) as (_ & Hv & _).
  fold cf in Hv. now rewrite Hv.
Qed.

(** After a check, [lastClusterError] is the error of its read. *)
Lemma cf_last_error (s : ClusterVars * Env) :
  lastClusterError (fst (snd (cf s))) =
    errOf (describeCluster c clusterName (reads s)).
Proof.
  destruct s as [v env]. unfold reads. cbn [snd].
  destruct (describeCluster c clusterName (apiCalls env)) as [[|item rest]|e] eqn:Hd.
  - destruct (clusterConditionFunc_not_fetched c clusterName conditionDesc condition
                v env) as (_ & Hv & _); [rewrite Hd; discriminate|].
    fold cf in Hv. now rewrite Hv, Hd.
  - unfold cf. now rewrite (clusterConditionFunc_fetched _ _ _ _ _ _ item rest Hd).
  - destruct (clusterConditionFunc_not_fetched c clusterName conditionDesc condition
                v env) as (_ & Hv & _); [rewrite Hd; discriminate|].
    fold cf in Hv. now rewrite Hv, Hd.
Qed.

(** The check that reads a non-empty list on which the predicate is done
    stops the poll and hands the predicate's error over. *)
Lemma cf_done (s : ClusterVars * Env) (item : Cluster) (rest : list Cluster) :
  describeCluster c clusterName (reads s) = Items (item :: rest) ->
  fst (condition item) = true ->
  exists s',
    cf s = ((true, snd (condition item)), s') /\
    reads s' = S (reads s) /\
    fst s' = mkClusterVars None (Some item).
Proof.
  destruct s as [v env]. unfold reads. cbn [snd]. intros Hd Hdone.
  unfold cf. rewrite (clusterConditionFunc_fetched _ _ _ _ _ _ item rest Hd), Hdone.
  eexists. split; [reflexivity|]. split; reflexivity.
Qed.

(** When the last read of a poll returned items on which the predicate is
    done, the poll returned the predicate's error, with that snapshot
    retained and no read error recorded. *)
Lemma PollImmediate_done_last (timeout : nat) (s : ClusterVars * Env)
    (item : Cluster) (rest : list Cluster) :
  describeCluster c clusterName (pred (reads (snd (PollImmediate timeout cf s))))
    = Items (item :: rest) ->
  fst (condition item) = true ->
  fst (PollImmediate timeout cf s) = snd (condition item) /\
  fst (snd (PollImmediate timeout cf s)) = mkClusterVars None (Some item).
Proof.
  rewrite PollImmediate_poll. intros Hd Hdone.
  destruct (poll_last cf timeout s) as (a & d & err & Hc & Hend).
  pose proof (last_read cf a _ (d, err)
                (clusterConditionFunc_one_read c clusterName conditionDesc condition) Hc)
    as Hr.
  rewrite <- Hr in Hd.
  destruct (cf_done a item rest Hd Hdone) as (s' & Hc' & _ & Hv).
  rewrite Hc in Hc'. injection Hc' as -> -> <-.
  split; [|exact Hv].
  destruct Hend as [(Hf & _) | (_ & E)]; [discriminate Hf | exact E].
Qed.
End ClusterConditionWait.

(** C2, amended. Once the predicate answers done=true the poll ends at that
    check, whatever error the predicate returns with it, and that error is
    what the poll hands back.  When the loop exits so, [WaitForClusterCondition]
    returns nil if the predicate's error is nil; if it is not, the wait
    returns a non-nil error: the predicate's error wrapped, or a
    [TimeoutError] with the snapshot when that error is itself a timeout. *)
Theorem done_ends_wait :
  forall (c : Client) (clusterName conditionDesc : string) (condition : clusterCondition),
    let cf := clusterConditionFunc c clusterName conditionDesc condition in
    (forall v env item rest,
        describeCluster c clusterName (apiCalls env) = Items (item :: rest) ->
        fst (condition item) = true ->
        exists s',
          cf (v, env) = ((true, snd (condition item)), s') /\
          reads s' = S (apiCalls env) /\
          (forall n, poll (S n) cf (v, env) = (snd (condition item), s')) /\
          (forall timeout, PollImmediate timeout cf (v, env) = (snd (condition item), s'))) /\
    (forall timeout env item rest,
        let out := WaitForClusterCondition c clusterName conditionDesc timeout condition env in
        describeCluster c clusterName (pred (apiCalls (snd out))) = Items (item :: rest) ->
        fst (condition item) = true ->
        (snd (condition item) = None -> fst out = None) /\
        (forall e, snd (condition item) = Some e ->
           fst out =
             if IsTimeout (Some e)
             then Some (timeoutError
                    ("timed out while waiting for cluster " ++ clusterName
                       ++ " to be " ++ conditionDesc)
                    [ObservedCluster item])
             else Some (Errorf_wrap
                          ("waiting for cluster " ++ clusterName ++ " to be " ++ conditionDesc)
                          e))).
Proof.
  intros c clusterName conditionDesc condition cf. split.
  - intros v env item rest Hd Hdone.
    destruct (cf_done c clusterName conditionDesc condition (v, env) item rest Hd Hdone)
      as (s' & Hc & Hr & _).
    fold cf in Hc. exists s'. split; [exact Hc|]. split; [exact Hr|].
    assert (Hp : forall n, poll (S n) cf (v, env) = (snd (condition item), s')).
    { intros n. rewrite poll_step, Hc. simpl.
      destruct (snd (condition item)); reflexivity. }
    split; [exact Hp|]. intros timeout. rewrite PollImmediate_poll. apply Hp.
  - intros timeout env item rest out Hd Hdone.
    destruct (PollImmediate timeout cf (clusterWaitStart clusterName conditionDesc timeout env))
      as [r [v env']] eqn:Hpoll.
    pose proof (WaitForClusterCondition_unfold c clusterName conditionDesc timeout
                  condition env env' r v Hpoll) as Hw.
    fold out in Hw. rewrite Hw in Hd. cbn [snd] in Hd.
    destruct (PollImmediate_done_last c clusterName conditionDesc condition timeout
                (clusterWaitStart clusterName conditionDesc timeout env) item rest)
      as (Hr & Hv); [fold cf; rewrite Hpoll; exact Hd | exact Hdone |].
    fold cf in Hr, Hv. rewrite Hpoll in Hr, Hv. cbn [fst snd] in Hr, Hv. subst r v.
    rewrite Hw. cbn [fst lastCluster lastClusterError]. split.
    + intros ->. reflexivity.
    + intros e ->. unfold maybeTimeoutError.
      destruct (IsTimeout (Some e)); reflexivity.
Qed.

(** ** Timeouts and snapshots *)

Lemma maybeTimeoutError_no_snapshot (err : option error_value) (task msg : string)
    (objs : list observed) :
  maybeTimeoutError err task = Some (timeoutError msg objs) -> objs = [].
Proof.
  unfold maybeTimeoutError, TimeoutError, Errorf_wrap.
  destruct (IsTimeout err).
  - now intros [= _ <-].
  - destruct err; discriminate.
Qed.

(** An error after which the handler goes on is no timeout. *)
Lemma retried_not_timeout (e : error_value) :
  IsNotFound (Some e) || fst (shouldRetry (Some e)) = true ->
  IsTimeout (Some e) = false.
Proof.
  rewrite shouldRetry_eq. unfold IsNotFound, IsInternalError, IsTooManyRequests.
  destruct e; simpl; try discriminate; reflexivity.
Qed.

Section ClusterSnapshots.
Variable c : Client.
Variable clusterName : string.

Let nf := clusterNotFoundFunc c clusterName.
Let pf := componentNotFoundFunc c clusterName.

Lemma nf_keeps_fetched (v : option Cluster) (env : Env) (item : Cluster)
    (rest : list Cluster) :
  describeCluster c clusterName (apiCalls env) = Items (item :: rest) ->
  fst (snd (nf (v, env))) = Some item.
Proof.
  intros Hd. unfold nf. now rewrite (clusterNotFoundFunc_fetched _ _ _ _ item rest Hd).
Qed.

Lemma nf_keeps_previous (v : option Cluster) (env : Env) :
  (forall item rest,
      describeCluster c clusterName (apiCalls env) <> Items (item :: rest)) ->
  fst (snd (nf (v, env))) = v.
Proof.
  intros H. unfold nf.
  destruct (describeCluster c clusterName (apiCalls env)) as [[|item rest]|e] eqn:Hd.
  - now rewrite clusterNotFoundFunc_empty.
  - exfalso. exact (H item rest eq_refl).
  - destruct (IsNotFound (Some e)) eqn:Hnf.
    + rewrite clusterNotFoundFunc_not_found; [reflexivity | now rewrite Hd].
    + now apply clusterNotFoundFunc_failed with (e := e).
Qed.

Lemma pf_keeps_fetched (v : option Cluster) (env : Env) (item : Cluster)
    (rest : list Cluster) :
  describeCluster c clusterName (apiCalls env) = Items (item :: rest) ->
  fst (snd (pf (v, env))) = Some item.
Proof.
  intros Hd. unfold pf. now rewrite (componentNotFoundFunc_fetched _ _ _ _ item rest Hd).
Qed.

Lemma pf_keeps_previous (v : option Cluster) (env : Env) :
  (forall item rest,
      describeCluster c clusterName (apiCalls env) <> Items (item :: rest)) ->
  fst (snd (pf (v, env))) = v.
Proof.
  intros H. unfold pf.
  destruct (describeCluster c clusterName (apiCalls env)) as [[|item rest]|e] eqn:Hd.
  - now rewrite componentNotFoundFunc_empty.
  - exfalso. exact (H item rest eq_refl).
  - now apply componentNotFoundFunc_failed with (e := e).
Qed.

Lemma WaitForClusterNotFound_unfold (timeout : nat) (env env' : Env)
    (err : option error_value) (v : option Cluster) :
  PollImmediate timeout nf (None, env) = (err, (v, env')) ->
  WaitForClusterNotFound c clusterName timeout env =
    (match err with
     | None => None
     | Some _ =>
         match IsTimeout err, v with
         | true, Some clu =>
             Some (timeoutError
               ("timeout while waiting for cluster " ++ clusterName ++ " to be Not Found")
               [ObservedCluster clu])
         | _, _ =>
             maybeTimeoutError err ("waiting for cluster " ++ clusterName ++ " not found")
         end
     end, env').
Proof.
  intros H. unfold WaitForClusterNotFound, bind, withVars. fold nf. rewrite H.
  cbn [fst snd]. destruct err as [e|]; [|reflexivity].
  destruct (IsTimeout (Some e)), v; reflexivity.
Qed.

Lemma WaitForComponentNotFound_unfold (timeout : nat) (env env' : Env)
    (err : option error_value) (v : option Cluster) :
  PollImmediate timeout pf (None, env) = (err, (v, env')) ->
  WaitForComponentNotFound c clusterName timeout env =
    (match err with
     | None => None
     | Some _ =>
         match IsTimeout err, v with
         | true, Some clu =>
             Some (timeoutError
               ("timeout while waiting for cluster " ++ clusterName
                  ++ " component to be Not Found")
               [ObservedCluster clu])
         | _, _ =>
             maybeTimeoutError err
               ("waiting for cluster " ++ clusterName ++ " uninstall component not found")
         end
     end, env').
Proof.
  intros H. unfold WaitForComponentNotFound, bind, withVars. fold pf. rewrite H.
  cbn [fst snd]. destruct err as [e|]; [|reflexivity].
  destruct (IsTimeout (Some e)), v; reflexivity.
Qed.

(** A snapshot in the outcome of [WaitForClusterNotFound] was read
    during the call. *)
Lemma WaitForClusterNotFound_snapshot (timeout : nat) (env : Env)
    (msg : string) (objs : list observed) :
  fst (WaitForClusterNotFound c clusterName timeout env) = Some (timeoutError msg objs) ->
  objs <> [] ->
  exists clu,
    objs = [ObservedCluster clu] /\
    latestFetched c clusterName (apiCalls env)
      (apiCalls (snd (WaitForClusterNotFound c clusterName timeout env))) clu.
Proof.
  destruct (PollImmediate timeout nf (None, env)) as [r [v env']] eqn:Hpoll.
  rewrite (WaitForClusterNotFound_unfold timeout env env' r v Hpoll). cbn [fst snd].
  pose proof (snapshot_ok_poll c clusterName nf (fun v => v) (apiCalls env)
                (clusterNotFoundFunc_one_read c clusterName)
                nf_keeps_fetched nf_keeps_previous (S timeout) (None, env)
                eq_refl eq_refl) as Hok.
  rewrite <- PollImmediate_poll, Hpoll in Hok.
  destruct Hok as (_ & H1 & _). unfold reads in H1. cbn [fst snd] in H1.
  intros Hout Hobjs. destruct r as [e|]; [|discriminate Hout].
  destruct (IsTimeout (Some e)), v as [clu|];
    try (apply maybeTimeoutError_no_snapshot in Hout; contradiction).
  injection Hout as _ <-.
  exists clu. split; [reflexivity | exact (H1 clu eq_refl)].
Qed.

(** The same for [WaitForComponentNotFound]. *)
Lemma WaitForComponentNotFound_snapshot (timeout : nat) (env : Env)
    (msg : string) (objs : list observed) :
  fst (WaitForComponentNotFound c clusterName timeout env) = Some (timeoutError msg objs) ->
  objs <> [] ->
  exists clu,
    objs = [ObservedCluster clu] /\
    latestFetched c clusterName (apiCalls env)
      (apiCalls (snd (WaitForComponentNotFound c clusterName timeout env))) clu.
Proof.
  destruct (PollImmediate timeout pf (None, env)) as [r [v env']] eqn:Hpoll.
  rewrite (WaitForComponentNotFound_unfold timeout env env' r v Hpoll). cbn [fst snd].
  pose proof (snapshot_ok_poll c clusterName pf (fun v => v) (apiCalls env)
                (componentNotFoundFunc_one_read c clusterName)
                pf_keeps_fetched pf_keeps_previous (S timeout) (None, env)
                eq_refl eq_refl) as Hok.
  rewrite <- PollImmediate_poll, Hpoll in Hok.
  destruct Hok as (_ & H1 & _). unfold reads in H1. cbn [fst snd] in H1.
  intros Hout Hobjs. destruct r as [e|]; [|discriminate Hout].
  destruct (IsTimeout (Some e)), v as [clu|];
    try (apply maybeTimeoutError_no_snapshot in Hout; contradiction).
  injection Hout as _ <-.
  exists clu. split; [reflexivity | exact (H1 clu eq_refl)].
Qed.

(** At the deadline of [WaitForClusterNotFound], no read having returned
    items and the failed reads having been retryable, the outcome is a
    [TimeoutError] that carries no object. *)
Lemma WaitForClusterNotFound_deadline_no_fetch (timeout : nat) (env : Env) :
(forall k item rest,
    apiCalls env <= k <= apiCalls env + timeout ->
    describeCluster c clusterName k <> Items (item :: rest)) ->
(forall k e,
    apiCalls env <= k <= apiCalls env + timeout ->
    describeCluster c clusterName k = Failed e ->
    fst (shouldRetry (Some e)) = true) ->
fst (WaitForClusterNotFound c clusterName timeout env) =
  Some (timeoutError ("timed out while waiting for cluster " ++ clusterName ++ " not found") []) /\
apiCalls (snd (WaitForClusterNotFound c clusterName timeout env))
  = apiCalls env + S timeout.
Proof.
intros Hnone Hretry.
pose proof (clusterNotFoundFunc_one_read c clusterName) as Hone. fold nf in Hone.
assert (Hgo : forall a, reads (@None Cluster, env) <= reads a
                          < reads (@None Cluster, env) + S timeout ->
                        fst (nf a) = (false, None)).
{ intros [v e0] Ha. unfold reads in Ha. cbn [snd] in Ha.
  destruct (describeCluster c clusterName (apiCalls e0)) as [[|item rest]|e] eqn:Hd.
  - unfold nf. now rewrite clusterNotFoundFunc_empty.
  - exfalso. apply (Hnone (apiCalls e0) item rest); [lia | exact Hd].
  - pose proof (Hretry (apiCalls e0) e ltac:(lia) Hd) as Hr.
    pose proof (retryable_not_notfound _ Hr) as Hn.
    destruct (clusterNotFoundFunc_failed c clusterName v e0 e Hd Hn) as (Hans & _).
    fold nf in Hans. rewrite Hans. unfold handlerAnswer. now rewrite Hn, Hr. }
destruct (runs_total nf Hone (S timeout) (None, env) Hgo) as ([v env'] & R).
pose proof (poll_times_out nf _ _ _ R) as Hpoll.
rewrite <- PollImmediate_poll in Hpoll.
pose proof (runs_reads nf Hone _ _ _ R) as Hreads.
unfold reads in Hreads. cbn [snd] in Hreads.
rewrite (WaitForClusterNotFound_unfold timeout env env' _ v Hpoll).
cbn [fst snd]. split; [|exact Hreads].
pose proof (snapshot_ok_poll c clusterName nf (fun v => v) (apiCalls env) Hone
              nf_keeps_fetched nf_keeps_previous (S timeout) (None, env)
              eq_refl eq_refl) as Hok.
rewrite <- PollImmediate_poll, Hpoll in Hok.
destruct Hok as (_ & H1 & _). unfold reads in H1. cbn [fst snd] in H1.
destruct v as [clu|]; [|reflexivity].
exfalso. destruct (H1 clu eq_refl) as (k & rest & Hk & Hd & _).
apply (Hnone k clu rest); [lia | exact Hd].
Qed.

(** The same at the deadline of [WaitForComponentNotFound]. *)
Lemma WaitForComponentNotFound_deadline_no_fetch (timeout : nat) (env : Env) :
(forall k item rest,
    apiCalls env <= k <= apiCalls env + timeout ->
    describeCluster c clusterName k <> Items (item :: rest)) ->
(forall k e,
    apiCalls env <= k <= apiCalls env + timeout ->
    describeCluster c clusterName k = Failed e ->
    IsNotFound (Some e) || fst (shouldRetry (Some e)) = true) ->
fst (WaitForComponentNotFound c clusterName timeout env) =
  Some (timeoutError
    ("timed out while waiting for cluster " ++ clusterName
       ++ " uninstall component not found") []) /\
apiCalls (snd (WaitForComponentNotFound c clusterName timeout env))
  = apiCalls env + S timeout.
Proof.
intros Hnone Hretry.
pose proof (componentNotFoundFunc_one_read c clusterName) as Hone. fold pf in Hone.
assert (Hgo : forall a, reads (@None Cluster, env) <= reads a
                          < reads (@None Cluster, env) + S timeout ->
                        fst (pf a) = (false, None)).
{ intros [v e0] Ha. unfold reads in Ha. cbn [snd] in Ha.
  destruct (describeCluster c clusterName (apiCalls e0)) as [[|item rest]|e] eqn:Hd.
  - unfold pf. now rewrite componentNotFoundFunc_empty.
  - exfalso. apply (Hnone (apiCalls e0) item rest); [lia | exact Hd].
  - destruct (componentNotFoundFunc_failed c clusterName v e0 e Hd) as (Hans & _).
    fold pf in Hans. rewrite Hans. unfold handlerAnswer.
    rewrite (Hretry (apiCalls e0) e); [reflexivity | lia | exact Hd]. }
destruct (runs_total pf Hone (S timeout) (None, env) Hgo) as ([v env'] & R).
pose proof (poll_times_out pf _ _ _ R) as Hpoll.
rewrite <- PollImmediate_poll in Hpoll.
pose proof (runs_reads pf Hone _ _ _ R) as Hreads.
unfold reads in Hreads. cbn [snd] in Hreads.
rewrite (WaitForComponentNotFound_unfold timeout env env' _ v Hpoll).
cbn [fst snd]. split; [|exact Hreads].
pose proof (snapshot_ok_poll c clusterName pf (fun v => v) (apiCalls env) Hone
              pf_keeps_fetched pf_keeps_previous (S timeout) (None, env)
              eq_refl eq_refl) as Hok.
rewrite <- PollImmediate_poll, Hpoll in Hok.
destruct Hok as (_ & H1 & _). unfold reads in H1. cbn [fst snd] in H1.
destruct v as [clu|]; [|reflexivity].
exfalso. destruct (H1 clu eq_refl) as (k & rest & Hk & Hd & _).
apply (Hnone k clu rest); [lia | exact Hd].
Qed.
End ClusterSnapshots.

Section ClusterConditionOutcome.
Variable c : Client.
Variables clusterName conditionDesc : string.
Variable condition : clusterCondition.

Let cf := clusterConditionFunc c clusterName conditionDesc condition.
Let task := "waiting for cluster " ++ clusterName ++ " to be " ++ conditionDesc.

(** A snapshot in the outcome of [WaitForClusterCondition] was read
    during the call. *)
Lemma WaitForClusterCondition_snapshot (timeout : nat) (env : Env)
    (msg : string) (objs : list observed) :
  fst (WaitForClusterCondition c clusterName conditionDesc timeout condition env)
    = Some (timeoutError msg objs) ->
  objs <> [] ->
  exists clu,
    objs = [ObservedCluster clu] /\
    latestFetched c clusterName (apiCalls env)
      (apiCalls (snd (WaitForClusterCondition c clusterName conditionDesc timeout
                        condition env))) clu.
Proof.
  destruct (PollImmediate timeout cf (clusterWaitStart clusterName conditionDesc timeout env))
    as [r [v env']] eqn:Hpoll.
  rewrite (WaitForClusterCondition_unfold c clusterName conditionDesc timeout condition
             env env' r v Hpoll). cbn [fst snd].
  pose proof (snapshot_ok_poll c clusterName cf lastCluster (apiCalls env)
                (clusterConditionFunc_one_read c clusterName conditionDesc condition)
                (cf_keeps_fetched c clusterName conditionDesc condition)
                (cf_keeps_previous c clusterName conditionDesc condition)
                (S timeout) (clusterWaitStart clusterName conditionDesc timeout env)
                eq_refl eq_refl) as Hok.
  rewrite <- PollImmediate_poll, Hpoll in Hok.
  destruct Hok as (_ & H1 & _). unfold reads in H1. cbn [fst snd] in H1.
  intros Hout Hobjs. destruct r as [e|]; [|discriminate Hout].
  destruct (IsTimeout (Some e)), (lastCluster v) as [clu|];
    try (apply maybeTimeoutError_no_snapshot in Hout; contradiction).
  injection Hout as _ <-.
  exists clu. split; [reflexivity | exact (H1 clu eq_refl)].
Qed.

(** When no read up to the deadline returns items and none fails with a
    terminal error, the wait makes all its reads and returns the last read
    error wrapped, or, after a last read that returned an empty list, a
    [TimeoutError] without snapshot. *)
Lemma WaitForClusterCondition_deadline_no_fetch (timeout : nat) (env : Env) :
  (forall k item rest,
      apiCalls env <= k <= apiCalls env + timeout ->
      describeCluster c clusterName k <> Items (item :: rest)) ->
  (forall k e,
      apiCalls env <= k <= apiCalls env + timeout ->
      describeCluster c clusterName k = Failed e ->
      IsNotFound (Some e) || fst (shouldRetry (Some e)) = true) ->
  fst (WaitForClusterCondition c clusterName conditionDesc timeout condition env) =
    match describeCluster c clusterName (apiCalls env + timeout) with
    | Failed e => Some (Errorf_wrap task e)
    | Items _ => Some (timeoutError ("timed out while " ++ task) [])
    end /\
  apiCalls (snd (WaitForClusterCondition c clusterName conditionDesc timeout condition env))
    = apiCalls env + S timeout.
Proof.
  intros Hnone Hretry.
  set (s0 := clusterWaitStart clusterName conditionDesc timeout env).
  pose proof (clusterConditionFunc_one_read c clusterName conditionDesc condition) as Hone.
  fold cf in Hone.
  assert (Hgo : forall a, reads s0 <= reads a < reads s0 + S timeout ->
                          fst (cf a) = (false, None)).
  { intros [v e0] Ha. unfold reads in Ha. cbn [snd] in Ha.
    change (apiCalls (snd s0)) with (apiCalls env) in Ha.
    destruct (clusterConditionFunc_not_fetched c clusterName conditionDesc condition v e0)
      as (Hans & _); [intros item rest; apply Hnone; lia|].
    fold cf in Hans. rewrite Hans.
    destruct (describeCluster c clusterName (apiCalls e0)) as [items|e] eqn:Hd;
      [reflexivity|].
    unfold handlerAnswer. cbn [errOf].
    rewrite (Hretry (apiCalls e0) e); [reflexivity | lia | exact Hd]. }
  destruct (runs_total cf Hone (S timeout) s0 Hgo) as (s1 & R).
  pose proof (poll_times_out cf _ _ _ R) as Hpoll.
  rewrite <- PollImmediate_poll in Hpoll.
  pose proof (runs_reads cf Hone _ _ _ R) as Hreads.
  change (reads s0) with (apiCalls env) in Hreads.
  destruct s1 as [v env']. unfold reads in Hreads. cbn [snd] in Hreads.
  rewrite (WaitForClusterCondition_unfold c clusterName conditionDesc timeout condition
             env env' _ v Hpoll). cbn [fst snd].
  split; [|exact Hreads].
  (* the variables after the last check *)
  pose proof (snapshot_ok_poll c clusterName cf lastCluster (apiCalls env) Hone
                (cf_keeps_fetched c clusterName conditionDesc condition)
                (cf_keeps_previous c clusterName conditionDesc condition)
                (S timeout) s0 eq_refl eq_refl) as Hok.
  rewrite <- PollImmediate_poll, Hpoll in Hok.
  destruct Hok as (_ & H1 & _). unfold reads in H1. cbn [fst snd] in H1.
  assert (Hlast : lastCluster v = None).
  { destruct (lastCluster v) as [clu|]; [|reflexivity].
    destruct (H1 clu eq_refl) as (k & rest & Hk & Hd & _).
    exfalso. apply (Hnone k clu rest); [lia | exact Hd]. }
  assert (Herr : lastClusterError v =
                 errOf (describeCluster c clusterName (apiCalls env + timeout))).
  { inversion R as [|j a b R' Hc]; subst.
    pose proof (cf_last_error c clusterName conditionDesc condition a) as He.
    fold cf in He. rewrite Hc in He. cbn [fst snd] in He.
    pose proof (runs_reads cf Hone _ _ _ R') as Ha.
    change (reads s0) with (apiCalls env) in Ha. now rewrite Ha in He. }
  rewrite Hlast, Herr. cbn [IsTimeout].
  destruct (describeCluster c clusterName (apiCalls env + timeout)) as [items|e] eqn:Hd;
    cbn [errOf].
  - reflexivity.
  - unfold maybeTimeoutError.
    rewrite (retried_not_timeout e); [reflexivity|].
    apply (Hretry (apiCalls env + timeout) e); [lia | exact Hd].
Qed.

(** When every read up to the deadline that returns items finds the
    predicate not done, and no read fails with a terminal error, the wait
    makes all its reads and returns a [TimeoutError] with the retained
    snapshot. *)
Lemma WaitForClusterCondition_deadline (timeout : nat) (env : Env) (clu : Cluster) :
(forall k item rest,
    apiCalls env <= k <= apiCalls env + timeout ->
    describeCluster c clusterName k = Items (item :: rest) ->
    fst (condition item) = false) ->
(forall k e,
    apiCalls env <= k <= apiCalls env + timeout ->
    describeCluster c clusterName k = Failed e ->
    IsNotFound (Some e) || fst (shouldRetry (Some e)) = true) ->
latestFetched c clusterName (apiCalls env) (apiCalls env + S timeout) clu ->
fst (WaitForClusterCondition c clusterName conditionDesc timeout condition env) =
  Some (timeoutError ("timed out while " ++ task) [ObservedCluster clu]) /\
apiCalls (snd (WaitForClusterCondition c clusterName conditionDesc timeout condition env))
  = apiCalls env + S timeout.
Proof.
intros Hcond Hretry Hlatest.
set (s0 := clusterWaitStart clusterName conditionDesc timeout env).
pose proof (clusterConditionFunc_one_read c clusterName conditionDesc condition) as Hone.
fold cf in Hone.
assert (Hgo : forall a, reads s0 <= reads a < reads s0 + S timeout ->
                        fst (cf a) = (false, None)).
{ intros [v e0] Ha. unfold reads in Ha. cbn [snd] in Ha.
  change (apiCalls (snd s0)) with (apiCalls env) in Ha.
  destruct (describeCluster c clusterName (apiCalls e0)) as [[|item rest]|e] eqn:Hd.
  - destruct (clusterConditionFunc_not_fetched c clusterName conditionDesc condition v e0)
      as (Hans & _); [rewrite Hd; discriminate|].
    fold cf in Hans. now rewrite Hans, Hd.
  - unfold cf. rewrite (clusterConditionFunc_fetched _ _ _ _ _ _ item rest Hd). cbn [fst].
    now rewrite (Hcond (apiCalls e0) item rest ltac:(lia) Hd).
  - destruct (clusterConditionFunc_not_fetched c clusterName conditionDesc condition v e0)
      as (Hans & _); [rewrite Hd; discriminate|].
    fold cf in Hans. rewrite Hans, Hd. unfold handlerAnswer. cbn [errOf].
    rewrite (Hretry (apiCalls e0) e); [reflexivity | lia | exact Hd]. }
destruct (runs_total cf Hone (S timeout) s0 Hgo) as ([v env'] & R).
pose proof (poll_times_out cf _ _ _ R) as Hpoll.
rewrite <- PollImmediate_poll in Hpoll.
pose proof (runs_reads cf Hone _ _ _ R) as Hreads.
change (reads s0) with (apiCalls env) in Hreads.
unfold reads in Hreads. cbn [snd] in Hreads.
rewrite (WaitForClusterCondition_unfold c clusterName conditionDesc timeout condition
           env env' _ v Hpoll). cbn [fst snd].
split; [|exact Hreads].
pose proof (snapshot_ok_poll c clusterName cf lastCluster (apiCalls env) Hone
              (cf_keeps_fetched c clusterName conditionDesc condition)
              (cf_keeps_previous c clusterName conditionDesc condition)
              (S timeout) s0 eq_refl eq_refl) as Hok.
rewrite <- PollImmediate_poll, Hpoll in Hok.
destruct Hok as (_ & H1 & H2 & _). unfold reads in H1, H2. cbn [fst snd] in H1, H2.
rewrite Hreads in H1, H2. cbn [IsTimeout].
destruct (lastCluster v) as [clu'|].
- now rewrite (latestFetched_unique _ _ _ _ _ _ (H1 clu' eq_refl) Hlatest).
- exfalso. destruct Hlatest as (k & rest & Hk & Hd & _).
  exact (H2 eq_refl k Hk clu rest Hd).
Qed.

(** The same when every read returns items: the snapshot is the first
    item of the last read. *)
Lemma WaitForClusterCondition_never_done (timeout : nat) (env : Env) :
(forall k,
    apiCalls env <= k <= apiCalls env + timeout ->
    exists item rest,
      describeCluster c clusterName k = Items (item :: rest) /\
      fst (condition item) = false) ->
exists clu rest,
  describeCluster c clusterName (apiCalls env + timeout) = Items (clu :: rest) /\
  fst (WaitForClusterCondition c clusterName conditionDesc timeout condition env) =
    Some (timeoutError ("timed out while " ++ task) [ObservedCluster clu]) /\
  apiCalls (snd (WaitForClusterCondition c clusterName conditionDesc timeout condition env))
    = apiCalls env + S timeout.
Proof.
intros Hall.
destruct (Hall (apiCalls env + timeout) ltac:(lia)) as (clu & rest & Hd & _).
exists clu, rest. split; [exact Hd|].
apply WaitForClusterCondition_deadline.
- intros k item rest' Hk Hk'.
  destruct (Hall k Hk) as (item' & rest'' & Hd' & Hc).
  rewrite Hd' in Hk'. now injection Hk' as <- _.
- intros k e Hk Hk'.
  destruct (Hall k Hk) as (item' & rest'' & Hd' & _).
  rewrite Hd' in Hk'. discriminate Hk'.
- exists (apiCalls env + timeout), rest.
  split; [lia|]. split; [exact Hd|]. intros k' Hk'. lia.
Qed.
End ClusterConditionOutcome.

(** C1. In [WaitForClusterCondition] and in [WaitForBackupCondition], a
    check whose predicate answers (false, err) with a non-nil [err] does not
    end the loop: the error is logged, the check answers (false, nil) and
    the poll goes on with the next check.  A poll ends only when the
    deadline has passed after all its checks, or at a check whose predicate
    answered done=true, or at a check whose read failed with a terminal
    error.  So a wait whose predicate reports an error at every check runs
    to its deadline and returns the timeout with the last snapshot. *)
Theorem soft_condition_error_does_not_end_wait :
  forall (c : Client) (clusterName backupName conditionDesc : string)
         (ccond : clusterCondition) (bcond : backupCondition),
    let cf := clusterConditionFunc c clusterName conditionDesc ccond in
    let bf := backupConditionFunc c clusterName backupName conditionDesc bcond in
    (forall v env item rest e,
        describeCluster c clusterName (apiCalls env) = Items (item :: rest) ->
        ccond item = (false, Some e) ->
        let s' := (mkClusterVars None (Some item),
                   mkEnv (S (apiCalls env))
                     (logs env ++ [LogClusterPhase clusterName (Phase (Status item));
                                   LogClusterConditionError conditionDesc e])%list
                     (slept env)) in
        cf (v, env) = ((false, None), s') /\
        forall n, poll (S n) cf (v, env) = poll n cf s') /\
    (forall bp env item rest e,
        listBackupsWithCluster c clusterName (apiCalls env) = Items (item :: rest) ->
        bcond item = (false, Some e) ->
        let s' := (Some item,
                   mkEnv (S (apiCalls env))
                     (logs env
                        ++ [LogBackupPhase backupName (ClusterBackupStatus (backupStatus item));
                            LogBackupConditionError conditionDesc e])%list
                     (slept env)) in
        bf (bp, env) = ((false, None), s') /\
        forall n, poll (S n) bf (bp, env) = poll n bf s') /\
    (forall timeout s r s',
        PollImmediate timeout cf s = (r, s') ->
        (r = Some ErrWaitTimeout /\ reads s' = reads s + S timeout) \/
        (exists item rest,
            describeCluster c clusterName (pred (reads s')) = Items (item :: rest) /\
            fst (ccond item) = true /\ r = snd (ccond item)) \/
        (exists e,
            describeCluster c clusterName (pred (reads s')) = Failed e /\
            terminal e /\ r = Some e)) /\
    (forall timeout s r s',
        PollImmediate timeout bf s = (r, s') ->
        (r = Some ErrWaitTimeout /\ reads s' = reads s + S timeout) \/
        (exists item rest,
            listBackupsWithCluster c clusterName (pred (reads s')) = Items (item :: rest) /\
            fst (bcond item) = true /\ r = snd (bcond item)) \/
        (exists e,
            listBackupsWithCluster c clusterName (pred (reads s')) = Failed e /\
            terminal e /\ r = Some e)) /\
    (forall timeout env,
        (forall k, apiCalls env <= k <= apiCalls env + timeout ->
           exists item rest e,
             describeCluster c clusterName k = Items (item :: rest) /\
             ccond item = (false, Some e)) ->
        exists clu rest,
          describeCluster c clusterName (apiCalls env + timeout) = Items (clu :: rest) /\
          fst (WaitForClusterCondition c clusterName conditionDesc timeout ccond env) =
            Some (timeoutError
              ("timed out while waiting for cluster " ++ clusterName
                 ++ " to be " ++ conditionDesc)
              [ObservedCluster clu]) /\
          apiCalls (snd (WaitForClusterCondition c clusterName conditionDesc timeout ccond env))
            = apiCalls env + S timeout).
Proof.
  intros c clusterName backupName conditionDesc ccond bcond cf bf.
  split; [|split; [|split; [|split]]].
  - intros v env item rest e Hd Hc s'.
    assert (E : cf (v, env) = ((false, None), s')).
    { unfold cf. rewrite (clusterConditionFunc_fetched _ _ _ _ _ _ item rest Hd).
      rewrite Hc. reflexivity. }
    split; [exact E|]. intros n. rewrite poll_step, E. reflexivity.
  - intros bp env item rest e Hd Hc s'.
    assert (E : bf (bp, env) = ((false, None), s')).
    { unfold bf. rewrite (backupConditionFunc_fetched _ _ _ _ _ _ _ item rest Hd).
      rewrite Hc. reflexivity. }
    split; [exact E|]. intros n. rewrite poll_step, E. reflexivity.
  - intros timeout s r s' H. rewrite PollImmediate_poll in H.
    pose proof (clusterConditionFunc_one_read c clusterName conditionDesc ccond) as Hone.
    destruct (poll_cases cf (S timeout) s)
      as [(s1 & R & E) | (j & s1 & d & err & s2 & Hj & R & Hc & Hstop & E)];
      rewrite E in H; injection H as <- <-.
    + left. split; [reflexivity|]. exact (runs_reads cf Hone _ _ _ R).
    + right. rewrite <- (last_read cf s1 s2 (d, err) Hone Hc).
      destruct (clusterConditionFunc_stop c clusterName conditionDesc ccond
                  s1 s2 d err Hc Hstop)
        as [(item & rest & Hd & Hdone & _ & He) | (e & Hd & Ht & _ & He)].
      * left. now exists item, rest.
      * right. now exists e.
  - intros timeout s r s' H. rewrite PollImmediate_poll in H.
    pose proof (backupConditionFunc_one_read c clusterName backupName conditionDesc bcond)
      as Hone.
    destruct (poll_cases bf (S timeout) s)
      as [(s1 & R & E) | (j & s1 & d & err & s2 & Hj & R & Hc & Hstop & E)];
      rewrite E in H; injection H as <- <-.
    + left. split; [reflexivity|]. exact (runs_reads bf Hone _ _ _ R).
    + right. rewrite <- (last_read bf s1 s2 (d, err) Hone Hc).
      destruct (backupConditionFunc_stop c clusterName backupName conditionDesc bcond
                  s1 s2 d err Hc Hstop)
        as [(item & rest & Hd & Hdone & _ & He) | (e & Hd & Ht & _ & He)].
      * left. now exists item, rest.
      * right. now exists e.
  - intros timeout env Hall.
    apply (WaitForClusterCondition_never_done c clusterName conditionDesc ccond timeout env).
    intros k Hk. destruct (Hall k Hk) as (item & rest & e & Hd & Hc).
    exists item, rest. now rewrite Hc.
Qed.

(** ** Waiting for a healthy cluster *)

(** C7, as stated, fails: in [twoKubernetesEntries] a component condition
    named "kubernetes" with status Healthy exists, and the predicate answers
    done=false, because the scan returns at the first entry of that name. *)
Lemma clusterHealthy_later_entry_ignored :
  (exists item,
      In item (ComponentConditions (Status twoKubernetesEntries)) /\
      condName item = "kubernetes" /\ condStatus item = ComponentHealthy) /\
  clusterHealthy twoKubernetesEntries = (false, None).
Proof.
  split; [|reflexivity].
  exists (mkComponentCondition "kubernetes" ComponentHealthy).
  simpl. auto.
Qed.

(** C7, amended. The cluster-healthy predicate answers done=true exactly
    when the first component condition named "kubernetes" has status
    Healthy; it never returns an error; and when no entry has that name it
    answers (false, nil), at every check: a wait whose reads all return
    clusters without such an entry ends only at its deadline, with the
    timeout and the last snapshot. *)
Theorem clusterHealthy_first_entry :
  forall clu : Cluster,
    (fst (clusterHealthy clu) = true <->
       exists pre item post,
         ComponentConditions (Status clu) = (pre ++ item :: post)%list /\
         (forall x, In x pre -> condName x <> "kubernetes") /\
         condName item = "kubernetes" /\ condStatus item = ComponentHealthy) /\
    snd (clusterHealthy clu) = None /\
    ((forall item, In item (ComponentConditions (Status clu)) ->
                   condName item <> "kubernetes") ->
       clusterHealthy clu = (false, None)) /\
    (forall (c : Client) (clusterName : string) (timeout : nat) (env : Env),
        (forall k, apiCalls env <= k <= apiCalls env + timeout ->
           exists item rest,
             describeCluster c clusterName k = Items (item :: rest) /\
             forall x, In x (ComponentConditions (Status item)) ->
                       condName x <> "kubernetes") ->
        exists last rest,
          describeCluster c clusterName (apiCalls env + timeout) = Items (last :: rest) /\
          fst (WaitForClusterHealthy c clusterName timeout env) =
            Some (timeoutError
              ("timed out while waiting for cluster " ++ clusterName
                 ++ " to be cluster " ++ clusterName ++ " healthy")
              [ObservedCluster last]) /\
          apiCalls (snd (WaitForClusterHealthy c clusterName timeout env))
            = apiCalls env + S timeout).
Proof.
  intros clu. unfold clusterHealthy. split; [split|split; [|split]].
  - apply healthyLoop_true_inv.
  - intros (pre & item & post & -> & Hpre & Hn & Hs).
    rewrite (healthyLoop_first pre post item Hpre Hn), Hs. reflexivity.
  - apply healthyLoop_no_error.
  - apply healthyLoop_absent.
  - intros c clusterName timeout env Hall. unfold WaitForClusterHealthy.
    apply (WaitForClusterCondition_never_done c clusterName
             ("cluster " ++ clusterName ++ " healthy") clusterHealthy timeout env).
    intros k Hk. destruct (Hall k Hk) as (item & rest & Hd & Habsent).
    exists item, rest. split; [exact Hd|].
    unfold clusterHealthy. now rewrite (healthyLoop_absent _ Habsent).
Qed.

(** The healthy wait on a cluster that reports no component condition. *)
Lemma clusterHealthy_first_entry_at_installing :
  clusterHealthy installing = (false, None) /\
  fst (WaitForClusterHealthy (alwaysCluster installing) "c1" 2 initEnv)
    = Some (timeoutError "timed out while waiting for cluster c1 to be cluster c1 healthy"
        [ObservedCluster installing]).
Proof.
  destruct (clusterHealthy_first_entry installing) as (_ & _ & Habsent & Hwait).
  split.
  - apply Habsent. intros item [].
  - destruct (Hwait (alwaysCluster installing) "c1" 2 initEnv)
      as (last & rest & Hd & E & _).
    + intros k _. exists installing, []. split; [reflexivity | intros x []].
    + injection Hd as <- _. exact E.
Defined.

(** C3, as stated, fails.  Every read of [noCluster] returns an empty
    list, so no read yields a snapshot before the deadline, and
    [WaitForClusterCondition] returns an error that [IsTimeout] recognises,
    with no snapshot, where the claim has a plain wrapped error.  Every read
    of [alwaysInternalError] fails, so no read succeeds in any sense, and
    [WaitForComponentNotFound] returns such a timeout as well. *)
Lemma WaitForClusterCondition_no_fetch_is_timeout :
  (forall k, describeCluster noCluster "c1" k = Items []) /\
  fst (WaitForClusterCondition noCluster "c1" "running" 1 clusterRunning initEnv)
    = Some (timeoutError "timed out while waiting for cluster c1 to be running" []) /\
  IsTimeout (fst (WaitForClusterCondition noCluster "c1" "running" 1 clusterRunning initEnv))
    = true /\
  (forall msg inner,
      fst (WaitForClusterCondition noCluster "c1" "running" 1 clusterRunning initEnv)
        <> Some (wrapError msg inner)) /\
  apiCalls (snd (WaitForClusterCondition noCluster "c1" "running" 1 clusterRunning initEnv))
    = 2 /\
  (forall k, describeCluster alwaysInternalError "c1" k = Failed internalError) /\
  fst (WaitForComponentNotFound alwaysInternalError "c1" 1 initEnv)
    = Some (timeoutError
              "timed out while waiting for cluster c1 uninstall component not found" []) /\
  IsTimeout (fst (WaitForComponentNotFound alwaysInternalError "c1" 1 initEnv)) = true /\
  (forall msg inner,
      fst (WaitForComponentNotFound alwaysInternalError "c1" 1 initEnv)
        <> Some (wrapError msg inner)).
Proof.
  split; [reflexivity|]. split; [reflexivity|]. split; [reflexivity|].
  split; [discriminate|]. split; [reflexivity|]. split; [reflexivity|].
  split; [reflexivity|]. split; [reflexivity | discriminate].
Qed.

(** C3, amended. In the cluster waits ([WaitForClusterCondition],
    [WaitForClusterNotFound], [WaitForComponentNotFound]) a timeout error
    that carries a snapshot is returned only when a read of the call returned
    a non-empty list, and the snapshot is the first item of the latest such
    read.  When [WaitForClusterCondition] reaches its deadline without any
    such read, it makes all its reads and returns an error without snapshot:
    the last read error wrapped ("error while ...") when the last read
    failed, and a [TimeoutError] that carries no object when the last read
    returned an empty list.  [WaitForClusterNotFound] and
    [WaitForComponentNotFound], which do not record the last read error,
    return in that case a [TimeoutError] that carries no object. *)
Theorem snapshot_only_after_fetch :
  forall (c : Client) (clusterName conditionDesc : string) (condition : clusterCondition)
         (timeout : nat) (env : Env),
    (forall msg objs,
        fst (WaitForClusterCondition c clusterName conditionDesc timeout condition env)
          = Some (timeoutError msg objs) ->
        objs <> [] ->
        exists clu,
          objs = [ObservedCluster clu] /\
          latestFetched c clusterName (apiCalls env)
            (apiCalls (snd (WaitForClusterCondition c clusterName conditionDesc timeout
                              condition env))) clu) /\
    (forall msg objs,
        fst (WaitForClusterNotFound c clusterName timeout env)
          = Some (timeoutError msg objs) ->
        objs <> [] ->
        exists clu,
          objs = [ObservedCluster clu] /\
          latestFetched c clusterName (apiCalls env)
            (apiCalls (snd (WaitForClusterNotFound c clusterName timeout env))) clu) /\
    (forall msg objs,
        fst (WaitForComponentNotFound c clusterName timeout env)
          = Some (timeoutError msg objs) ->
        objs <> [] ->
        exists clu,
          objs = [ObservedCluster clu] /\
          latestFetched c clusterName (apiCalls env)
            (apiCalls (snd (WaitForComponentNotFound c clusterName timeout env))) clu) /\
    ((forall k item rest,
         apiCalls env <= k <= apiCalls env + timeout ->
         describeCluster c clusterName k <> Items (item :: rest)) ->
     (forall k e,
         apiCalls env <= k <= apiCalls env + timeout ->
         describeCluster c clusterName k = Failed e ->
         IsNotFound (Some e) || fst (shouldRetry (Some e)) = true) ->
     fst (WaitForClusterCondition c clusterName conditionDesc timeout condition env) =
       match describeCluster c clusterName (apiCalls env + timeout) with
       | Failed e =>
           Some (Errorf_wrap
                   ("waiting for cluster " ++ clusterName ++ " to be " ++ conditionDesc) e)
       | Items _ =>
           Some (timeoutError
             ("timed out while waiting for cluster " ++ clusterName
                ++ " to be " ++ conditionDesc) [])
       end /\
     apiCalls (snd (WaitForClusterCondition c clusterName conditionDesc timeout condition env))
       = apiCalls env + S timeout) /\
    ((forall k item rest,
         apiCalls env <= k <= apiCalls env + timeout ->
         describeCluster c clusterName k <> Items (item :: rest)) ->
     (forall k e,
         apiCalls env <= k <= apiCalls env + timeout ->
         describeCluster c clusterName k = Failed e ->
         fst (shouldRetry (Some e)) = true) ->
     fst (WaitForClusterNotFound c clusterName timeout env) =
       Some (timeoutError
         ("timed out while waiting for cluster " ++ clusterName ++ " not found") []) /\
     apiCalls (snd (WaitForClusterNotFound c clusterName timeout env))
       = apiCalls env + S timeout) /\
    ((forall k item rest,
         apiCalls env <= k <= apiCalls env + timeout ->
         describeCluster c clusterName k <> Items (item :: rest)) ->
     (forall k e,
         apiCalls env <= k <= apiCalls env + timeout ->
         describeCluster c clusterName k = Failed e ->
         IsNotFound (Some e) || fst (shouldRetry (Some e)) = true) ->
     fst (WaitForComponentNotFound c clusterName timeout env) =
       Some (timeoutError
         ("timed out while waiting for cluster " ++ clusterName
            ++ " uninstall component not found") []) /\
     apiCalls (snd (WaitForComponentNotFound c clusterName timeout env))
       = apiCalls env + S timeout).
Proof.
  intros c clusterName conditionDesc condition timeout env.
  split; [|split; [|split; [|split; [|split]]]].
  - apply WaitForClusterCondition_snapshot.
  - apply WaitForClusterNotFound_snapshot.
  - apply WaitForComponentNotFound_snapshot.
  - apply WaitForClusterCondition_deadline_no_fetch.
  - apply WaitForClusterNotFound_deadline_no_fetch.
  - apply WaitForComponentNotFound_deadline_no_fetch.
Qed.

(** The deadline without a snapshot, at two clients: a last read that
    returned an empty list, and a last read that failed with not-found. *)
Lemma snapshot_only_after_fetch_at_deadline :
  fst (WaitForClusterCondition noCluster "c1" "running" 1 clusterRunning initEnv)
    = Some (timeoutError "timed out while waiting for cluster c1 to be running" []) /\
  fst (WaitForClusterCondition neverFound "c1" "running" 1 clusterRunning initEnv)
    = Some (wrapError "error while waiting for cluster c1 to be running: not found"
              notFound).
Proof.
  split.
  - destruct (snapshot_only_after_fetch noCluster "c1" "running" clusterRunning 1 initEnv)
      as (_ & _ & _ & H & _).
    destruct H as [H _]; [discriminate | discriminate | exact H].
  - destruct (snapshot_only_after_fetch neverFound "c1" "running" clusterRunning 1 initEnv)
      as (_ & _ & _ & H & _).
    destruct H as [H _]; [discriminate | | exact H].
    intros k e _ [= <-]. reflexivity.
Defined.

(** ** Waiting for a cluster to be gone *)

(** C6. The claim, like the comment above the function ("if the Get api
    returns an error other than not found then that error is returned and
    the wait stops"), has every read error other than not-found end the
    wait.  The code does not: at a client whose first read fails with an
    internal error and whose second read fails with not-found, the first
    check logs the error as retryable and answers (false, nil), the poll
    goes on, and the wait returns nil after two reads instead of the
    internal error after one. *)
Lemma WaitForClusterNotFound_retries_internal_error :
  describeCluster internalThenGone "c1" 0 = Failed internalError /\
  IsNotFound (Some internalError) = false /\
  fst (shouldRetry (Some internalError)) = true /\
  fst (clusterNotFoundFunc internalThenGone "c1" (None, initEnv)) = (false, None) /\
  WaitForClusterNotFound internalThenGone "c1" 1 initEnv =
    (None, mkEnv 2 [LogRetryable "getting cluster c1" 0 (Some internalError)] 0).
Proof.
  split; [reflexivity|]. split; [reflexivity|]. split; [reflexivity|].
  split.
  - unfold clusterNotFoundFunc, bind, onEnv, DescribeCluster. reflexivity.
  - unfold WaitForClusterNotFound. reflexivity.
Qed.

(** What a check of [WaitForClusterNotFound] does with each kind of read.
    A check whose read fails with not-found answers done=true with a nil
    error and ends the poll there;
    the wait returns nil at the first such read, without further reads,
    when the failed reads before it were retryable.  A read that fails with
    another error goes through the fetch-error handler: a retryable error
    (internal error, too many requests) lets the poll go on, every other
    error is terminal and ends the poll with that error.  A read that
    returns a list, empty or not, answers (false, nil) and the poll goes
    on. *)
Theorem WaitForClusterNotFound_spec :
  forall (c : Client) (clusterName : string),
    let nf := clusterNotFoundFunc c clusterName in
    (forall v env,
        IsNotFound (errOf (describeCluster c clusterName (apiCalls env))) = true ->
        let s' := (v, mkEnv (S (apiCalls env)) (logs env) (slept env)) in
        nf (v, env) = ((true, None), s') /\
        forall timeout, PollImmediate timeout nf (v, env) = (None, s')) /\
    (forall timeout env j,
        j <= timeout ->
        IsNotFound (errOf (describeCluster c clusterName (apiCalls env + j))) = true ->
        (forall i e, i < j ->
                     describeCluster c clusterName (apiCalls env + i) = Failed e ->
                     fst (shouldRetry (Some e)) = true) ->
        fst (WaitForClusterNotFound c clusterName timeout env) = None /\
        apiCalls (snd (WaitForClusterNotFound c clusterName timeout env))
          = apiCalls env + S j) /\
    (forall v env e,
        describeCluster c clusterName (apiCalls env) = Failed e ->
        IsNotFound (Some e) = false ->
        (fst (shouldRetry (Some e)) = true -> fst (nf (v, env)) = (false, None)) /\
        (fst (shouldRetry (Some e)) = false ->
           fst (nf (v, env)) = (false, Some e) /\
           forall timeout, fst (PollImmediate timeout nf (v, env)) = Some e)) /\
    (forall v env items,
        describeCluster c clusterName (apiCalls env) = Items items ->
        fst (nf (v, env)) = (false, None)).
Proof.
  intros c clusterName nf.
  pose proof (clusterNotFoundFunc_one_read c clusterName) as Hone. fold nf in Hone.
  split; [|split; [|split]].
  - intros v env Hnf s'.
    assert (E : nf (v, env) = ((true, None), s'))
      by (apply clusterNotFoundFunc_not_found; exact Hnf).
    split; [exact E|]. intros timeout. rewrite PollImmediate_poll, poll_step, E.
    reflexivity.
  - intros timeout env j Hj Hnf Hbefore.
    assert (Hgo : forall a, reads (@None Cluster, env) <= reads a < reads (@None Cluster, env) + j ->
                            fst (nf a) = (false, None)).
    { intros [v e0] Ha. unfold reads in Ha. cbn [snd] in Ha.
      destruct (describeCluster c clusterName (apiCalls e0)) as [[|item rest]|e] eqn:Hd.
      - unfold nf. now rewrite clusterNotFoundFunc_empty.
      - unfold nf. now rewrite (clusterNotFoundFunc_fetched _ _ _ _ item rest Hd).
      - assert (Hr : fst (shouldRetry (Some e)) = true).
        { apply (Hbefore (apiCalls e0 - apiCalls env) e); [lia|].
          replace (apiCalls env + (apiCalls e0 - apiCalls env)) with (apiCalls e0) by lia.
          exact Hd. }
        pose proof (retryable_not_notfound _ Hr) as Hn.
        destruct (clusterNotFoundFunc_failed c clusterName v e0 e Hd Hn) as (Hans & _).
        fold nf in Hans. rewrite Hans. unfold handlerAnswer. now rewrite Hn, Hr. }
    destruct (runs_total nf Hone j (None, env) Hgo) as ([v1 e1] & R).
    pose proof (runs_reads nf Hone _ _ _ R) as Hreads.
    unfold reads in Hreads. cbn [snd] in Hreads.
    assert (E : nf (v1, e1) = ((true, None), (v1, mkEnv (S (apiCalls e1)) (logs e1) (slept e1))))
      by (apply clusterNotFoundFunc_not_found; rewrite Hreads; exact Hnf).
    pose proof (poll_stops nf (S timeout) j _ _ _ true None ltac:(lia) R E (or_introl eq_refl))
      as Hpoll.
    rewrite <- PollImmediate_poll in Hpoll.
    rewrite (WaitForClusterNotFound_unfold c clusterName timeout env _ _ _ Hpoll).
    cbn [fst snd apiCalls]. split; [reflexivity | lia].
  - intros v env e Hd Hn.
    destruct (clusterNotFoundFunc_failed c clusterName v env e Hd Hn) as (Hans & _).
    fold nf in Hans. split; intros Hr.
    + rewrite Hans. unfold handlerAnswer. now rewrite Hn, Hr.
    + assert (E : fst (nf (v, env)) = (false, Some e))
        by (rewrite Hans; unfold handlerAnswer; now rewrite Hn, Hr).
      split; [exact E|]. intros timeout.
      rewrite PollImmediate_poll, poll_step.
      destruct (nf (v, env)) as [r s1]. cbn [fst] in E. subst r. reflexivity.
  - intros v env [|item rest] Hd.
    + unfold nf. now rewrite clusterNotFoundFunc_empty.
    + unfold nf. now rewrite (clusterNotFoundFunc_fetched _ _ _ _ item rest Hd).
Qed.

(** The wait for a cluster that fails once, retryably, and is gone at the
    second read. *)
Lemma WaitForClusterNotFound_spec_at_internalThenGone :
  fst (WaitForClusterNotFound internalThenGone "c1" 3 initEnv) = None /\
  apiCalls (snd (WaitForClusterNotFound internalThenGone "c1" 3 initEnv)) = 2.
Proof.
  destruct (WaitForClusterNotFound_spec internalThenGone "c1") as (_ & H & _).
  apply (H 3 initEnv 1).
  - lia.
  - reflexivity.
  - intros i e Hi. destruct i as [|i]; [|lia]. intros [= <-]. reflexivity.
Defined.

(** ** Waiting for the components to be gone *)

Lemma maybeTimeoutError_some (e : error_value) (task : string) :
  maybeTimeoutError (Some e) task <> None.
Proof. unfold maybeTimeoutError. destruct (IsTimeout (Some e)); discriminate. Qed.

Section ComponentWait.
Variable c : Client.
Variable clusterName : string.

Let pf := componentNotFoundFunc c clusterName.

(** A check of the component wait answers (true, nil) exactly when its
    read returns a cluster without add-ons. *)
Lemma pf_done (s : option Cluster * Env) :
  fst (pf s) = (true, None) <->
  exists item rest,
    describeCluster c clusterName (reads s) = Items (item :: rest) /\
    Addons item = [].
Proof.
  destruct s as [v env]. unfold reads. cbn [snd].
  destruct (describeCluster c clusterName (apiCalls env)) as [[|item rest]|e] eqn:Hd.
  - unfold pf. rewrite componentNotFoundFunc_empty by exact Hd. cbn [fst].
    split; [discriminate | intros (? & ? & [=] & _)].
  - unfold pf. rewrite (componentNotFoundFunc_fetched _ _ _ _ item rest Hd). cbn [fst].
    split.
    + intros H. exists item, rest. split; [reflexivity|].
      destruct (Addons item); [reflexivity | discriminate H].
    + intros (item' & rest' & [= <- _] & Ha). now rewrite Ha.
  - destruct (componentNotFoundFunc_failed c clusterName v env e Hd) as (Hans & _).
    fold pf in Hans. rewrite Hans. unfold handlerAnswer.
    split; [discriminate | intros (? & ? & [=] & _)].
Qed.

Lemma WaitForComponentNotFound_nil (timeout : nat) (env : Env) :
  fst (WaitForComponentNotFound c clusterName timeout env) = None <->
  exists k item rest,
    apiCalls env <= k < apiCalls (snd (WaitForComponentNotFound c clusterName timeout env)) /\
    describeCluster c clusterName k = Items (item :: rest) /\
    Addons item = [].
Proof.
  pose proof (componentNotFoundFunc_one_read c clusterName) as Hone. fold pf in Hone.
  destruct (PollImmediate timeout pf (None, env)) as [r [v env']] eqn:Hpoll.
  rewrite (WaitForComponentNotFound_unfold c clusterName timeout env env' r v Hpoll).
  cbn [fst snd].
  assert (Hnil : match r with
                 | None => None
                 | Some _ =>
                     match IsTimeout r, v with
                     | true, Some clu =>
                         Some (timeoutError
                           ("timeout while waiting for cluster " ++ clusterName
                              ++ " component to be Not Found") [ObservedCluster clu])
                     | _, _ =>
                         maybeTimeoutError r
                           ("waiting for cluster " ++ clusterName
                              ++ " uninstall component not found")
                     end
                 end = None <-> r = None).
  { destruct r as [e|]; [|tauto]. split; [|discriminate].
    destruct (IsTimeout (Some e)), v; try discriminate;
      intros H; now apply maybeTimeoutError_some in H. }
  rewrite Hnil. clear Hnil.
  rewrite PollImmediate_poll in Hpoll.
  destruct (poll_cases pf (S timeout) (None, env))
    as [(s1 & R & E) | (j & s1 & d & err & s2 & Hj & R & Hc & Hstop & E)];
    rewrite E in Hpoll; injection Hpoll as <- Hfinal;
    assert (Henv : env' = snd (v, env')) by reflexivity;
    rewrite Henv, <- Hfinal; clear Henv Hfinal.
  - (* the deadline: every check said to go on *)
    split; [discriminate|]. intros (k & item & rest & Hk & Hd & Ha). exfalso.
    destruct (runs_checks pf Hone _ _ _ R k Hk) as (a & b & Hra & Hca).
    assert (Hdone : fst (pf a) = (true, None))
      by (apply pf_done; exists item, rest; rewrite Hra; auto).
    rewrite Hca in Hdone. discriminate Hdone.
  - pose proof (runs_reads pf Hone _ _ _ R) as Hr1.
    pose proof (last_read pf s1 s2 (d, err) Hone Hc) as Hr2.
    assert (Hs2 : reads s2 = S (reads s1))
      by (specialize (Hone s1); now rewrite Hc in Hone).
    split.
    + intros ->. destruct Hstop as [-> | H]; [|congruence].
      assert (Hdone : fst (pf s1) = (true, None)) by now rewrite Hc.
      apply pf_done in Hdone. destruct Hdone as (item & rest & Hd & Ha).
      exists (reads s1), item, rest. unfold reads in *. cbn [snd] in *.
      split; [lia | auto].
    + intros (k & item & rest & Hk & Hd & Ha).
      unfold reads in *. cbn [snd] in *.
      destruct (Nat.eq_dec k (apiCalls (snd s1))) as [->|Hne].
      * assert (Hdone : fst (pf s1) = (true, None))
          by (apply pf_done; exists item, rest; auto).
        rewrite Hc in Hdone. now injection Hdone as _ ->.
      * exfalso.
        destruct (runs_checks pf Hone _ _ _ R k) as (a & b & Hra & Hca);
          [unfold reads; cbn [snd]; lia|].
        assert (Hdone : fst (pf a) = (true, None))
          by (apply pf_done; exists item, rest; rewrite Hra; auto).
        rewrite Hca in Hdone. discriminate Hdone.
Qed.

Lemma WaitForComponentNotFound_deadline (timeout : nat) (env : Env) (clu : Cluster) :
  (forall k item rest,
      apiCalls env <= k <= apiCalls env + timeout ->
      describeCluster c clusterName k = Items (item :: rest) -> Addons item <> []) ->
  (forall k e,
      apiCalls env <= k <= apiCalls env + timeout ->
      describeCluster c clusterName k = Failed e ->
      IsNotFound (Some e) || fst (shouldRetry (Some e)) = true) ->
  latestFetched c clusterName (apiCalls env) (apiCalls env + S timeout) clu ->
  fst (WaitForComponentNotFound c clusterName timeout env) =
    Some (timeoutError
      ("timeout while waiting for cluster " ++ clusterName ++ " component to be Not Found")
      [ObservedCluster clu]) /\
  apiCalls (snd (WaitForComponentNotFound c clusterName timeout env))
    = apiCalls env + S timeout.
Proof.
  intros Haddons Hretry Hlatest.
  pose proof (componentNotFoundFunc_one_read c clusterName) as Hone. fold pf in Hone.
  assert (Hgo : forall a, reads (@None Cluster, env) <= reads a
                            < reads (@None Cluster, env) + S timeout ->
                          fst (pf a) = (false, None)).
  { intros [v e0] Ha. unfold reads in Ha. cbn [snd] in Ha.
    destruct (describeCluster c clusterName (apiCalls e0)) as [[|item rest]|e] eqn:Hd.
    - unfold pf. now rewrite componentNotFoundFunc_empty.
    - unfold pf. rewrite (componentNotFoundFunc_fetched _ _ _ _ item rest Hd). cbn [fst].
      destruct (Addons item) eqn:Hadd; [|reflexivity].
      exfalso. apply (Haddons (apiCalls e0) item rest); [lia | exact Hd | exact Hadd].
    - destruct (componentNotFoundFunc_failed c clusterName v e0 e Hd) as (Hans & _).
      fold pf in Hans. rewrite Hans. unfold handlerAnswer.
      rewrite (Hretry (apiCalls e0) e); [reflexivity | lia | exact Hd]. }
  destruct (runs_total pf Hone (S timeout) (None, env) Hgo) as ([v env'] & R).
  pose proof (poll_times_out pf _ _ _ R) as Hpoll.
  rewrite <- PollImmediate_poll in Hpoll.
  pose proof (runs_reads pf Hone _ _ _ R) as Hreads.
  unfold reads in Hreads. cbn [snd] in Hreads.
  rewrite (WaitForComponentNotFound_unfold c clusterName timeout env env' _ v Hpoll).
  cbn [fst snd]. split; [|exact Hreads].
  pose proof (snapshot_ok_poll c clusterName pf (fun v => v) (apiCalls env) Hone
                (pf_keeps_fetched c clusterName) (pf_keeps_previous c clusterName)
                (S timeout) (None, env) eq_refl eq_refl) as Hok.
  rewrite <- PollImmediate_poll, Hpoll in Hok.
  destruct Hok as (_ & H1 & H2 & _). unfold reads in H1, H2. cbn [fst snd] in H1, H2.
  rewrite Hreads in H1, H2. cbn [IsTimeout].
  destruct v as [clu'|].
  - now rewrite (latestFetched_unique _ _ _ _ _ _ (H1 clu' eq_refl) Hlatest).
  - exfalso. destruct Hlatest as (k & rest & Hk & Hd & _).
    exact (H2 eq_refl k Hk clu rest Hd).
Qed.
End ComponentWait.

(** C10. [WaitForComponentNotFound] returns nil exactly when a read of the
    call returned a non-empty list whose first cluster has no add-on.  A
    check that reads a cluster with add-ons retains it, answers (false,
    nil), and the poll goes on.  When the deadline passes, the reads having
    returned only clusters with add-ons, empty lists and retried errors,
    the wait returns a [TimeoutError] that carries the retained snapshot,
    the first cluster of the latest non-empty read. *)
Theorem WaitForComponentNotFound_spec :
  forall (c : Client) (clusterName : string) (timeout : nat) (env : Env),
    let pf := componentNotFoundFunc c clusterName in
    let out := WaitForComponentNotFound c clusterName timeout env in
    (fst out = None <->
       exists k item rest,
         apiCalls env <= k < apiCalls (snd out) /\
         describeCluster c clusterName k = Items (item :: rest) /\
         Addons item = []) /\
    (forall v e0 item rest,
        describeCluster c clusterName (apiCalls e0) = Items (item :: rest) ->
        Addons item <> [] ->
        let s' := (Some item, mkEnv (S (apiCalls e0)) (logs e0) (slept e0)) in
        pf (v, e0) = ((false, None), s') /\
        forall n, poll (S n) pf (v, e0) = poll n pf s') /\
    (forall clu,
        (forall k item rest,
            apiCalls env <= k <= apiCalls env + timeout ->
            describeCluster c clusterName k = Items (item :: rest) -> Addons item <> []) ->
        (forall k e,
            apiCalls env <= k <= apiCalls env + timeout ->
            describeCluster c clusterName k = Failed e ->
            IsNotFound (Some e) || fst (shouldRetry (Some e)) = true) ->
        latestFetched c clusterName (apiCalls env) (apiCalls env + S timeout) clu ->
        fst out =
          Some (timeoutError
            ("timeout while waiting for cluster " ++ clusterName
               ++ " component to be Not Found")
            [ObservedCluster clu]) /\
        apiCalls (snd out) = apiCalls env + S timeout).
Proof.
  intros c clusterName timeout env pf out. split; [|split].
  - apply WaitForComponentNotFound_nil.
  - intros v e0 item rest Hd Ha s'.
    assert (E : pf (v, e0) = ((false, None), s')).
    { unfold pf. rewrite (componentNotFoundFunc_fetched _ _ _ _ item rest Hd).
      destruct (Addons item); [contradiction | reflexivity]. }
    split; [exact E|]. intros n. rewrite poll_step, E. reflexivity.
  - intros clu. apply WaitForComponentNotFound_deadline.
Qed.

(** ** The theorems at concrete clients *)

(** A check of the recovery wait on a cluster whose restore failed: the
    predicate reports an error, the check logs it and says to go on. *)
Lemma soft_condition_error_at_restore_failed :
  clusterConditionFunc (alwaysCluster restoreFailed) "c1" "recovery successful"
    (recoverySuccessful "c1") (mkClusterVars None None, initEnv) =
    ((false, None),
     (mkClusterVars None (Some restoreFailed),
      mkEnv 1
        [LogClusterPhase "c1" ClusterRestoreFailed;
         LogClusterConditionError "recovery successful"
           (errorString "recovery cluster c1 failed")]
        0)).
Proof.
  destruct (soft_condition_error_does_not_end_wait (alwaysCluster restoreFailed)
              "c1" "b1" "recovery successful" (recoverySuccessful "c1") backupAvailable)
    as (H & _).
  destruct (H (mkClusterVars None None) initEnv restoreFailed []
              (errorString "recovery cluster c1 failed") eq_refl eq_refl) as [E _].
  exact E.
Defined.

(** The running wait on a running cluster returns nil; the wait whose
    predicate is done with an error returns that error wrapped; the wait
    whose predicate is done with a timeout returns a timeout that carries
    the snapshot. *)
Lemma done_ends_wait_at_running :
  fst (WaitForClusterRunning (alwaysCluster running) "c1" 4 initEnv) = None /\
  fst (WaitForClusterCondition (alwaysCluster installing) "c1" "ready" 2 doneWithError
         initEnv)
    = Some (wrapError "error while waiting for cluster c1 to be ready: observation failed"
              (errorString "observation failed")) /\
  fst (WaitForClusterCondition (alwaysCluster installing) "c1" "ready" 2
         (fun _ => (true, Some ErrWaitTimeout)) initEnv)
    = Some (timeoutError "timed out while waiting for cluster c1 to be ready"
              [ObservedCluster installing]).
Proof.
  split; [|split].
  - destruct (done_ends_wait (alwaysCluster running) "c1" "cluster c1 running" clusterRunning)
      as (_ & H).
    destruct (H 4 initEnv running [] eq_refl eq_refl) as [Hnil _].
    exact (Hnil eq_refl).
  - destruct (done_ends_wait (alwaysCluster installing) "c1" "ready" doneWithError)
      as (_ & H).
    destruct (H 2 initEnv installing [] eq_refl eq_refl) as [_ Herr].
    exact (Herr (errorString "observation failed") eq_refl).
  - destruct (done_ends_wait (alwaysCluster installing) "c1" "ready"
                (fun _ => (true, Some ErrWaitTimeout)))
      as (_ & H).
    destruct (H 2 initEnv installing [] eq_refl eq_refl) as [_ Herr].
    exact (Herr ErrWaitTimeout eq_refl).
Defined.

(** The component wait ends with nil at the third read of [uninstalling];
    on a cluster that keeps its add-on it times out with the snapshot. *)
Lemma WaitForComponentNotFound_spec_at_uninstalling :
  fst (WaitForComponentNotFound uninstalling "c1" 5 initEnv) = None /\
  fst (WaitForComponentNotFound (alwaysCluster installing) "c1" 2 initEnv)
    = Some (timeoutError "timeout while waiting for cluster c1 component to be Not Found"
        [ObservedCluster installing]).
Proof.
  split.
  - destruct (WaitForComponentNotFound_spec uninstalling "c1" 5 initEnv) as ([_ H] & _).
    apply H. exists 2, running, [].
    assert (Hreads : apiCalls (snd (WaitForComponentNotFound uninstalling "c1" 5 initEnv)) = 3)
      by reflexivity.
    rewrite Hreads. simpl. repeat split; lia.
  - destruct (WaitForComponentNotFound_spec (alwaysCluster installing) "c1" 2 initEnv)
      as (_ & _ & H).
    destruct (H installing) as [E _]; [| |  | exact E].
    + intros k item rest _ [= <- _]. discriminate.
    + intros k e _ [=].
    + exists 2, []. split; [simpl; lia|]. split; [reflexivity|]. intros k' Hk'.
      simpl in Hk'. lia.
Defined.

(** The scenarios of the specification, run on the embedding; a timeout of
    [n] lets the condition be checked [n] more times after the first. *)

(** Scenario B: the third read finds the cluster running. *)
Example scenario_running_at_third_read :
  let c := mkClient (fun _ k => match k with
                                | 0 | 1 => Items [installing]
                                | _ => Items [running]
                                end)
                    (fun _ _ => Items []) in
  fst (WaitForClusterRunning c "c1" 4 initEnv) = None /\
  apiCalls (snd (WaitForClusterRunning c "c1" 4 initEnv)) = 3.
Proof. split; reflexivity. Qed.

(** Scenario C: a forbidden first read ends the wait with the error wrapped. *)
Example scenario_forbidden_first_read :
  let c := mkClient (fun _ _ => Failed forbidden) (fun _ _ => Items []) in
  fst (WaitForClusterRunning c "c1" 4 initEnv)
    = Some (wrapError "error while waiting for cluster c1 to be cluster c1 running: forbidden"
              forbidden) /\
  apiCalls (snd (WaitForClusterRunning c "c1" 4 initEnv)) = 1 /\
  slept (snd (WaitForClusterRunning c "c1" 4 initEnv)) = 0%Z.
Proof. repeat split. Qed.

(** Scenario D: a failed restore reported at every check; the wait runs to
    its deadline and returns the snapshot. *)
Example scenario_restore_failed_times_out :
  fst (WaitForRecovery (alwaysCluster restoreFailed) "c1" 1 initEnv)
    = Some (timeoutError "timed out while waiting for cluster c1 to be recovery successful"
        [ObservedCluster restoreFailed]) /\
  apiCalls (snd (WaitForRecovery (alwaysCluster restoreFailed) "c1" 1 initEnv)) = 2.
Proof. split; reflexivity. Qed.

(** Scenario E: a not-found first read ends the deletion wait at once. *)
Example scenario_not_found_at_first_read :
  WaitForClusterNotFound neverFound "c1" 4 initEnv = (None, mkEnv 1 [] 0).
Proof. reflexivity. Qed.

(** [WaitForBackupCondition] starts from [bp := &corev1.Backup{}], which is
    not nil: at the deadline it returns a [TimeoutError] that carries the
    zero backup even when no read returned a backup. *)
Example WaitForBackupCondition_timeout_without_fetch :
  fst (WaitForBackupAvailable noCluster "c1" "b1" 1 initEnv)
    = Some (timeoutError "timed out while waiting for backup b1 to be backup b1 available"
        [ObservedBackup emptyBackup]).
Proof. reflexivity. Qed.


(** * Further properties of the wait helpers *)

(** ** Reads, sleeps and nil results of a poll *)

Section PollGeneral.
Context {V : Type}.
Variable f : ConditionFunc (V * Env).
Hypothesis one_read : forall s, reads (snd (f s)) = S (reads s).

(** A poll checks at least once and at most once more than its timeout
    allows. *)
Lemma PollImmediate_reads_bounds (timeout : nat) (s : V * Env) :
  reads s < reads (snd (PollImmediate timeout f s)) <= reads s + S timeout.
Proof.
rewrite PollImmediate_poll.
destruct (poll_cases f (S timeout) s)
  as [(s1 & R & E) | (j & s1 & d & err & s2 & Hj & R & Hc & _ & E)];
  rewrite E; cbn [snd]; pose proof (runs_reads f one_read _ _ _ R) as Hr.
- lia.
- pose proof (one_read s1) as H1. rewrite Hc in H1. cbn [snd] in H1. lia.
Qed.

Variable doneAt : nat -> Prop.
Hypothesis done_iff : forall s, fst (f s) = (true, None) <-> doneAt (reads s).

(** A poll returns nil exactly when one of its checks was done without
    error. *)
Lemma PollImmediate_nil_iff (timeout : nat) (s : V * Env) :
  fst (PollImmediate timeout f s) = None <->
  exists k, reads s <= k < reads (snd (PollImmediate timeout f s)) /\ doneAt k.
Proof.
rewrite PollImmediate_poll.
destruct (poll_cases f (S timeout) s)
  as [(s1 & R & E) | (j & s1 & d & err & s2 & Hj & R & Hc & Hstop & E)];
  rewrite E; cbn [fst snd].
- split; [discriminate|]. intros (k & Hk & Hd). exfalso.
  destruct (runs_checks f one_read _ _ _ R k Hk) as (a & b & Hra & Hca).
  rewrite <- Hra in Hd. apply done_iff in Hd. rewrite Hca in Hd. discriminate Hd.
- pose proof (runs_reads f one_read _ _ _ R) as Hr1.
  pose proof (one_read s1) as Hr2. rewrite Hc in Hr2. cbn [snd] in Hr2.
  split.
  + intros ->. destruct Hstop as [-> | H]; [|congruence].
    exists (reads s1). split; [lia|]. apply done_iff. now rewrite Hc.
  + intros (k & Hk & Hd).
    destruct (Nat.eq_dec k (reads s1)) as [->|Hne].
    * apply done_iff in Hd. rewrite Hc in Hd. now injection Hd as _ ->.
    * exfalso.
      destruct (runs_checks f one_read _ _ _ R k ltac:(lia)) as (a & b & Hra & Hca).
      rewrite <- Hra in Hd. apply done_iff in Hd. rewrite Hca in Hd. discriminate Hd.
Qed.
End PollGeneral.

Section PollKeeps.
Context {St X : Type}.
Variable f : ConditionFunc St.
Variable g : St -> X.
Hypothesis check_keeps : forall s, g (snd (f s)) = g s.

End PollKeeps.


(** ** The backup waits, check by check *)

Section BackupChecks.
Variable c : Client.
Variables clusterName backupName conditionDesc : string.
Variable condition : backupCondition.

Let bf := backupConditionFunc c clusterName backupName conditionDesc condition.
Let bnf := backupNotFoundFunc c clusterName backupName.

Lemma backupNotFoundFunc_failed (bp : option Backup) (env : Env) (e : error_value) :
  listBackupsWithCluster c clusterName (apiCalls env) = Failed e ->
  fst (bnf (bp, env)) = handlerAnswer (Some e) /\
  fst (snd (bnf (bp, env))) = bp /\
  reads (snd (bnf (bp, env))) = S (apiCalls env).
Proof.
intros Hd. unfold bnf, backupNotFoundFunc, bind, onEnv, ListBackupsWithCluster, reads.
cbn [fst snd]. rewrite Hd.
name_handler_result; cbn [fst snd apiCalls] in *; auto.
Qed.

Lemma backupNotFoundFunc_empty (bp : option Backup) (env : Env) :
  listBackupsWithCluster c clusterName (apiCalls env) = Items [] ->
  bnf (bp, env) =
    ((true, None), (bp, mkEnv (S (apiCalls env)) (logs env) (slept env))).
Proof.
intros Hd. unfold bnf, backupNotFoundFunc, bind, onEnv, ListBackupsWithCluster.
cbn [fst snd]. rewrite Hd. reflexivity.
Qed.

Lemma backupNotFoundFunc_fetched (bp : option Backup) (env : Env)
    (item : Backup) (rest : list Backup) :
  listBackupsWithCluster c clusterName (apiCalls env) = Items (item :: rest) ->
  bnf (bp, env) =
    ((false, None), (Some item, mkEnv (S (apiCalls env)) (logs env) (slept env))).
Proof.
intros Hd. unfold bnf, backupNotFoundFunc, bind, onEnv, ListBackupsWithCluster.
cbn [fst snd]. rewrite Hd. reflexivity.
Qed.

Lemma backupNotFoundFunc_one_read (s : option Backup * Env) :
  reads (snd (bnf s)) = S (reads s).
Proof.
destruct s as [bp env].
destruct (listBackupsWithCluster c clusterName (apiCalls env)) as [[|item rest]|e] eqn:Hd.
- now rewrite backupNotFoundFunc_empty.
- now rewrite (backupNotFoundFunc_fetched bp env item rest).
- now apply backupNotFoundFunc_failed with (e := e).
Qed.

Lemma WaitForBackupCondition_unfold (timeout : nat) (env env' : Env)
    (err : option error_value) (bp : option Backup) :
  PollImmediate timeout bf
    (Some emptyBackup,
     mkEnv (apiCalls env)
       (logs env ++ [LogWaitingBackup timeout backupName conditionDesc]) (slept env))
    = (err, (bp, env')) ->
  WaitForBackupCondition c clusterName backupName conditionDesc timeout condition env =
    (match err with
     | None => None
     | Some _ =>
         match IsTimeout err, bp with
         | true, Some backup =>
             Some (timeoutError
               ("timed out while waiting for backup " ++ backupName
                  ++ " to be " ++ conditionDesc)
               [ObservedBackup backup])
         | _, _ =>
             maybeTimeoutError err
               ("waiting for backup " ++ backupName ++ " to be " ++ conditionDesc)
         end
     end, env').
Proof.
intros H. unfold WaitForBackupCondition, bind, withVars, Logf.
cbn [apiCalls logs slept]. fold bf. rewrite H.
cbn [fst snd]. destruct err as [e|]; [|reflexivity].
destruct (IsTimeout (Some e)), bp; reflexivity.
Qed.

Lemma WaitForBackupNotFound_unfold (timeout : nat) (env env' : Env)
    (err : option error_value) (bp : option Backup) :
  PollImmediate timeout bnf (Some emptyBackup, env) = (err, (bp, env')) ->
  WaitForBackupNotFound c clusterName backupName timeout env =
    (match err with
     | None => None
     | Some _ =>
         match IsTimeout err, bp with
         | true, Some backup =>
             Some (timeoutError
               ("timeout while waiting for backup " ++ backupName ++ " to be Not Found")
               [ObservedBackup backup])
         | _, _ =>
             maybeTimeoutError err ("waiting for backup " ++ backupName ++ " not found")
         end
     end, env').
Proof.
intros H. unfold WaitForBackupNotFound, bind, withVars. fold bnf. rewrite H.
cbn [fst snd]. destruct err as [e|]; [|reflexivity].
destruct (IsTimeout (Some e)), bp; reflexivity.
Qed.
End BackupChecks.

(** ** No wait ever sleeps *)


Section Sleeps.
Variable c : Client.
Variables clusterName backupName conditionDesc : string.





End Sleeps.

(** ** From the poll to the wait *)

Lemma handlerAnswer_not_done (err : option error_value) :
  handlerAnswer err <> (true, None).
Proof. unfold handlerAnswer. discriminate. Qed.

Section Bridges.
Variable c : Client.
Variables clusterName backupName conditionDesc : string.
Variable ccond : clusterCondition.
Variable bcond : backupCondition.
Variable timeout : nat.
Variable env : Env.

Let cf := clusterConditionFunc c clusterName conditionDesc ccond.
Let bf := backupConditionFunc c clusterName backupName conditionDesc bcond.
Let nf := clusterNotFoundFunc c clusterName.
Let pf := componentNotFoundFunc c clusterName.
Let bnf := backupNotFoundFunc c clusterName backupName.

(** The state in which [WaitForBackupCondition] starts polling. *)
Let bstart : option Backup * Env :=
  (Some emptyBackup,
   mkEnv (apiCalls env)
     (logs env ++ [LogWaitingBackup timeout backupName conditionDesc]) (slept env)).

Lemma WaitForClusterCondition_env :
  snd (WaitForClusterCondition c clusterName conditionDesc timeout ccond env) =
    snd (snd (PollImmediate timeout cf (clusterWaitStart clusterName conditionDesc timeout env))).
Proof.
destruct (PollImmediate timeout cf (clusterWaitStart clusterName conditionDesc timeout env))
  as [r [v env']] eqn:H.
now rewrite (WaitForClusterCondition_unfold c clusterName conditionDesc timeout ccond
               env env' r v H).
Qed.

Lemma WaitForClusterCondition_nil :
  fst (WaitForClusterCondition c clusterName conditionDesc timeout ccond env) = None <->
  fst (PollImmediate timeout cf (clusterWaitStart clusterName conditionDesc timeout env))
    = None.
Proof.
destruct (PollImmediate timeout cf (clusterWaitStart clusterName conditionDesc timeout env))
  as [r [v env']] eqn:H.
rewrite (WaitForClusterCondition_unfold c clusterName conditionDesc timeout ccond
           env env' r v H). cbn [fst].
destruct r as [e|]; [|split; intros _; reflexivity]. split; [|discriminate].
destruct (IsTimeout (Some e)), (lastCluster v); try discriminate;
  destruct (lastClusterError v);
  intros H'; now apply maybeTimeoutError_some in H'.
Qed.

Lemma WaitForBackupCondition_env :
  snd (WaitForBackupCondition c clusterName backupName conditionDesc timeout bcond env) =
    snd (snd (PollImmediate timeout bf bstart)).
Proof.
destruct (PollImmediate timeout bf bstart) as [r [v env']] eqn:H.
now rewrite (WaitForBackupCondition_unfold c clusterName backupName conditionDesc bcond
               timeout env env' r v H).
Qed.

Lemma WaitForBackupCondition_nil :
  fst (WaitForBackupCondition c clusterName backupName conditionDesc timeout bcond env)
    = None <->
  fst (PollImmediate timeout bf bstart) = None.
Proof.
destruct (PollImmediate timeout bf bstart) as [r [v env']] eqn:H.
rewrite (WaitForBackupCondition_unfold c clusterName backupName conditionDesc bcond
           timeout env env' r v H). cbn [fst].
destruct r as [e|]; [|split; intros _; reflexivity]. split; [|discriminate].
destruct (IsTimeout (Some e)), v; try discriminate;
  intros H'; now apply maybeTimeoutError_some in H'.
Qed.

Lemma WaitForClusterNotFound_env :
  snd (WaitForClusterNotFound c clusterName timeout env) =
    snd (snd (PollImmediate timeout nf (None, env))).
Proof.
destruct (PollImmediate timeout nf (None, env)) as [r [v env']] eqn:H.
now rewrite (WaitForClusterNotFound_unfold c clusterName timeout env env' r v H).
Qed.

Lemma WaitForClusterNotFound_nil :
  fst (WaitForClusterNotFound c clusterName timeout env) = None <->
  fst (PollImmediate timeout nf (None, env)) = None.
Proof.
destruct (PollImmediate timeout nf (None, env)) as [r [v env']] eqn:H.
rewrite (WaitForClusterNotFound_unfold c clusterName timeout env env' r v H). cbn [fst].
destruct r as [e|]; [|split; intros _; reflexivity]. split; [|discriminate].
destruct (IsTimeout (Some e)), v; try discriminate;
  intros H'; now apply maybeTimeoutError_some in H'.
Qed.

Lemma WaitForComponentNotFound_env :
  snd (WaitForComponentNotFound c clusterName timeout env) =
    snd (snd (PollImmediate timeout pf (None, env))).
Proof.
destruct (PollImmediate timeout pf (None, env)) as [r [v env']] eqn:H.
now rewrite (WaitForComponentNotFound_unfold c clusterName timeout env env' r v H).
Qed.

Lemma WaitForBackupNotFound_env :
  snd (WaitForBackupNotFound c clusterName backupName timeout env) =
    snd (snd (PollImmediate timeout bnf (Some emptyBackup, env))).
Proof.
destruct (PollImmediate timeout bnf (Some emptyBackup, env)) as [r [v env']] eqn:H.
now rewrite (WaitForBackupNotFound_unfold c clusterName backupName timeout env env' r v H).
Qed.

Lemma WaitForBackupNotFound_nil :
  fst (WaitForBackupNotFound c clusterName backupName timeout env) = None <->
  fst (PollImmediate timeout bnf (Some emptyBackup, env)) = None.
Proof.
destruct (PollImmediate timeout bnf (Some emptyBackup, env)) as [r [v env']] eqn:H.
rewrite (WaitForBackupNotFound_unfold c clusterName backupName timeout env env' r v H).
cbn [fst].
destruct r as [e|]; [|split; intros _; reflexivity]. split; [|discriminate].
destruct (IsTimeout (Some e)), v; try discriminate;
  intros H'; now apply maybeTimeoutError_some in H'.
Qed.

(** When a check of each closure is done without error. *)
Lemma cf_done_iff (s : ClusterVars * Env) :
  fst (cf s) = (true, None) <->
  exists item rest,
    describeCluster c clusterName (reads s) = Items (item :: rest) /\
    ccond item = (true, None).
Proof.
destruct s as [v e0]. unfold reads. cbn [snd].
destruct (describeCluster c clusterName (apiCalls e0)) as [[|item rest]|e] eqn:Hd.
- destruct (clusterConditionFunc_not_fetched c clusterName conditionDesc ccond v e0)
    as (Ha & _); [rewrite Hd; discriminate|].
  fold cf in Ha. rewrite Ha. split; [intros H; now apply handlerAnswer_not_done in H|].
  intros (? & ? & [=] & _).
- unfold cf. rewrite (clusterConditionFunc_fetched _ _ _ _ _ _ item rest Hd). cbn [fst].
  split.
  + intros H. exists item, rest. split; [reflexivity|].
    destruct (ccond item) as [[|] err]; cbn [fst snd] in H; congruence.
  + intros (item' & rest' & [= <- _] & Hc). now rewrite Hc.
- destruct (clusterConditionFunc_not_fetched c clusterName conditionDesc ccond v e0)
    as (Ha & _); [rewrite Hd; discriminate|].
  fold cf in Ha. rewrite Ha. split; [intros H; now apply handlerAnswer_not_done in H|].
  intros (? & ? & [=] & _).
Qed.

Lemma bf_done_iff (s : option Backup * Env) :
  fst (bf s) = (true, None) <->
  exists item rest,
    listBackupsWithCluster c clusterName (reads s) = Items (item :: rest) /\
    bcond item = (true, None).
Proof.
destruct s as [v e0]. unfold reads. cbn [snd].
destruct (listBackupsWithCluster c clusterName (apiCalls e0)) as [[|item rest]|e] eqn:Hd.
- destruct (backupConditionFunc_not_fetched c clusterName backupName conditionDesc bcond v e0)
    as (Ha & _); [rewrite Hd; discriminate|].
  fold bf in Ha. rewrite Ha. split; [intros H; now apply handlerAnswer_not_done in H|].
  intros (? & ? & [=] & _).
- unfold bf. rewrite (backupConditionFunc_fetched _ _ _ _ _ _ _ item rest Hd). cbn [fst].
  split.
  + intros H. exists item, rest. split; [reflexivity|].
    destruct (bcond item) as [[|] err]; cbn [fst snd] in H; congruence.
  + intros (item' & rest' & [= <- _] & Hc). now rewrite Hc.
- destruct (backupConditionFunc_not_fetched c clusterName backupName conditionDesc bcond v e0)
    as (Ha & _); [rewrite Hd; discriminate|].
  fold bf in Ha. rewrite Ha. split; [intros H; now apply handlerAnswer_not_done in H|].
  intros (? & ? & [=] & _).
Qed.

Lemma nf_done_iff (s : option Cluster * Env) :
  fst (nf s) = (true, None) <->
  IsNotFound (errOf (describeCluster c clusterName (reads s))) = true.
Proof.
destruct s as [v e0]. unfold reads. cbn [snd].
destruct (IsNotFound (errOf (describeCluster c clusterName (apiCalls e0)))) eqn:Hnf.
- unfold nf. rewrite clusterNotFoundFunc_not_found by exact Hnf. split; intros _; reflexivity.
- split; [|discriminate]. intros H. exfalso.
  destruct (describeCluster c clusterName (apiCalls e0)) as [[|item rest]|e] eqn:Hd.
  + unfold nf in H. rewrite clusterNotFoundFunc_empty in H by exact Hd. discriminate H.
  + unfold nf in H. rewrite (clusterNotFoundFunc_fetched _ _ _ _ item rest Hd) in H.
    discriminate H.
  + destruct (clusterNotFoundFunc_failed c clusterName v e0 e Hd Hnf) as (Ha & _).
    fold nf in Ha. rewrite Ha in H. now apply handlerAnswer_not_done in H.
Qed.

Lemma bnf_done_iff (s : option Backup * Env) :
  fst (bnf s) = (true, None) <->
  listBackupsWithCluster c clusterName (reads s) = Items [].
Proof.
destruct s as [v e0]. unfold reads. cbn [snd].
destruct (listBackupsWithCluster c clusterName (apiCalls e0)) as [[|item rest]|e] eqn:Hd.
- unfold bnf. rewrite backupNotFoundFunc_empty by exact Hd. split; intros _; reflexivity.
- unfold bnf. rewrite (backupNotFoundFunc_fetched _ _ _ _ _ item rest Hd).
  split; discriminate.
- destruct (backupNotFoundFunc_failed c clusterName backupName v e0 e Hd) as (Ha & _).
  fold bnf in Ha. rewrite Ha.
  split; [intros H; now apply handlerAnswer_not_done in H | discriminate].
Qed.
End Bridges.

(** ** What every wait does and never does *)


(** X2. Every check of the five waits makes exactly one API read, on every
    path: a list with or without items, a not-found, a retryable or a
    terminal error, a condition that is done or not.  Every wait makes its
    first check at once, so it has read at least once when it returns,
    whatever its deadline. *)
Theorem every_check_reads_once :
  forall (c : Client) (clusterName backupName conditionDesc : string)
         (ccond : clusterCondition) (bcond : backupCondition),
    (forall s, reads (snd (clusterConditionFunc c clusterName conditionDesc ccond s))
               = S (reads s)) /\
    (forall s, reads (snd (backupConditionFunc c clusterName backupName conditionDesc
                             bcond s))
               = S (reads s)) /\
    (forall s, reads (snd (clusterNotFoundFunc c clusterName s)) = S (reads s)) /\
    (forall s, reads (snd (componentNotFoundFunc c clusterName s)) = S (reads s)) /\
    (forall s, reads (snd (backupNotFoundFunc c clusterName backupName s)) = S (reads s)) /\
    (forall (timeout : nat) (env : Env),
        apiCalls env
          < apiCalls (snd (WaitForClusterCondition c clusterName conditionDesc timeout
                             ccond env)) /\
        apiCalls env
          < apiCalls (snd (WaitForBackupCondition c clusterName backupName conditionDesc
                             timeout bcond env)) /\
        apiCalls env < apiCalls (snd (WaitForClusterNotFound c clusterName timeout env)) /\
        apiCalls env < apiCalls (snd (WaitForComponentNotFound c clusterName timeout env)) /\
        apiCalls env
          < apiCalls (snd (WaitForBackupNotFound c clusterName backupName timeout env))).
Proof.
intros c clusterName backupName conditionDesc ccond bcond.
split; [apply clusterConditionFunc_one_read|].
split; [apply backupConditionFunc_one_read|].
split; [apply clusterNotFoundFunc_one_read|].
split; [apply componentNotFoundFunc_one_read|].
split; [apply backupNotFoundFunc_one_read|].
intros timeout env.
split; [|split; [|split; [|split]]].
- rewrite WaitForClusterCondition_env.
  exact (proj1 (PollImmediate_reads_bounds _
           (clusterConditionFunc_one_read c clusterName conditionDesc ccond) timeout
           (clusterWaitStart clusterName conditionDesc timeout env))).
- rewrite WaitForBackupCondition_env.
  exact (proj1 (PollImmediate_reads_bounds _
           (backupConditionFunc_one_read c clusterName backupName conditionDesc bcond)
           timeout
           (Some emptyBackup,
            mkEnv (apiCalls env)
              (logs env ++ [LogWaitingBackup timeout backupName conditionDesc])%list
              (slept env)))).
- rewrite WaitForClusterNotFound_env.
  exact (proj1 (PollImmediate_reads_bounds _ (clusterNotFoundFunc_one_read c clusterName)
           timeout (None, env))).
- rewrite WaitForComponentNotFound_env.
  exact (proj1 (PollImmediate_reads_bounds _ (componentNotFoundFunc_one_read c clusterName)
           timeout (None, env))).
- rewrite WaitForBackupNotFound_env.
  exact (proj1 (PollImmediate_reads_bounds _
           (backupNotFoundFunc_one_read c clusterName backupName)
           timeout (Some emptyBackup, env))).
Qed.

(** X3. [WaitForClusterCondition] returns nil exactly when a read of the
    call returned a non-empty list on whose first cluster the condition
    answered (true, nil); [WaitForBackupCondition] likewise, on the first
    backup. *)
Theorem condition_waits_nil_iff :
  forall (c : Client) (clusterName backupName conditionDesc : string)
         (ccond : clusterCondition) (bcond : backupCondition)
         (timeout : nat) (env : Env),
    (fst (WaitForClusterCondition c clusterName conditionDesc timeout ccond env) = None <->
     exists k item rest,
       apiCalls env <= k
         < apiCalls (snd (WaitForClusterCondition c clusterName conditionDesc timeout
                            ccond env)) /\
       describeCluster c clusterName k = Items (item :: rest) /\
       ccond item = (true, None)) /\
    (fst (WaitForBackupCondition c clusterName backupName conditionDesc timeout bcond env)
       = None <->
     exists k item rest,
       apiCalls env <= k
         < apiCalls (snd (WaitForBackupCondition c clusterName backupName conditionDesc
                            timeout bcond env)) /\
       listBackupsWithCluster c clusterName k = Items (item :: rest) /\
       bcond item = (true, None)).
Proof.
intros c clusterName backupName conditionDesc ccond bcond timeout env. split.
- rewrite WaitForClusterCondition_nil, WaitForClusterCondition_env.
  rewrite (PollImmediate_nil_iff _
             (clusterConditionFunc_one_read c clusterName conditionDesc ccond)
             (fun k => exists item rest,
                         describeCluster c clusterName k = Items (item :: rest) /\
                         ccond item = (true, None))
             (cf_done_iff c clusterName conditionDesc ccond)).
  split.
  + intros (k & Hk & item & rest & Hd & Hc). now exists k, item, rest.
  + intros (k & item & rest & Hk & Hd & Hc). exists k. split; [exact Hk|].
    now exists item, rest.
- rewrite WaitForBackupCondition_nil, WaitForBackupCondition_env.
  rewrite (PollImmediate_nil_iff _
             (backupConditionFunc_one_read c clusterName backupName conditionDesc bcond)
             (fun k => exists item rest,
                         listBackupsWithCluster c clusterName k = Items (item :: rest) /\
                         bcond item = (true, None))
             (bf_done_iff c clusterName backupName conditionDesc bcond)).
  split.
  + intros (k & Hk & item & rest & Hd & Hc). now exists k, item, rest.
  + intros (k & item & rest & Hk & Hd & Hc). exists k. split; [exact Hk|].
    now exists item, rest.
Qed.

(** ** Polls with the same answers *)

Section PollSame.
Context {V W : Type}.
Variable f : ConditionFunc (V * Env).
Variable g : ConditionFunc (W * Env).
Hypothesis one_read_f : forall s, reads (snd (f s)) = S (reads s).
Hypothesis one_read_g : forall s, reads (snd (g s)) = S (reads s).
Hypothesis same_answer : forall s s', reads s = reads s' -> fst (f s) = fst (g s').

(** Two closures that answer alike at equal read counts end their polls at
    the same read with the same error. *)
Lemma poll_same (n : nat) (s : V * Env) (s' : W * Env) :
  reads s = reads s' ->
  fst (poll n f s) = fst (poll n g s') /\
  reads (snd (poll n f s)) = reads (snd (poll n g s')).
Proof.
revert s s'. induction n as [|n IH]; intros s s' Hr; [split; [reflexivity | exact Hr]|].
rewrite !poll_step.
pose proof (same_answer s s' Hr) as Ha.
pose proof (one_read_f s) as Hf. pose proof (one_read_g s') as Hg.
destruct (f s) as [[d err] s1]. destruct (g s') as [[d' err'] s1'].
cbn [fst snd] in *. injection Ha as <- <-.
assert (Hr1 : reads s1 = reads s1') by congruence.
destruct err as [e|]; [split; [reflexivity | exact Hr1]|].
destruct d; [split; [reflexivity | exact Hr1]|].
now apply IH.
Qed.
End PollSame.

Lemma clusterRunning_done (item : Cluster) :
  clusterRunning item = (true, None) <-> Phase (Status item) = ClusterRunning.
Proof.
unfold clusterRunning. destruct (Phase (Status item)); split; congruence.
Qed.

Lemma recoverySuccessful_done (clusterName : string) (item : Cluster) :
  fst (recoverySuccessful clusterName item) = fst (clusterRunning item) /\
  (fst (recoverySuccessful clusterName item) = true ->
   snd (recoverySuccessful clusterName item) = None).
Proof.
unfold recoverySuccessful, clusterRunning.
destruct (Phase (Status item)); split; try reflexivity; discriminate.
Qed.

(** The closures of the running wait and of the recovery wait answer
    alike. *)
Lemma recovery_answers_as_running (c : Client) (clusterName desc desc' : string)
    (s s' : ClusterVars * Env) :
  reads s = reads s' ->
  fst (clusterConditionFunc c clusterName desc (recoverySuccessful clusterName) s) =
  fst (clusterConditionFunc c clusterName desc' clusterRunning s').
Proof.
destruct s as [v env], s' as [v' env']. unfold reads. cbn [snd]. intros Hr.
destruct (describeCluster c clusterName (apiCalls env)) as [[|item rest]|e] eqn:Hd.
- destruct (clusterConditionFunc_not_fetched c clusterName desc
              (recoverySuccessful clusterName) v env) as (Ha & _);
    [rewrite Hd; discriminate|].
  destruct (clusterConditionFunc_not_fetched c clusterName desc' clusterRunning v' env')
    as (Ha' & _); [rewrite <- Hr, Hd; discriminate|].
  now rewrite Ha, Ha', <- Hr.
- rewrite (clusterConditionFunc_fetched _ _ _ _ _ _ item rest Hd).
  rewrite Hr in Hd.
  rewrite (clusterConditionFunc_fetched _ _ _ _ _ _ item rest Hd). cbn [fst].
  unfold recoverySuccessful, clusterRunning.
  destruct (Phase (Status item)); reflexivity.
- destruct (clusterConditionFunc_not_fetched c clusterName desc
              (recoverySuccessful clusterName) v env) as (Ha & _);
    [rewrite Hd; discriminate|].
  destruct (clusterConditionFunc_not_fetched c clusterName desc' clusterRunning v' env')
    as (Ha' & _); [rewrite <- Hr, Hd; discriminate|].
  now rewrite Ha, Ha', <- Hr.
Qed.

(** X4. [WaitForClusterRunning] returns nil exactly when a read of the call
    returned a list whose first cluster is in phase Running.
    [WaitForRecovery] does not fail fast on a failed restore: it makes the
    same reads as [WaitForClusterRunning] would and returns nil in exactly
    the same cases. *)
Theorem running_and_recovery_waits :
  forall (c : Client) (clusterName : string) (timeout : nat) (env : Env),
    (fst (WaitForClusterRunning c clusterName timeout env) = None <->
     exists k item rest,
       apiCalls env <= k < apiCalls (snd (WaitForClusterRunning c clusterName timeout env)) /\
       describeCluster c clusterName k = Items (item :: rest) /\
       Phase (Status item) = ClusterRunning) /\
    (fst (WaitForRecovery c clusterName timeout env) = None <->
     fst (WaitForClusterRunning c clusterName timeout env) = None) /\
    apiCalls (snd (WaitForRecovery c clusterName timeout env))
      = apiCalls (snd (WaitForClusterRunning c clusterName timeout env)).
Proof.
intros c clusterName timeout env. unfold WaitForClusterRunning, WaitForRecovery.
split; [|].
- rewrite WaitForClusterCondition_nil, WaitForClusterCondition_env.
  rewrite (PollImmediate_nil_iff _
             (clusterConditionFunc_one_read c clusterName _ clusterRunning)
             (fun k => exists item rest,
                         describeCluster c clusterName k = Items (item :: rest) /\
                         clusterRunning item = (true, None))
             (cf_done_iff c clusterName _ clusterRunning)).
  split.
  + intros (k & Hk & item & rest & Hd & Hc). exists k, item, rest.
    split; [exact Hk|]. split; [exact Hd|]. now apply clusterRunning_done.
  + intros (k & item & rest & Hk & Hd & Hc). exists k. split; [exact Hk|].
    exists item, rest. split; [exact Hd|]. now apply clusterRunning_done.
- rewrite !WaitForClusterCondition_nil, !WaitForClusterCondition_env.
  rewrite !PollImmediate_poll.
  destruct (poll_same
              (clusterConditionFunc c clusterName "recovery successful"
                 (recoverySuccessful clusterName))
              (clusterConditionFunc c clusterName ("cluster " ++ clusterName ++ " running")
                 clusterRunning)
              (clusterConditionFunc_one_read c clusterName _ _)
              (clusterConditionFunc_one_read c clusterName _ _)
              (recovery_answers_as_running c clusterName _ _)
              (S timeout)
              (clusterWaitStart clusterName "recovery successful" timeout env)
              (clusterWaitStart clusterName ("cluster " ++ clusterName ++ " running")
                 timeout env)
              eq_refl) as [Hres Hreads].
  split; [now rewrite Hres | exact Hreads].
Qed.

Lemma backupAvailable_done (item : Backup) :
  backupAvailable item = (true, None) <->
  ClusterBackupStatus (backupStatus item) = ClusterBackupAvailable.
Proof.
unfold backupAvailable.
destruct (ClusterBackupStatus (backupStatus item)); split; congruence.
Qed.

(** X5. [WaitForBackupAvailable] returns nil exactly when a read of the
    call returned a list whose first backup has status Available. *)
Theorem WaitForBackupAvailable_nil_iff :
  forall (c : Client) (clusterName backupName : string) (timeout : nat) (env : Env),
    fst (WaitForBackupAvailable c clusterName backupName timeout env) = None <->
    exists k item rest,
      apiCalls env <= k
        < apiCalls (snd (WaitForBackupAvailable c clusterName backupName timeout env)) /\
      listBackupsWithCluster c clusterName k = Items (item :: rest) /\
      ClusterBackupStatus (backupStatus item) = ClusterBackupAvailable.
Proof.
intros c clusterName backupName timeout env. unfold WaitForBackupAvailable.
rewrite WaitForBackupCondition_nil, WaitForBackupCondition_env.
rewrite (PollImmediate_nil_iff _
           (backupConditionFunc_one_read c clusterName backupName _ backupAvailable)
           (fun k => exists item rest,
                       listBackupsWithCluster c clusterName k = Items (item :: rest) /\
                       backupAvailable item = (true, None))
           (bf_done_iff c clusterName backupName _ backupAvailable)).
split.
- intros (k & Hk & item & rest & Hd & Hc). exists k, item, rest.
  split; [exact Hk|]. split; [exact Hd|]. now apply backupAvailable_done.
- intros (k & item & rest & Hk & Hd & Hc). exists k. split; [exact Hk|].
  exists item, rest. split; [exact Hd|]. now apply backupAvailable_done.
Qed.

(** X6. [WaitForClusterNotFound] returns nil exactly when a read of the
    call failed with not-found; [WaitForBackupNotFound] returns nil exactly
    when a read of the call returned an empty list, a failed read, not-found
    included, never being taken for the absence of the backup. *)
Theorem not_found_waits_nil_iff :
  forall (c : Client) (clusterName backupName : string) (timeout : nat) (env : Env),
    (fst (WaitForClusterNotFound c clusterName timeout env) = None <->
     exists k,
       apiCalls env <= k < apiCalls (snd (WaitForClusterNotFound c clusterName timeout env)) /\
       IsNotFound (errOf (describeCluster c clusterName k)) = true) /\
    (fst (WaitForBackupNotFound c clusterName backupName timeout env) = None <->
     exists k,
       apiCalls env <= k
         < apiCalls (snd (WaitForBackupNotFound c clusterName backupName timeout env)) /\
       listBackupsWithCluster c clusterName k = Items []).
Proof.
intros c clusterName backupName timeout env. split.
- rewrite WaitForClusterNotFound_nil, WaitForClusterNotFound_env.
  exact (PollImmediate_nil_iff _ (clusterNotFoundFunc_one_read c clusterName)
           (fun k => IsNotFound (errOf (describeCluster c clusterName k)) = true)
           (nf_done_iff c clusterName) timeout (None, env)).
- rewrite WaitForBackupNotFound_nil, WaitForBackupNotFound_env.
  exact (PollImmediate_nil_iff _ (backupNotFoundFunc_one_read c clusterName backupName)
           (fun k => listBackupsWithCluster c clusterName k = Items [])
           (bnf_done_iff c clusterName backupName) timeout (Some emptyBackup, env)).
Qed.

(** ** The backup a backup wait retains *)

Section BackupSnapshot.
Variable c : Client.
Variable clusterName : string.
Variable f : ConditionFunc (option Backup * Env).
Variable start : nat.

Hypothesis one_read : forall s, reads (snd (f s)) = S (reads s).
Hypothesis keeps_fetched :
  forall v env item rest,
    listBackupsWithCluster c clusterName (apiCalls env) = Items (item :: rest) ->
    fst (snd (f (v, env))) = Some item.
Hypothesis keeps_previous :
  forall v env,
    (forall item rest,
        listBackupsWithCluster c clusterName (apiCalls env) <> Items (item :: rest)) ->
    fst (snd (f (v, env))) = v.

Lemma backup_ok_step (s : option Backup * Env) :
  backup_ok c clusterName start s -> backup_ok c clusterName start (snd (f s)).
Proof.
destruct s as [v env]. intros (H0 & b & Hb & Hcases).
pose proof (one_read (v, env)) as Hr.
unfold backup_ok. rewrite Hr. unfold reads in *. cbn [fst snd] in *. subst v.
split; [lia|].
destruct (listBackupsWithCluster c clusterName (apiCalls env)) as [[|item rest]|e] eqn:Hd.
- exists b. split; [apply keeps_previous; rewrite Hd; discriminate|].
  destruct Hcases as [(Hz & Hnone) | (k & rest & Hk & Hk2 & Hk3)].
  + left. split; [exact Hz|]. intros k Hk item rest.
    destruct (Nat.eq_dec k (apiCalls env)) as [->|Hne];
      [rewrite Hd; discriminate | apply Hnone; lia].
  + right. exists k, rest. split; [lia|]. split; [exact Hk2|].
    intros k' Hk' item' rest'.
    destruct (Nat.eq_dec k' (apiCalls env)) as [->|Hne];
      [rewrite Hd; discriminate | apply Hk3; lia].
- exists item. split; [now apply keeps_fetched with (rest := rest)|].
  right. exists (apiCalls env), rest. split; [lia|]. split; [exact Hd|].
  intros k' Hk'. lia.
- exists b. split; [apply keeps_previous; rewrite Hd; discriminate|].
  destruct Hcases as [(Hz & Hnone) | (k & rest & Hk & Hk2 & Hk3)].
  + left. split; [exact Hz|]. intros k Hk item rest.
    destruct (Nat.eq_dec k (apiCalls env)) as [->|Hne];
      [rewrite Hd; discriminate | apply Hnone; lia].
  + right. exists k, rest. split; [lia|]. split; [exact Hk2|].
    intros k' Hk' item' rest'.
    destruct (Nat.eq_dec k' (apiCalls env)) as [->|Hne];
      [rewrite Hd; discriminate | apply Hk3; lia].
Qed.

Lemma backup_ok_poll (n : nat) (env : Env) :
  apiCalls env = start ->
  backup_ok c clusterName start (snd (poll n f (Some emptyBackup, env))).
Proof.
intros Hr. apply poll_invariant; [exact backup_ok_step|].
split; [unfold reads; cbn [snd]; lia|].
exists emptyBackup. split; [reflexivity|]. left. split; [reflexivity|].
intros k Hk. unfold reads in Hk. cbn [snd] in Hk. lia.
Qed.
End BackupSnapshot.

Section BackupOutcome.
Variable c : Client.
Variables clusterName backupName conditionDesc : string.
Variable condition : backupCondition.

Lemma bf_keeps_fetched (v : option Backup) (env : Env) (item : Backup)
    (rest : list Backup) :
  listBackupsWithCluster c clusterName (apiCalls env) = Items (item :: rest) ->
  fst (snd (backupConditionFunc c clusterName backupName conditionDesc condition (v, env)))
    = Some item.
Proof.
intros Hd. now rewrite (backupConditionFunc_fetched _ _ _ _ _ _ _ item rest Hd).
Qed.

Lemma bf_keeps_previous (v : option Backup) (env : Env) :
  (forall item rest,
      listBackupsWithCluster c clusterName (apiCalls env) <> Items (item :: rest)) ->
  fst (snd (backupConditionFunc c clusterName backupName conditionDesc condition (v, env)))
    = v.
Proof.
intros H.
now destruct (backupConditionFunc_not_fetched c clusterName backupName conditionDesc
                condition v env H) as (_ & Hv & _).
Qed.

Lemma bnf_keeps_fetched (v : option Backup) (env : Env) (item : Backup)
    (rest : list Backup) :
  listBackupsWithCluster c clusterName (apiCalls env) = Items (item :: rest) ->
  fst (snd (backupNotFoundFunc c clusterName backupName (v, env))) = Some item.
Proof.
intros Hd. now rewrite (backupNotFoundFunc_fetched _ _ _ _ _ item rest Hd).
Qed.

Lemma bnf_keeps_previous (v : option Backup) (env : Env) :
  (forall item rest,
      listBackupsWithCluster c clusterName (apiCalls env) <> Items (item :: rest)) ->
  fst (snd (backupNotFoundFunc c clusterName backupName (v, env))) = v.
Proof.
intros H.
destruct (listBackupsWithCluster c clusterName (apiCalls env)) as [[|item rest]|e] eqn:Hd.
- now rewrite backupNotFoundFunc_empty.
- exfalso. exact (H item rest eq_refl).
- now apply backupNotFoundFunc_failed with (e := e).
Qed.
End BackupOutcome.

Lemma maybeTimeoutError_not_timeout (err : option error_value) (task msg : string)
    (objs : list observed) :
  IsTimeout err = false -> maybeTimeoutError err task <> Some (timeoutError msg objs).
Proof.
intros H. unfold maybeTimeoutError. rewrite H. destruct err; discriminate.
Qed.

(** X7. The backup waits never return a timeout without object: their
    pointer [bp] starts at the zero backup and is never nil, so a
    [TimeoutError] of [WaitForBackupCondition] or [WaitForBackupNotFound]
    carries exactly one backup, which is the first item of the latest read
    of the call that returned backups and the zero backup when no read
    did. *)
Theorem backup_timeouts_carry_a_backup :
  forall (c : Client) (clusterName backupName conditionDesc : string)
         (bcond : backupCondition) (timeout : nat) (env : Env),
    (forall msg objs,
        fst (WaitForBackupCondition c clusterName backupName conditionDesc timeout
               bcond env) = Some (timeoutError msg objs) ->
        exists backup,
          objs = [ObservedBackup backup] /\
          ((backup = emptyBackup /\
            forall k,
              apiCalls env <= k
                < apiCalls (snd (WaitForBackupCondition c clusterName backupName
                                   conditionDesc timeout bcond env)) ->
              forall item rest,
                listBackupsWithCluster c clusterName k <> Items (item :: rest)) \/
           latestFetchedBackup c clusterName (apiCalls env)
             (apiCalls (snd (WaitForBackupCondition c clusterName backupName
                               conditionDesc timeout bcond env))) backup)) /\
    (forall msg objs,
        fst (WaitForBackupNotFound c clusterName backupName timeout env)
          = Some (timeoutError msg objs) ->
        exists backup,
          objs = [ObservedBackup backup] /\
          ((backup = emptyBackup /\
            forall k,
              apiCalls env <= k
                < apiCalls (snd (WaitForBackupNotFound c clusterName backupName
                                   timeout env)) ->
              forall item rest,
                listBackupsWithCluster c clusterName k <> Items (item :: rest)) \/
           latestFetchedBackup c clusterName (apiCalls env)
             (apiCalls (snd (WaitForBackupNotFound c clusterName backupName timeout env)))
             backup)).
Proof.
intros c clusterName backupName conditionDesc bcond timeout env. split.
- intros msg objs.
  set (s0 := (Some emptyBackup,
              mkEnv (apiCalls env)
                (logs env ++ [LogWaitingBackup timeout backupName conditionDesc])%list
                (slept env))).
  pose proof (backup_ok_poll c clusterName
                (backupConditionFunc c clusterName backupName conditionDesc bcond)
                (apiCalls env)
                (backupConditionFunc_one_read c clusterName backupName conditionDesc bcond)
                (bf_keeps_fetched c clusterName backupName conditionDesc bcond)
                (bf_keeps_previous c clusterName backupName conditionDesc bcond)
                (S timeout) (snd s0) eq_refl) as Hok.
  rewrite <- PollImmediate_poll in Hok. change (Some emptyBackup, snd s0) with s0 in Hok.
  destruct (PollImmediate timeout
              (backupConditionFunc c clusterName backupName conditionDesc bcond) s0)
    as [r [v env']] eqn:Hpoll.
  rewrite (WaitForBackupCondition_unfold c clusterName backupName conditionDesc bcond
             timeout env env' r v Hpoll). cbn [fst snd].
  destruct Hok as (_ & b & Hb & Hcases). unfold reads in Hcases. cbn [fst snd] in *.
  subst v. intros Hout. destruct r as [e|]; [|discriminate Hout].
  destruct (IsTimeout (Some e)) eqn:Ht.
  + injection Hout as _ <-. exists b. split; [reflexivity | exact Hcases].
  + now apply maybeTimeoutError_not_timeout in Hout.
- intros msg objs.
  pose proof (backup_ok_poll c clusterName
                (backupNotFoundFunc c clusterName backupName) (apiCalls env)
                (backupNotFoundFunc_one_read c clusterName backupName)
                (bnf_keeps_fetched c clusterName backupName)
                (bnf_keeps_previous c clusterName backupName)
                (S timeout) env eq_refl) as Hok.
  rewrite <- PollImmediate_poll in Hok.
  destruct (PollImmediate timeout (backupNotFoundFunc c clusterName backupName)
              (Some emptyBackup, env)) as [r [v env']] eqn:Hpoll.
  rewrite (WaitForBackupNotFound_unfold c clusterName backupName timeout env env' r v Hpoll).
  cbn [fst snd].
  destruct Hok as (_ & b & Hb & Hcases). unfold reads in Hcases. cbn [fst snd] in *.
  subst v. intros Hout. destruct r as [e|]; [|discriminate Hout].
  destruct (IsTimeout (Some e)) eqn:Ht.
  + injection Hout as _ <-. exists b. split; [reflexivity | exact Hcases].
  + now apply maybeTimeoutError_not_timeout in Hout.
Qed.

(** A backup wait on a client that never returns a backup: at the deadline
    the timeout carries the zero backup. *)
Lemma backup_timeouts_carry_a_backup_at_no_read :
  fst (WaitForBackupCondition noCluster "c1" "b1" "available" 1
         (fun _ => (false, None)) initEnv)
    = Some (timeoutError "timed out while waiting for backup b1 to be available"
              [ObservedBackup emptyBackup]) /\
  exists backup : Backup, [ObservedBackup emptyBackup] = [ObservedBackup backup].
Proof.
split; [reflexivity|].
destruct (backup_timeouts_carry_a_backup noCluster "c1" "b1" "available"
            (fun _ => (false, None)) 1 initEnv) as [H _].
destruct (H "timed out while waiting for backup b1 to be available"
            [ObservedBackup emptyBackup] eq_refl) as (backup & Hb & _).
exists backup. exact Hb.
Defined.

(** ** Terminal read errors *)

(** X8. A terminal read error is never masked: when a read of
    [WaitForClusterCondition] fails with an error that is neither not-found
    nor retryable (nor itself a timeout), the reads before it having let the
    poll go on, the wait stops at that read, inside its timeout, and returns
    that very error wrapped by [fmt.Errorf], with the message "error while
    waiting for cluster ... to be ...: " followed by the error's own. *)
Theorem terminal_read_error_is_returned :
  forall (c : Client) (clusterName conditionDesc : string) (condition : clusterCondition)
         (timeout : nat) (env : Env) (j : nat) (e : error_value),
    j <= timeout ->
    describeCluster c clusterName (apiCalls env + j) = Failed e ->
    terminal e ->
    IsTimeout (Some e) = false ->
    (forall i, i < j ->
       (forall item rest,
           describeCluster c clusterName (apiCalls env + i) = Items (item :: rest) ->
           fst (condition item) = false) /\
       (forall e',
           describeCluster c clusterName (apiCalls env + i) = Failed e' ->
           IsNotFound (Some e') || fst (shouldRetry (Some e')) = true)) ->
    fst (WaitForClusterCondition c clusterName conditionDesc timeout condition env) =
      Some (Errorf_wrap
              ("waiting for cluster " ++ clusterName ++ " to be " ++ conditionDesc) e) /\
    apiCalls (snd (WaitForClusterCondition c clusterName conditionDesc timeout condition env))
      = apiCalls env + S j.
Proof.
intros c clusterName conditionDesc condition timeout env j e Hj Hd Hterm Htime Hbefore.
set (cf := clusterConditionFunc c clusterName conditionDesc condition).
set (s0 := clusterWaitStart clusterName conditionDesc timeout env).
pose proof (clusterConditionFunc_one_read c clusterName conditionDesc condition) as Hone.
fold cf in Hone.
assert (Hgo : forall a, reads s0 <= reads a < reads s0 + j -> fst (cf a) = (false, None)).
{ intros [v e0] Ha. unfold reads in Ha. cbn [snd] in Ha.
  change (apiCalls (snd s0)) with (apiCalls env) in Ha.
  destruct (Hbefore (apiCalls e0 - apiCalls env) ltac:(lia)) as [Hitems Hfail].
  replace (apiCalls env + (apiCalls e0 - apiCalls env)) with (apiCalls e0)
    in Hitems, Hfail by lia.
  destruct (describeCluster c clusterName (apiCalls e0)) as [[|item rest]|e'] eqn:Hd'.
  - destruct (clusterConditionFunc_not_fetched c clusterName conditionDesc condition v e0)
      as (Hans & _); [rewrite Hd'; discriminate|].
    fold cf in Hans. now rewrite Hans, Hd'.
  - unfold cf. rewrite (clusterConditionFunc_fetched _ _ _ _ _ _ item rest Hd'). cbn [fst].
    now rewrite (Hitems item rest eq_refl).
  - destruct (clusterConditionFunc_not_fetched c clusterName conditionDesc condition v e0)
      as (Hans & _); [rewrite Hd'; discriminate|].
    fold cf in Hans. rewrite Hans, Hd'. unfold handlerAnswer. cbn [errOf].
    now rewrite (Hfail e' eq_refl). }
destruct (runs_total cf Hone j s0 Hgo) as ([v1 e1] & R).
pose proof (runs_reads cf Hone _ _ _ R) as Hreads.
change (reads s0) with (apiCalls env) in Hreads.
unfold reads in Hreads. cbn [snd] in Hreads.
destruct (clusterConditionFunc_not_fetched c clusterName conditionDesc condition v1 e1)
  as (Hans & Hvars & Hr1); [rewrite Hreads, Hd; discriminate|].
fold cf in Hans, Hvars, Hr1. rewrite Hreads, Hd in Hans, Hvars. cbn [errOf] in Hans, Hvars.
rewrite (handlerAnswer_terminal e Hterm) in Hans.
destruct (cf (v1, e1)) as [ans [v2 e2]] eqn:Hc. cbn [fst snd] in Hans, Hvars, Hr1.
subst ans v2.
assert (Hlt : j < S timeout) by lia.
assert (Hstop : false = true \/ Some e <> None) by (right; discriminate).
pose proof (poll_stops cf (S timeout) j s0 (v1, e1)
              (mkClusterVars (Some e) (lastCluster v1), e2) false (Some e)
              Hlt R Hc Hstop) as Hpoll.
rewrite <- PollImmediate_poll in Hpoll.
rewrite (WaitForClusterCondition_unfold c clusterName conditionDesc timeout condition
           env e2 _ _ Hpoll).
cbn [fst snd lastCluster lastClusterError]. rewrite Htime.
unfold reads in Hr1. cbn [snd] in Hr1.
split; [|lia].
unfold maybeTimeoutError. rewrite Htime. reflexivity.
Qed.

(** The forbidden first read of the specification's scenario. *)
Lemma terminal_read_error_at_first_read :
  fst (WaitForClusterCondition
         (mkClient (fun _ _ => Failed forbidden) (fun _ _ => Items []))
         "c1" "running" 4 clusterRunning initEnv)
    = Some (wrapError "error while waiting for cluster c1 to be running: forbidden"
              forbidden) /\
  apiCalls (snd (WaitForClusterCondition
                   (mkClient (fun _ _ => Failed forbidden) (fun _ _ => Items []))
                   "c1" "running" 4 clusterRunning initEnv)) = 1.
Proof.
apply (terminal_read_error_is_returned
         (mkClient (fun _ _ => Failed forbidden) (fun _ _ => Items []))
         "c1" "running" clusterRunning 4 initEnv 0 forbidden).
- lia.
- reflexivity.
- split; reflexivity.
- reflexivity.
- intros i Hi. lia.
Defined.

(** ** Reconciling the error of a poll *)

(** X9. [maybeTimeoutError] keeps the kind of error it is given: it returns
    nil exactly for nil, and its result is a timeout exactly when its
    argument is one.  Every timeout passed through it, the sentinel of the
    poll as well as a [*timeoutError] with its objects, comes back as a new
    [*timeoutError] named after the task that carries no object; any other
    error comes back wrapped, its message after the task, and the wrapping
    is not itself taken for a timeout. *)
Theorem maybeTimeoutError_keeps_kind :
  forall (err : option error_value) (task : string),
    (maybeTimeoutError err task = None <-> err = None) /\
    IsTimeout (maybeTimeoutError err task) = IsTimeout err /\
    (IsTimeout err = true ->
     maybeTimeoutError err task = Some (timeoutError ("timed out while " ++ task) [])) /\
    maybeTimeoutError (Some ErrWaitTimeout) task
      = Some (timeoutError ("timed out while " ++ task) []) /\
    (forall msg objs,
        maybeTimeoutError (Some (timeoutError msg objs)) task
          = Some (timeoutError ("timed out while " ++ task) [])) /\
    (forall e,
        err = Some e -> IsTimeout err = false ->
        maybeTimeoutError err task
          = Some (wrapError ("error while " ++ task ++ ": " ++ Error e) e)) /\
    (forall task',
        IsTimeout (maybeTimeoutError (maybeTimeoutError err task) task') = IsTimeout err /\
        (IsTimeout err = true ->
         maybeTimeoutError (maybeTimeoutError err task) task'
           = Some (timeoutError ("timed out while " ++ task') []))).
Proof.
intros err task. unfold maybeTimeoutError, TimeoutError, Errorf_wrap.
split; [|split; [|split; [|split; [|split; [|split]]]]].
- destruct (IsTimeout err) eqn:Ht.
  + split; [discriminate|]. intros ->. discriminate Ht.
  + destruct err; split; congruence.
- destruct (IsTimeout err) eqn:Ht; [reflexivity|]. now destruct err.
- intros ->. reflexivity.
- reflexivity.
- reflexivity.
- intros e -> Ht. now rewrite Ht.
- intros task'. destruct (IsTimeout err) eqn:Ht.
  + split; reflexivity.
  + split; [now destruct err | discriminate].
Qed.

(** * Properties of the registry command *)

(** ** Sets of strings *)

Lemma slt_trans (a b c : string) : slt a b -> slt b c -> slt a c.
Proof.
unfold slt. intros H1 H2.
apply OrderedTypeEx.String_as_OT.cmp_lt in H1, H2.
apply OrderedTypeEx.String_as_OT.cmp_lt.
exact (OrderedTypeEx.String_as_OT.lt_trans _ _ _ H1 H2).
Qed.

Lemma slt_gt (a b : string) : String.compare a b = Gt -> slt b a.
Proof.
unfold slt. intros H. rewrite String.compare_antisym, H. reflexivity.
Qed.

Lemma slt_irrefl (a : string) : ~ slt a a.
Proof.
unfold slt. intros H.
assert (E : String.compare a a = Eq)
  by now apply OrderedTypeEx.String_as_OT.cmp_eq.
congruence.
Qed.

Lemma Insert_In (x z : string) (set : list string) :
  In z (Insert x set) <-> z = x \/ In z set.
Proof.
induction set as [|y rest IH]; simpl.
- intuition.
- destruct (String.compare x y) eqn:Hc; simpl.
  + apply String.compare_eq_iff in Hc. subst y. intuition.
  + intuition.
  + rewrite IH. intuition.
Qed.

Lemma Insert_sorted (x : string) (set : list string) :
  StronglySorted slt set -> StronglySorted slt (Insert x set).
Proof.
induction set as [|y rest IH]; simpl; intros Hs.
- constructor; constructor.
- inversion Hs as [|? ? Hrest Hall]; subst.
  destruct (String.compare x y) eqn:Hc.
  + exact Hs.
  + constructor; [exact Hs|]. constructor; [exact Hc|].
    rewrite Forall_forall in *. intros z Hz. exact (slt_trans _ _ _ Hc (Hall z Hz)).
  + constructor; [now apply IH|].
    rewrite Forall_forall in *. intros z Hz. apply Insert_In in Hz.
    destruct Hz as [-> | Hz]; [now apply slt_gt | now apply Hall].
Qed.

Lemma insertMatching_In (toComplete z : string) (values set : list string) :
  In z (insertMatching toComplete set values) <->
  In z set \/ (In z values /\ prefix toComplete z = true).
Proof.
unfold insertMatching. revert set.
induction values as [|v values IH]; intros set; simpl.
- intuition.
- rewrite IH. destruct (prefix toComplete v) eqn:Hp.
  + rewrite Insert_In. split.
    * intros [[-> | H] | [H1 H2]]; auto.
    * intros [H | [[-> | H1] H2]]; auto.
  + split.
    * intros [H | [H1 H2]]; auto.
    * intros [H | [[-> | H1] H2]]; auto. congruence.
Qed.

Lemma insertMatching_sorted (toComplete : string) (values set : list string) :
  StronglySorted slt set -> StronglySorted slt (insertMatching toComplete set values).
Proof.
unfold insertMatching. revert set.
induction values as [|v values IH]; intros set Hs; simpl; [exact Hs|].
apply IH. destruct (prefix toComplete v); [now apply Insert_sorted | exact Hs].
Qed.

(** Two sorted lists without repetition that have the same members are
    the same list. *)
Lemma sorted_same_members (l l' : list string) :
  StronglySorted slt l -> StronglySorted slt l' ->
  (forall z, In z l <-> In z l') -> l = l'.
Proof.
revert l'. induction l as [|x l IH]; intros l' Hs Hs' Hmem.
- destruct l' as [|y l']; [reflexivity|].
  exfalso. apply (Hmem y). now left.
- destruct l' as [|y l']; [exfalso; apply (Hmem x); now left|].
  inversion Hs as [|? ? Hl Hall]; subst.
  inversion Hs' as [|? ? Hl' Hall']; subst.
  rewrite Forall_forall in Hall, Hall'.
  assert (Hxy : x = y).
  { destruct (proj1 (Hmem x) (or_introl eq_refl)) as [E | Hx]; [now symmetry|].
    destruct (proj2 (Hmem y) (or_introl eq_refl)) as [E | Hy]; [exact E|].
    exfalso. apply (slt_irrefl x).
    exact (slt_trans _ _ _ (Hall y Hy) (Hall' x Hx)). }
  subst y. f_equal. apply IH; [exact Hl | exact Hl' |].
  intros z. split; intros Hz.
  + destruct (proj1 (Hmem z) (or_intror Hz)) as [E | H]; [|exact H].
    subst z. exfalso. exact (slt_irrefl x (Hall x Hz)).
  + destruct (proj2 (Hmem z) (or_intror Hz)) as [E | H]; [|exact H].
    subst z. exfalso. exact (slt_irrefl x (Hall' x Hz)).
Qed.

(** ** Shell completions *)

Lemma repos_fold_In (toComplete z : string) (repos : list (string * list string))
    (set : list string) :
  In z (fold_left (fun set entry => insertMatching toComplete set (snd entry)) repos set) <->
  In z set \/
  exists entry, In entry repos /\ In z (snd entry) /\ prefix toComplete z = true.
Proof.
revert set. induction repos as [|entry repos IH]; intros set; simpl.
- split; [auto | intros [H | (? & [] & _)]; exact H].
- rewrite IH, insertMatching_In. split.
  + intros [[H | [H1 H2]] | (e & He & H1 & H2)]; auto.
    * right. exists entry. auto.
    * right. exists e. auto.
  + intros [H | (e & [<- | He] & H1 & H2)]; auto.
    right. exists e. auto.
Qed.

Lemma repos_fold_sorted (toComplete : string) (repos : list (string * list string))
    (set : list string) :
  StronglySorted slt set ->
  StronglySorted slt
    (fold_left (fun set entry => insertMatching toComplete set (snd entry)) repos set).
Proof.
revert set. induction repos as [|entry repos IH]; intros set Hs; simpl; [exact Hs|].
apply IH. now apply insertMatching_sorted.
Qed.

(** X10. The tags [listTags] offers for completion are the tags of the
    image that start with the typed prefix, each once, in ascending byte
    order; without an image name nothing is offered; an error of the
    request does not change what is offered from the tags that came back. *)
Theorem listTags_sorted_matches :
  forall (o : RegistryOptions) (toComplete : string) (tags : list string)
         (err : option error_value),
    StronglySorted slt (listTags o toComplete (tags, err)) /\
    (Name o = "" -> listTags o toComplete (tags, err) = []) /\
    (Name o <> "" ->
     forall x, In x (listTags o toComplete (tags, err)) <->
               In x tags /\ prefix toComplete x = true) /\
    listTags o toComplete (tags, err) = listTags o toComplete (tags, None).
Proof.
intros o toComplete tags err. unfold listTags, Complete. cbn [fst].
assert (Hname : Name (if (Arch o =? "")%string then setArch o "amd64" else o) = Name o)
  by (destruct (Arch o =? "")%string; reflexivity).
rewrite Hname.
destruct (String.eqb_spec (Name o) "") as [E|NE].
- split; [constructor|]. split; [reflexivity|]. split; [contradiction | reflexivity].
- split; [apply insertMatching_sorted; constructor|].
  split; [contradiction|]. split; [|reflexivity].
  intros _ x. rewrite insertMatching_In. simpl. intuition.
Qed.

(** X11. The repositories [listRepos] offers for completion are the values
    of the catalog that start with the typed prefix, each once, in ascending
    byte order, whatever the order in which the map is ranged over; after a
    failed request nothing is offered. *)
Theorem listRepos_sorted_matches :
  forall (o : RegistryOptions) (toComplete : string)
         (repos repos' : list (string * list string)),
    StronglySorted slt (listRepos o toComplete (repos, None)) /\
    (forall x, In x (listRepos o toComplete (repos, None)) <->
               exists entry, In entry repos /\ In x (snd entry) /\
                             prefix toComplete x = true) /\
    (Permutation repos repos' ->
     listRepos o toComplete (repos, None) = listRepos o toComplete (repos', None)) /\
    (forall e, listRepos o toComplete (repos, Some e) = []).
Proof.
intros o toComplete repos repos'. unfold listRepos. cbn [fst snd].
assert (Hmem : forall (l : list (string * list string)) x,
           In x (fold_left (fun set entry => insertMatching toComplete set (snd entry)) l []) <->
           exists entry, In entry l /\ In x (snd entry) /\ prefix toComplete x = true).
{ intros l x. rewrite repos_fold_In. simpl. intuition. }
split; [apply repos_fold_sorted; constructor|].
split; [apply Hmem|]. split; [|reflexivity].
intros Hperm. apply sorted_same_members; try (apply repos_fold_sorted; constructor).
intros z. rewrite !Hmem. split; intros (entry & He & H1 & H2); exists entry.
- split; [exact (Permutation_in _ Hperm He) | auto].
- split; [exact (Permutation_in _ (Permutation_sym Hperm) He) | auto].
Qed.

(** The completions of a catalog with two repositories, for the prefix
    "kc". *)
Lemma listRepos_at_two_repositories :
  listRepos NewRegistryOptions "kc"
    ([("repositories", ["kc/server"; "library/nginx"; "kc/agent"; "kc/server"])], None)
    = ["kc/agent"; "kc/server"] /\
  listRepos NewRegistryOptions "kc"
    ([("b", ["kc/server"]); ("a", ["kc/agent"])], None)
    = listRepos NewRegistryOptions "kc"
        ([("a", ["kc/agent"]); ("b", ["kc/server"])], None).
Proof.
split; [reflexivity|].
destruct (listRepos_sorted_matches NewRegistryOptions "kc"
            [("b", ["kc/server"]); ("a", ["kc/agent"])]
            [("a", ["kc/agent"]); ("b", ["kc/server"])]) as (_ & _ & H & _).
apply H. apply perm_swap.
Defined.

(** ** Validation *)

(** X12. What the validators of the registry commands accept: [ValidateArgs]
    wants a credential (key file or password) and a node; [ValidateArgsPush]
    and [ValidateArgsDeploy] accept the same options, those of
    [ValidateArgs] with a package, but report a missing node and a missing
    package in opposite orders; [ValidateArgsDelete] wants a name and a tag
    on top of [ValidateArgs]; [ValidateArgsList] wants no credential, only a
    node and a type that is "repository", or "image" with a name. *)
Theorem registry_validators :
  forall (o : RegistryOptions) (UsageErrorf : string -> error_value),
    (ValidateArgs o = None <->
     (PkFile (SSHConfig o) <> "" \/ Password (SSHConfig o) <> "") /\ Node o <> "") /\
    (ValidateArgsPush o = None <-> ValidateArgs o = None /\ Pkg o <> "") /\
    (ValidateArgsDeploy o = None <-> ValidateArgsPush o = None) /\
    (ValidateArgs o <> Some (errorString "one of --pk-file or --passwd must be specified") ->
     Node o = "" -> Pkg o = "" ->
     ValidateArgsPush o = Some (errorString "--node must be specified") /\
     ValidateArgsDeploy o = Some (errorString "--pkg must be specified")) /\
    (ValidateArgsDelete UsageErrorf o = None <->
     ValidateArgs o = None /\ Name o <> "" /\ Tag o <> "") /\
    (ValidateArgsList o = None <->
     Node o <> "" /\
     (Type_ o = "repository" \/ (Type_ o = "image" /\ Name o <> ""))).
Proof.
intros o U.
unfold ValidateArgs, ValidateArgsPush, ValidateArgsDeploy, ValidateArgsDelete,
  ValidateArgsList.
split; [|split; [|split; [|split; [|split]]]];
  repeat match goal with
         | |- context [String.eqb ?a ?b] => destruct (String.eqb_spec a b)
         end;
  cbn [andb negb];
  repeat split; intros; try discriminate; try congruence; try reflexivity;
  try tauto;
  try (repeat match goal with
              | H : _ /\ _ |- _ => destruct H
              | H : _ \/ _ |- _ => destruct H
              end; congruence).
Qed.

(** ** The delete command *)





